(** * A verified model of [generate-whatsapp-dataset.py]

    The generator script builds a CSV of synthetic patient rows under four
    modes and, optionally, a FHIR-like patient bundle.  This file embeds the
    script function by function and proves the properties its specification
    states about it.

    Conventions of the embedding:
    - a Python [int] is a [Z];
    - a Python [float] is an IEEE-754 binary64 value, a [spec_float] with
      precision 53 and maximal exponent 1024, and the float operations are the
      ones of [SpecFloat];
    - a Python [str] is a [string];
    - an exception is a value of [py_exn] carried by the [result] type;
    - the process-wide [random] generator is an explicit state threaded
      through the calls that draw from it. *)

From Stdlib Require Import ZArith List Bool Ascii String Lia SpecFloat.
Import ListNotations.

Local Open Scope Z_scope.

(** ** Exceptions *)

Inductive py_exn : Type :=
| OverflowError
| ValueError.

Inductive result (A : Type) : Type :=
| Ok (a : A)
| Raise (e : py_exn).

Arguments Ok {A} a.
Arguments Raise {A} e.

Definition bind {A B : Type} (r : result A) (k : A -> result B) : result B :=
  match r with
  | Ok a => k a
  | Raise e => Raise e
  end.

Notation "x <- r ;; k" := (bind r (fun x => k))
  (at level 61, r at next level, right associativity).

(** ** Python floats *)

Module PyFloat.

Definition float : Type := spec_float.

Definition prec : Z := 53.
Definition emax : Z := 1024.

(** [float(n)] for an [int]: round to nearest, ties to even; a value too
    large for a double raises [OverflowError]. *)
Definition float_of_int (n : Z) : result float :=
  match binary_normalize prec emax n 0 false with
  | S754_infinity _ => Raise OverflowError
  | f => Ok f
  end.

Definition fmul (x y : float) : float := SFmul prec emax x y.

(** [math.floor(x)]: the largest integer below [x]; infinities raise
    [OverflowError] and NaN raises [ValueError].  For a negative exponent
    [Z.shiftl] divides, rounding towards minus infinity. *)
Definition math_floor (x : float) : result Z :=
  match x with
  | S754_zero _ => Ok 0
  | S754_finite s m e => Ok (Z.shiftl (cond_Zopp s (Zpos m)) e)
  | S754_infinity _ => Raise OverflowError
  | S754_nan => Raise ValueError
  end.

Definition fleb (x y : float) : bool := SFleb x y.
Definition fltb (x y : float) : bool := SFltb x y.

Definition is_float (x : float) : bool := valid_binary prec emax x.

(** Some literals. *)
Definition f_zero : float := S754_zero false.
Definition f_one : float := S754_finite false 4503599627370496 (-52).
Definition f_half : float := S754_finite false 4503599627370496 (-53).
Definition f_inf : float := S754_infinity false.
Definition f_nan : float := S754_nan.

(** [0.0 <= x <= 1.0] on a well-formed double. *)
Definition in_unit_interval (x : float) : bool :=
  is_float x && fleb f_zero x && fleb x f_one.

(** The double [m * 2^e] has the integer value [n]. *)
Definition same_value (n : Z) (m : positive) (e : Z) : Prop :=
  n * 2 ^ Z.max 0 (- e) = Zpos m * 2 ^ Z.max 0 e.

(** An integer that some double represents exactly. *)
Definition representable (n : Z) : Prop :=
  n = 0 \/ exists m e, bounded prec emax m e = true /\ same_value (Z.abs n) m e.

(** Number of binary digits of a mantissa. *)
Definition dig (m : positive) : Z := Zpos (digits2_pos m).

(** Exponent of the format for a value of [e] digits above the unit. *)
Definition fexp64 (e : Z) : Z := fexp prec emax e.

(** What the end of [binary_round_aux] makes of a mantissa and an
    exponent. *)
Definition finish (sx : bool) (m e : Z) : float :=
  match m with
  | Z0 => S754_zero sx
  | Zpos p => if e <=? emax - prec then S754_finite sx p e else S754_infinity sx
  | Zneg _ => S754_nan
  end.

End PyFloat.

(** ** Python strings of integers *)

Module PyStr.

Local Open Scope string_scope.

Definition digit_char (d : Z) : ascii := ascii_of_nat (48 + Z.to_nat d).

(** The decimal digits of [n >= 0], most significant first, in front of
    [acc]. *)
Fixpoint digits_aux (fuel : nat) (n : Z) (acc : string) : string :=
  match fuel with
  | O => acc
  | S fuel' =>
      let acc' := String (digit_char (n mod 10)) acc in
      if (n / 10 =? 0)%Z then acc' else digits_aux fuel' (n / 10) acc'
  end.

Definition str_nonneg (n : Z) : string :=
  digits_aux (S (Z.to_nat (Z.log2 n))) n "".

(** [str(z)] *)
Definition str (z : Z) : string :=
  if (z <? 0)%Z then "-" ++ str_nonneg (- z) else str_nonneg z.

Fixpoint zeros (n : nat) : string :=
  match n with
  | O => ""
  | S n' => String "0" (zeros n')
  end.

Definition zfill (w : nat) (s : string) : string :=
  zeros (w - String.length s) ++ s.

(** [format(z, "016d")]: sign first, then zeros up to a total width of 16;
    a longer number is never cut. *)
Definition format_016d (z : Z) : string :=
  if (z <? 0)%Z then "-" ++ zfill 15 (str_nonneg (- z))
  else zfill 16 (str_nonneg z).

(** [sep.join(l)] *)
Fixpoint join (sep : string) (l : list string) : string :=
  match l with
  | [] => ""
  | [x] => x
  | x :: rest => x ++ sep ++ join sep rest
  end.

Definition is_digit (c : ascii) : bool :=
  let n := nat_of_ascii c in (48 <=? n)%nat && (n <=? 57)%nat.

Fixpoint all_digits (s : string) : bool :=
  match s with
  | "" => true
  | String c s' => is_digit c && all_digits s'
  end.

(** Reading a digit string back, most significant digit first. *)
Fixpoint parse_acc (s : string) (v : Z) : Z :=
  match s with
  | "" => v
  | String c s' => parse_acc s' (10 * v + (Z.of_nat (nat_of_ascii c) - 48))
  end.

Definition parse (s : string) : Z := parse_acc s 0.

End PyStr.

(** ** The [random] module, as far as the script uses it *)

(** A generator has a state, is seeded from an integer, and draws an index
    below a positive bound.  [random.choice] only needs that much. *)
Record RandomGen : Type := {
  rng_state : Type;
  rng_seed : Z -> rng_state;
  rng_randbelow : rng_state -> nat -> nat * rng_state;
  rng_randbelow_lt :
    forall s n, (0 < n)%nat -> (fst (rng_randbelow s n) < n)%nat
}.

(** [random.choice(pool)] on a pool of strings. *)
Definition choice (G : RandomGen) (s : rng_state G) (pool : list string)
  : string * rng_state G :=
  let (k, s') := rng_randbelow G s (List.length pool) in
  (nth k pool EmptyString, s').

(** A small linear congruential generator, to run the model on concrete
    inputs.  Nothing below depends on which generator is plugged in. *)
Definition lcg_next (s : Z) : Z := (s * 1103515245 + 12345) mod 2147483648.

Definition lcg_gen : RandomGen := {|
  rng_state := Z;
  rng_seed := fun z => z;
  rng_randbelow := fun s n =>
    (Z.to_nat (lcg_next s mod Z.of_nat n), lcg_next s);
  rng_randbelow_lt := ltac:(intros s n Hn; cbn [fst];
    pose proof (Z.mod_pos_bound (lcg_next s) (Z.of_nat n)); lia)
|}.

(** ** The script *)

Local Open Scope string_scope.

Definition VALID_PHONES : list string :=
  [ "081234567890";
    "085678901234";
    "082345678901";
    "083456789012";
    "087890123456" ].

Definition UNIFORM_PHONES : list string :=
  [ "081234567890";
    "6285678901234";
    "082345678901";
    "0834-5678-9012";
    "85678901234" ].

Definition INVALID_PHONES : list string :=
  [ "+630123456";
    "7123456789";
    "08123";
    "abcde12345";
    "";
    "620123456789" ].

Definition VALID_NAMES : list string :=
  [ "DEWI LESTARI SARI";
    "MAYA SARI PUTRI";
    "RINA PERMATA ANGGRAINI";
    "LINDA MARLINA SIREGAR" ].

Definition INVALID_NAMES : list string :=
  [ "INVALID FORMAT ONE";
    "INVALID FORMAT TWO";
    "INVALID FORMAT THREE";
    "INVALID FORMAT FOUR" ].

(** The [argparse.Namespace] that [parse_args] returns. *)
Record Namespace : Type := {
  output : string;
  records : Z;
  mode : string;
  valid_ratio : PyFloat.float;
  patients_json : string;
  date : string
}.

(** The command line, option by option, after [argparse] has converted each
    value with the option's [type]; [None] is an option left out.  [today] is
    the current UTC date as [%d-%m-%Y], read from the clock. *)
Record CommandLine : Type := {
  opt_output : option string;
  opt_records : option Z;
  opt_mode : option string;
  opt_valid_ratio : option PyFloat.float;
  opt_patients_json : option string;
  opt_date : option string
}.

Definition mode_choices : list string := ["valid"; "invalid"; "mixed"; "uniform"].

Definition default {A : Type} (o : option A) (d : A) : A :=
  match o with
  | Some a => a
  | None => d
  end.

(** [parse_args]: [None] is the usage error of a [--mode] outside its
    choices. *)
Definition parse_args (today : string) (c : CommandLine) : option Namespace :=
  let m := default (opt_mode c) "valid" in
  if existsb (String.eqb m) mode_choices then
    Some {| output := default (opt_output c) "outputs/samples/generated-whatsapp.csv";
            records := default (opt_records c) 1000;
            mode := m;
            valid_ratio := default (opt_valid_ratio c) PyFloat.f_half;
            patients_json := default (opt_patients_json c) "";
            date := default (opt_date c) today |}
  else None.

Definition make_nik (base idx : Z) : string := PyStr.format_016d (base + idx).

(** [range(n)] *)
Definition range (n : Z) : list Z := map Z.of_nat (seq 0 (Z.to_nat n)).

(** [pool[i % len(pool)]] *)
Definition cyclic (pool : list string) (i : Z) : string :=
  nth (Z.to_nat (i mod Z.of_nat (List.length pool))) pool "".

Definition row : Type := list string.

Definition header : row :=
  ["last_updated_date"; "nik_identifier"; "name"; "phone_number"].

(** [int(math.floor(args.records * args.valid_ratio))] *)
Definition valid_target (records : Z) (valid_ratio : PyFloat.float) : result Z :=
  x <- PyFloat.float_of_int records ;;
  PyFloat.math_floor (PyFloat.fmul x valid_ratio).

Section BuildRows.

Variable G : RandomGen.

(** What the loop of [build_rows] carries from one index to the next. *)
Record loop_state : Type := {
  rows : list row;
  valid_count : Z;
  rng : rng_state G
}.

Definition invalid_row (a : Namespace) (i : Z) : row :=
  let nik_seed := make_nik 9000000000000000 i in
  let phone := cyclic INVALID_PHONES i in
  let nik_value := if String.eqb phone "" then "" else nik_seed in
  let name := cyclic INVALID_NAMES i in
  [date a; nik_value; name; phone].

Definition valid_shaped_row (a : Namespace) (i : Z) : row :=
  let nik := make_nik 3200000000000000 i in
  let phone := cyclic VALID_PHONES i in
  let name := cyclic VALID_NAMES i in
  [date a; nik; name; phone].

Definition uniform_row (a : Namespace) (i : Z) : row :=
  let nik := make_nik 3100000000000000 i in
  let phone := cyclic UNIFORM_PHONES i in
  let name := "PATIENT_" ++ PyStr.str (i + 1) in
  [date a; nik; name; phone].

(** One turn of the [for] loop. *)
Definition build_rows_body (a : Namespace) (target : Z)
           (st : loop_state) (i : Z) : loop_state :=
  if String.eqb (mode a) "invalid" then
    {| rows := (rows st ++ [invalid_row a i])%list;
       valid_count := valid_count st;
       rng := rng st |}
  else if String.eqb (mode a) "mixed" then
    if (valid_count st <? target)%Z then
      {| rows := (rows st ++ [valid_shaped_row a i])%list;
         valid_count := valid_count st + 1;
         rng := rng st |}
    else
      {| rows := (rows st ++ [invalid_row a i])%list;
         valid_count := valid_count st;
         rng := rng st |}
  else if String.eqb (mode a) "uniform" then
    {| rows := (rows st ++ [uniform_row a i])%list;
       valid_count := valid_count st;
       rng := rng st |}
  else
    let nik := make_nik 3300000000000000 i in
    let (phone, s1) := choice G (rng st) VALID_PHONES in
    let (name, s2) := choice G s1 VALID_NAMES in
    {| rows := (rows st ++ [[date a; nik; name; phone]])%list;
       valid_count := valid_count st;
       rng := s2 |}.

Definition build_rows_loop (a : Namespace) (target : Z) (s : rng_state G)
  : loop_state :=
  fold_left (build_rows_body a target) (range (records a))
            {| rows := [header]; valid_count := 0; rng := s |}.

(** [build_rows], from the generator state [s]; the state after the call
    comes back with the rows. *)
Definition build_rows (a : Namespace) (s : rng_state G)
  : result (list row * rng_state G) :=
  target <- valid_target (records a) (valid_ratio a) ;;
  let st := build_rows_loop a target s in
  Ok (rows st, rng st).

End BuildRows.

Arguments rows {G} _.
Arguments valid_count {G} _.
Arguments rng {G} _.

(** [write_csv]: the text that ends up in the file.  [ensure_dir] only makes
    the parent directories and is left out. *)
Definition csv_line (r : row) : string := PyStr.join "," r ++ "
".

Definition csv_text (rs : list row) : string :=
  fold_left (fun acc r => acc ++ csv_line r) rs "".

(** JSON values, as far as the patient bundle needs them; a [dict] keeps its
    keys in insertion order. *)
#[local] Unset Elimination Schemes.

Inductive json : Type :=
| JStr (s : string)
| JBool (b : bool)
| JList (l : list json)
| JDict (kv : list (string * json)).

#[local] Set Elimination Schemes.

Definition patient_entry (i : Z) : json :=
  let nik := make_nik 3000000000000000 i in
  JDict
    [ ("resource",
       JDict
         [ ("resourceType", JStr "Patient");
           ("id", JStr ("patient-" ++ PyStr.str (i + 1)));
           ("active", JBool true);
           ("identifier",
            JList
              [ JDict
                  [ ("system", JStr "https://fhir.kemkes.go.id/id/nik");
                    ("value", JStr nik) ] ]);
           ("name",
            JList
              [ JDict
                  [ ("use", JStr "official");
                    ("family", JStr ("PATIENT_" ++ PyStr.str (i + 1)));
                    ("given", JList [JStr "TEST"]) ] ]);
           ("telecom", JList []);
           ("meta",
            JDict
              [ ("versionId", JStr "v001");
                ("lastUpdated", JStr "2025-08-22T10:15:30.123456+07:00") ]) ]) ].

(** The [patients] dictionary that [write_patients_json] hands to
    [json.dump]: the list under its one key grows by one entry per index. *)
Definition patients_bundle (records : Z) : json :=
  JDict
    [ ("patients_before_phone_update",
       JList (fold_left (fun l i => (l ++ [patient_entry i])%list)
                         (range records) []))  ].

(** What a run leaves behind. *)
Inductive file_content : Type :=
| Text (s : string)
| Json (j : json).

Record effects : Type := {
  written : list (string * file_content);
  printed : list string
}.

(** The two writers record what they hand to the file.  Creating the
    directory, opening the file and encoding the text as UTF-8 are taken to
    succeed: a run that fails there is outside this model. *)
Definition write_csv (path : string) (rs : list row) (fx : effects) : effects :=
  {| written := (written fx ++ [(path, Text (csv_text rs))])%list;
     printed := printed fx |}.

Definition write_patients_json (path : string) (records : Z) (fx : effects)
  : effects :=
  {| written := (written fx ++ [(path, Json (patients_bundle records))])%list;
     printed := printed fx |}.

Definition print (line : string) (fx : effects) : effects :=
  {| written := written fx; printed := (printed fx ++ [line])%list |}.

(** [main], given the parsed arguments and the seeded generator. *)
Definition main (G : RandomGen) (a : Namespace) (s : rng_state G)
  : result effects :=
  r <- build_rows G a s ;;
  let fx := write_csv (output a) (fst r) {| written := []; printed := [] |} in
  let fx := print ("[ok] CSV written to " ++ output a ++ " ("
                   ++ PyStr.str (records a) ++ " rows, mode=" ++ mode a ++ ")") fx in
  if String.eqb (patients_json a) "" then Ok fx
  else
    let fx := write_patients_json (patients_json a) (records a) fx in
    Ok (print ("[ok] Patients JSON written to " ++ patients_json a) fx).

(** How a run of the program ends. *)
Inductive outcome : Type :=
| Done (fx : effects)
| UsageError
| Uncaught (e : py_exn).

(** The program: seed the generator with 42, parse, run. *)
Definition program (G : RandomGen) (today : string) (c : CommandLine) : outcome :=
  let s := rng_seed G 42 in
  match parse_args today c with
  | None => UsageError
  | Some a =>
      match main G a s with
      | Ok fx => Done fx
      | Raise e => Uncaught e
      end
  end.

(** The CSV file of a finished run. *)
Definition csv_of (o : outcome) : option string :=
  match o with
  | Done fx =>
      match written fx with
      | (_, Text s) :: _ => Some s
      | _ => None
      end
  | _ => None
  end.

(** ** Reading the rows back *)

Definition nik_of (r : row) : string := nth 1 r "".
Definition name_of (r : row) : string := nth 2 r "".
Definition phone_of (r : row) : string := nth 3 r "".

Definition in_pool (pool : list string) (s : string) : bool :=
  existsb (String.eqb s) pool.

(** Number of rows whose phone is one of [VALID_PHONES]. *)
Definition count_valid_phones (data : list row) : Z :=
  Z.of_nat (List.length (filter (fun r => in_pool VALID_PHONES (phone_of r)) data)).

(** The constant that a row of index [i] adds its index to. *)
Definition nik_base (m : string) (target i : Z) : Z :=
  if String.eqb m "invalid" then 9000000000000000
  else if String.eqb m "mixed" then
    if (i <? target)%Z then 3200000000000000 else 9000000000000000
  else if String.eqb m "uniform" then 3100000000000000
  else 3300000000000000.

(** The data row of index [i] in the three modes that draw nothing at
    random. *)
Definition row_at (a : Namespace) (target i : Z) : row :=
  if String.eqb (mode a) "invalid" then invalid_row a i
  else if String.eqb (mode a) "mixed" then
    if (i <? target)%Z then valid_shaped_row a i else invalid_row a i
  else uniform_row a i.

Definition deterministic_mode (m : string) : bool :=
  String.eqb m "invalid" || String.eqb m "mixed" || String.eqb m "uniform".

(** The loop of [build_rows] stopped after [n] turns. *)
Definition loop_upto (G : RandomGen) (a : Namespace) (target : Z)
           (s : rng_state G) (n : nat) : loop_state G :=
  fold_left (build_rows_body G a target) (map Z.of_nat (seq 0 n))
            {| rows := [header]; valid_count := 0; rng := s |}.

Definition header_line : string :=
  "last_updated_date,nik_identifier,name,phone_number
".

(** A command line that names the mode and the record count and nothing
    else. *)
Definition command_line (m : string) (n : Z) : CommandLine :=
  {| opt_output := None;
     opt_records := Some n;
     opt_mode := Some m;
     opt_valid_ratio := None;
     opt_patients_json := None;
     opt_date := None |}.

(** [d.get(k)] on a JSON object. *)
Fixpoint lookup (k : string) (kv : list (string * json)) : option json :=
  match kv with
  | [] => None
  | (k', v) :: rest => if String.eqb k k' then Some v else lookup k rest
  end.

Definition jget (k : string) (j : json) : option json :=
  match j with
  | JDict kv => lookup k kv
  | _ => None
  end.

(** The arguments of a run in a given mode with everything else fixed. *)
Definition sample_args (m : string) (n : Z) (ratio : PyFloat.float) : Namespace :=
  {| output := "outputs/samples/generated-whatsapp.csv";
     records := n;
     mode := m;
     valid_ratio := ratio;
     patients_json := "";
     date := "22-08-2025" |}.

(** The same, with [--date]. *)
Definition dated_command_line (m : string) (n : Z) (d : string) : CommandLine :=
  {| opt_output := None;
     opt_records := Some n;
     opt_mode := Some m;
     opt_valid_ratio := None;
     opt_patients_json := None;
     opt_date := Some d |}.

(** A command line that also gives [--valid-ratio]. *)
Definition ratio_command_line (m : string) (n : Z) (ratio : PyFloat.float)
  : CommandLine :=
  {| opt_output := None;
     opt_records := Some n;
     opt_mode := Some m;
     opt_valid_ratio := Some ratio;
     opt_patients_json := None;
     opt_date := None |}.

(** Powers of two with a symbolic exponent are opaque to [lia]: name them
    first. *)
Ltac name_pows :=
  repeat match goal with
         | |- context [2 ^ ?e] =>
             let p := fresh "p" in
             set (p := 2 ^ e) in *; clearbody p
         | H : context [2 ^ ?e] |- _ =>
             let p := fresh "p" in
             set (p := 2 ^ e) in *; clearbody p
         end.

(** ** Reading the files back *)

(** The content of a path after a run: the last write to it wins, since every
    write opens its file afresh. *)
Definition read_file (path : string) (fx : effects) : option file_content :=
  fold_left (fun found w => if String.eqb (fst w) path then Some (snd w) else found)
            (written fx) None.

Definition comma : ascii := ","%char.
Definition newline : ascii := "010"%char.

Fixpoint has_char (c : ascii) (s : string) : bool :=
  match s with
  | "" => false
  | String c' s' => Ascii.eqb c' c || has_char c s'
  end.

(** A field that holds neither a comma nor a line break. *)
Definition clean (s : string) : bool :=
  negb (has_char comma s) && negb (has_char newline s).

(** [s.split(sep)] for a separator of one character. *)
Fixpoint split (sep : ascii) (s : string) : list string :=
  match s with
  | "" => [""]
  | String c s' =>
      if Ascii.eqb c sep then "" :: split sep s'
      else match split sep s' with
           | [] => [String c ""]
           | x :: xs => String c x :: xs
           end
  end.

(** A reader for the text that [write_csv] writes: the lines that a line
    break ends, each cut at its commas. *)
Definition lines (text : string) : list string := removelast (split newline text).

Definition parse_csv (text : string) : list row := map (split comma) (lines text).

(** A row that the reader gives back as it was written. *)
Definition clean_row (r : row) : Prop := r <> [] /\ forallb clean r = true.

(** ** Reading the patient bundle back *)

(** [bundle["patients_before_phone_update"]] *)
Definition bundle_patients (b : json) : list json :=
  match jget "patients_before_phone_update" b with
  | Some (JList l) => l
  | _ => []
  end.

(** [entry["resource"]["id"]] *)
Definition patient_id (e : json) : option string :=
  match jget "resource" e with
  | Some r =>
      match jget "id" r with
      | Some (JStr s) => Some s
      | _ => None
      end
  | None => None
  end.

(** [entry["resource"]["identifier"][0]["value"]] *)
Definition patient_nik (e : json) : option string :=
  match jget "resource" e with
  | Some r =>
      match jget "identifier" r with
      | Some (JList (d :: _)) =>
          match jget "value" d with
          | Some (JStr s) => Some s
          | _ => None
          end
      | _ => None
      end
  | None => None
  end.

(** [entry["resource"]["name"][0]["family"]] *)
Definition patient_family (e : json) : option string :=
  match jget "resource" e with
  | Some r =>
      match jget "name" r with
      | Some (JList (d :: _)) =>
          match jget "family" d with
          | Some (JStr s) => Some s
          | _ => None
          end
      | _ => None
      end
  | None => None
  end.

(** The two draws of one row of valid mode: the phone first, then the name. *)
Definition draw_row (G : RandomGen) (s : rng_state G) : rng_state G :=
  snd (choice G (snd (choice G s VALID_PHONES)) VALID_NAMES).

(** The same arguments under another [--mode]. *)
Definition with_mode (m : string) (a : Namespace) : Namespace :=
  {| output := output a;
     records := records a;
     mode := m;
     valid_ratio := valid_ratio a;
     patients_json := patients_json a;
     date := date a |}.

(** Arguments of a run that also writes the patient bundle. *)
Definition sample_args_json (m : string) (n : Z) (out pj : string) : Namespace :=
  {| output := out;
     records := n;
     mode := m;
     valid_ratio := PyFloat.f_half;
     patients_json := pj;
     date := "22-08-2025" |}.

(** * Proofs *)

(** ** Ranges and the loop *)

Lemma range_length (n : Z) : List.length (range n) = Z.to_nat n.
Proof. unfold range. now rewrite length_map, length_seq. Qed.

Lemma range_nonpos (n : Z) : (n <= 0)%Z -> range n = [].
Proof.
  intros Hn. unfold range.
  replace (Z.to_nat n) with 0%nat by lia. reflexivity.
Qed.

Lemma indices_succ (n : nat) :
  map Z.of_nat (seq 0 (S n)) = (map Z.of_nat (seq 0 n) ++ [Z.of_nat n])%list.
Proof. rewrite seq_S, map_app. reflexivity. Qed.

Lemma indices_nth_error (A : Type) (f : Z -> A) (n k : nat) :
  (k < n)%nat ->
  nth_error (map f (map Z.of_nat (seq 0 n))) k = Some (f (Z.of_nat k)).
Proof.
  intros Hk. rewrite map_map.
  rewrite nth_error_map, nth_error_seq.
  destruct (Nat.ltb_spec k n) as [_ | Hge]; [reflexivity | lia].
Qed.

Section Loop.

Variable G : RandomGen.
Variable a : Namespace.
Variable target : Z.
Variable s : rng_state G.

Lemma loop_upto_succ (n : nat) :
  loop_upto G a target s (S n) =
  build_rows_body G a target (loop_upto G a target s n) (Z.of_nat n).
Proof.
  unfold loop_upto. rewrite indices_succ, fold_left_app. reflexivity.
Qed.

Lemma build_rows_loop_upto :
  build_rows_loop G a target s = loop_upto G a target s (Z.to_nat (records a)).
Proof. reflexivity. Qed.

(** Every turn appends exactly one row. *)
Lemma body_rows (st : loop_state G) (i : Z) :
  exists r, rows (build_rows_body G a target st i) = (rows st ++ [r])%list.
Proof.
  unfold build_rows_body.
  destruct (String.eqb (mode a) "invalid"); [eexists; reflexivity |].
  destruct (String.eqb (mode a) "mixed").
  { destruct (valid_count st <? target)%Z; eexists; reflexivity. }
  destruct (String.eqb (mode a) "uniform"); [eexists; reflexivity |].
  destruct (choice G (rng st) VALID_PHONES) as [phone s1].
  destruct (choice G s1 VALID_NAMES) as [name s2].
  eexists; reflexivity.
Qed.

Lemma loop_rows_shape (n : nat) :
  exists data,
    rows (loop_upto G a target s n) = header :: data /\ List.length data = n.
Proof.
  induction n as [| n [data [Hrows Hlen]]].
  - exists []. split; reflexivity.
  - rewrite loop_upto_succ.
    destruct (body_rows (loop_upto G a target s n) (Z.of_nat n)) as [r Hr].
    exists (data ++ [r])%list. rewrite Hr, Hrows. split; [reflexivity |].
    rewrite length_app. cbn. lia.
Qed.

(** In mixed mode the counter is the number of turns so far, capped by the
    target; the other modes leave it at zero. *)
Lemma loop_valid_count (n : nat) :
  valid_count (loop_upto G a target s n) =
  if String.eqb (mode a) "invalid" then 0
  else if String.eqb (mode a) "mixed"
       then Z.min (Z.of_nat n) (Z.max 0 target)
       else 0.
Proof.
  induction n as [| n IH].
  - cbn. destruct (String.eqb (mode a) "invalid"); [reflexivity |].
    destruct (String.eqb (mode a) "mixed"); [lia | reflexivity].
  - rewrite loop_upto_succ. unfold build_rows_body.
    destruct (String.eqb (mode a) "invalid"); [exact IH |].
    destruct (String.eqb (mode a) "mixed").
    + rewrite IH.
      destruct (Z.ltb_spec (Z.min (Z.of_nat n) (Z.max 0 target)) target);
        cbn [valid_count]; try rewrite IH; lia.
    + destruct (String.eqb (mode a) "uniform"); [exact IH |].
      destruct (choice G (rng (loop_upto G a target s n)) VALID_PHONES) as [phone s1].
      destruct (choice G s1 VALID_NAMES) as [name s2].
      exact IH.
Qed.

(** The three modes without random draws: a closed form of the rows, and the
    generator is left alone. *)
Lemma loop_deterministic (n : nat) :
  deterministic_mode (mode a) = true ->
  rows (loop_upto G a target s n) =
    header :: map (row_at a target) (map Z.of_nat (seq 0 n)) /\
  rng (loop_upto G a target s n) = s.
Proof.
  intros Hm. induction n as [| n [IHr IHs]].
  - split; reflexivity.
  - rewrite loop_upto_succ, indices_succ, map_app.
    pose proof (loop_valid_count n) as Hc.
    unfold build_rows_body, row_at, deterministic_mode in *.
    destruct (String.eqb (mode a) "invalid").
    { cbn [rows rng]. rewrite IHr. split; [reflexivity | exact IHs]. }
    destruct (String.eqb (mode a) "mixed").
    { rewrite Hc. cbn [map].
      destruct (Z.ltb_spec (Z.min (Z.of_nat n) (Z.max 0 target)) target);
        destruct (Z.ltb_spec (Z.of_nat n) target); try lia;
        cbn [rows rng]; rewrite IHr; (split; [reflexivity | exact IHs]). }
    destruct (String.eqb (mode a) "uniform"); [| discriminate].
    cbn [rows rng]. rewrite IHr. split; [reflexivity | exact IHs].
Qed.

(** Valid mode: each row carries its own NIK and two drawn fields. *)
Lemma loop_valid_mode (n : nat) :
  deterministic_mode (mode a) = false ->
  forall k, (k < n)%nat ->
    exists name phone,
      nth_error (rows (loop_upto G a target s n)) (S k) =
        Some [date a; make_nik 3300000000000000 (Z.of_nat k); name; phone] /\
      In phone VALID_PHONES /\ In name VALID_NAMES.
Proof.
  intros Hm. unfold deterministic_mode in Hm.
  apply orb_false_iff in Hm as [Hm Hu].
  apply orb_false_iff in Hm as [Hi Hx].
  induction n as [| n IH]; intros k Hk; [lia |].
  rewrite loop_upto_succ.
  destruct (loop_rows_shape n) as [data [Hrows Hlen]].
  unfold build_rows_body. rewrite Hi, Hx, Hu.
  unfold choice.
  pose proof (rng_randbelow_lt G (rng (loop_upto G a target s n))
                (List.length VALID_PHONES)) as Hp.
  destruct (rng_randbelow G (rng (loop_upto G a target s n))
              (List.length VALID_PHONES)) as [kp s1].
  pose proof (rng_randbelow_lt G s1 (List.length VALID_NAMES)) as Hn.
  destruct (rng_randbelow G s1 (List.length VALID_NAMES)) as [kn s2].
  cbn [rows fst] in *.
  destruct (Nat.eq_dec k n) as [-> | Hne].
  - exists (nth kn VALID_NAMES ""), (nth kp VALID_PHONES "").
    split; [| split].
    + rewrite Hrows. cbn [app nth_error].
      rewrite nth_error_app2 by lia.
      replace (n - List.length data)%nat with 0%nat by lia. reflexivity.
    + apply nth_In. apply Hp. cbn. lia.
    + apply nth_In. apply Hn. cbn. lia.
  - destruct (IH k ltac:(lia)) as [name [phone [Hnth Hin]]].
    exists name, phone. split; [| exact Hin].
    rewrite nth_error_app1; [exact Hnth |].
    rewrite Hrows. cbn. lia.
Qed.

End Loop.

(** ** [build_rows] as a whole *)

Section BuildRowsFacts.

Variable G : RandomGen.
Variable a : Namespace.
Variable s : rng_state G.

Lemma build_rows_ok (target : Z) :
  valid_target (records a) (valid_ratio a) = Ok target ->
  build_rows G a s =
    Ok (rows (loop_upto G a target s (Z.to_nat (records a))),
        rng (loop_upto G a target s (Z.to_nat (records a)))).
Proof. intros Ht. unfold build_rows. rewrite Ht. reflexivity. Qed.

Lemma build_rows_raise (e : py_exn) :
  valid_target (records a) (valid_ratio a) = Raise e ->
  build_rows G a s = Raise e.
Proof. intros Ht. unfold build_rows. rewrite Ht. reflexivity. Qed.

(** The call fails exactly when the target cannot be computed. *)
Lemma build_rows_defined :
  (exists r, build_rows G a s = Ok r) <->
  (exists target, valid_target (records a) (valid_ratio a) = Ok target).
Proof.
  unfold build_rows.
  destruct (valid_target (records a) (valid_ratio a)) as [t | e]; cbn.
  - split; intros _; eexists; reflexivity.
  - split; intros [x Hx]; discriminate.
Qed.

Lemma build_rows_deterministic (target : Z) :
  deterministic_mode (mode a) = true ->
  valid_target (records a) (valid_ratio a) = Ok target ->
  build_rows G a s =
    Ok (header :: map (row_at a target) (range (records a)), s).
Proof.
  intros Hm Ht. rewrite (build_rows_ok target Ht).
  destruct (loop_deterministic G a target s (Z.to_nat (records a)) Hm) as [-> ->].
  reflexivity.
Qed.

Lemma range_nth_error (A : Type) (f : Z -> A) (n i : Z) :
  (0 <= i < n)%Z -> nth_error (map f (range n)) (Z.to_nat i) = Some (f i).
Proof.
  intros Hi. unfold range. rewrite indices_nth_error by lia.
  now rewrite Z2Nat.id by lia.
Qed.

End BuildRowsFacts.

(** ** Row count *)

(** C1.  In every mode, once the target of line 74 has been computed,
    [build_rows] returns the header row followed by one data row per index of
    [range(records)]: as many data rows as the configured record count when
    that count is not negative, and none otherwise. *)
Theorem build_rows_row_count (G : RandomGen) (a : Namespace) (s : rng_state G)
        (target : Z) :
  valid_target (records a) (valid_ratio a) = Ok target ->
  exists data s',
    build_rows G a s = Ok (header :: data, s') /\
    List.length data = Z.to_nat (records a) /\
    ((0 <= records a)%Z -> Z.of_nat (List.length data) = records a).
Proof.
  intros Ht. rewrite (build_rows_ok G a s target Ht).
  destruct (loop_rows_shape G a target s (Z.to_nat (records a)))
    as [data [Hrows Hlen]].
  exists data, (rng (loop_upto G a target s (Z.to_nat (records a)))).
  rewrite Hrows. repeat split; [exact Hlen | lia].
Qed.

Lemma build_rows_row_count_witness :
  exists data s',
    build_rows lcg_gen (sample_args "valid" 5 PyFloat.f_half) 42%Z
      = Ok (header :: data, s') /\
    List.length data = 5%nat /\
    ((0 <= 5)%Z -> Z.of_nat (List.length data) = 5%Z).
Proof.
  apply (build_rows_row_count lcg_gen (sample_args "valid" 5 PyFloat.f_half)
           42%Z 2%Z).
  vm_compute. reflexivity.
Defined.

(** C1, as stated, fails outside the counts from zero up to the doubles: a
    record count of [-5] gives the header and no data row, not [-5] of them,
    and a record count of [2^1024] gives no rows at all, since line 74 raises
    [OverflowError]. *)
Lemma negative_records_no_data_rows :
  (exists data,
     build_rows lcg_gen (sample_args "uniform" (-5) PyFloat.f_half) 42%Z
       = Ok (header :: data, 42%Z) /\
     data = [] /\
     Z.of_nat (List.length data) <> (-5)%Z) /\
  build_rows lcg_gen (sample_args "uniform" (2 ^ 1024) PyFloat.f_half) 42%Z
    = Raise OverflowError.
Proof.
  split.
  - exists []. split; [vm_compute; reflexivity |].
    split; [reflexivity | discriminate].
  - vm_compute. reflexivity.
Qed.

(** ** Decimal strings *)

Module PyStrFacts.

Import PyStr.
Local Open Scope string_scope.

Lemma length_append (s1 s2 : string) :
  String.length (s1 ++ s2) = (String.length s1 + String.length s2)%nat.
Proof. induction s1 as [| c s1 IH]; cbn; [reflexivity | now rewrite IH]. Qed.

Lemma zeros_length (n : nat) : String.length (zeros n) = n.
Proof. induction n as [| n IH]; cbn; [reflexivity | now rewrite IH]. Qed.

Lemma zfill_length (w : nat) (s : string) :
  String.length (zfill w s) = Nat.max w (String.length s).
Proof. unfold zfill. rewrite length_append, zeros_length. lia. Qed.

Lemma digit_char_code (d : Z) :
  (0 <= d < 10)%Z -> nat_of_ascii (digit_char d) = (48 + Z.to_nat d)%nat.
Proof.
  intros Hd. unfold digit_char. apply nat_ascii_embedding. lia.
Qed.

Lemma digit_char_is_digit (d : Z) :
  (0 <= d < 10)%Z -> is_digit (digit_char d) = true.
Proof.
  intros Hd. unfold is_digit. rewrite digit_char_code by exact Hd.
  apply andb_true_intro. split; apply Nat.leb_le; lia.
Qed.

Lemma digit_char_value (d : Z) :
  (0 <= d < 10)%Z -> (Z.of_nat (nat_of_ascii (digit_char d)) - 48 = d)%Z.
Proof. intros Hd. rewrite digit_char_code by exact Hd. lia. Qed.

Lemma mod10_digit (n : Z) : (0 <= n mod 10 < 10)%Z.
Proof. apply Z.mod_pos_bound. lia. Qed.

Lemma digits_aux_length_ge (fuel : nat) (n : Z) (acc : string) :
  (String.length acc <= String.length (digits_aux fuel n acc))%nat.
Proof.
  revert n acc.
  induction fuel as [| fuel IH]; intros n acc; cbn [digits_aux]; [lia |].
  destruct (n / 10 =? 0)%Z; [cbn [String.length]; lia |].
  etransitivity; [| apply IH]. cbn [String.length]. lia.
Qed.

Lemma digits_aux_length_le (fuel : nat) (n : Z) (acc : string) (k : nat) :
  (1 <= k)%nat -> (0 <= n < 10 ^ Z.of_nat k)%Z ->
  (String.length (digits_aux fuel n acc) <= k + String.length acc)%nat.
Proof.
  revert n acc k.
  induction fuel as [| fuel IH]; intros n acc k Hk Hn; cbn [digits_aux]; [lia |].
  destruct (Z.eqb_spec (n / 10) 0) as [Hq | Hq]; [cbn [String.length]; lia |].
  destruct k as [| [| k]]; [lia | |].
  - exfalso. apply Hq. apply Z.div_small. cbn in Hn. lia.
  - specialize (IH (n / 10)%Z (String (digit_char (n mod 10)) acc) (S k)).
    cbn [String.length] in IH.
    assert (0 <= n / 10 < 10 ^ Z.of_nat (S k))%Z as Hdiv.
    { split; [apply Z.div_pos; lia |].
      apply Z.div_lt_upper_bound; [lia |].
      replace (Z.of_nat (S (S k))) with (Z.succ (Z.of_nat (S k))) in Hn by lia.
      rewrite Z.pow_succ_r in Hn by lia. lia. }
    specialize (IH ltac:(lia) Hdiv). lia.
Qed.

Lemma digits_aux_all_digits (fuel : nat) (n : Z) (acc : string) :
  all_digits (digits_aux fuel n acc) = all_digits acc.
Proof.
  revert n acc.
  induction fuel as [| fuel IH]; intros n acc; cbn [digits_aux]; [reflexivity |].
  destruct (n / 10 =? 0)%Z.
  - cbn [all_digits]. now rewrite digit_char_is_digit by apply mod10_digit.
  - rewrite IH. cbn [all_digits].
    now rewrite digit_char_is_digit by apply mod10_digit.
Qed.

(** With enough fuel the digits read back as the number they were made
    from. *)
Lemma digits_aux_parse (fuel : nat) (n : Z) (acc : string) :
  (0 <= n < 2 ^ Z.of_nat fuel)%Z ->
  parse_acc (digits_aux fuel n acc) 0 = parse_acc acc n.
Proof.
  revert n acc. induction fuel as [| fuel IH]; intros n acc Hn.
  - cbn in *. replace n with 0%Z by lia. reflexivity.
  - cbn [digits_aux].
    pose proof (Z.div_mod n 10 ltac:(lia)) as Hdm.
    destruct (Z.eqb_spec (n / 10) 0) as [Hq | Hq].
    + cbn [parse_acc]. rewrite digit_char_value by apply mod10_digit.
      f_equal. lia.
    + rewrite IH.
      * cbn [parse_acc]. rewrite digit_char_value by apply mod10_digit.
        f_equal. lia.
      * split; [apply Z.div_pos; lia |].
        apply Z.div_lt_upper_bound; [lia |].
        replace (Z.of_nat (S fuel)) with (Z.succ (Z.of_nat fuel)) in Hn by lia.
        rewrite Z.pow_succ_r in Hn by lia. lia.
Qed.

Lemma str_nonneg_fuel (n : Z) :
  (0 <= n)%Z -> (n < 2 ^ Z.of_nat (S (Z.to_nat (Z.log2 n))))%Z.
Proof.
  intros Hn.
  replace (Z.of_nat (S (Z.to_nat (Z.log2 n)))) with (Z.succ (Z.log2 n))
    by (pose proof (Z.log2_nonneg n); lia).
  destruct (Z.eq_dec n 0) as [-> | Hne]; [cbn; lia |].
  apply Z.log2_spec. lia.
Qed.

Lemma parse_str_nonneg (n : Z) : (0 <= n)%Z -> parse (str_nonneg n) = n.
Proof.
  intros Hn. unfold parse, str_nonneg.
  rewrite digits_aux_parse; [reflexivity |].
  split; [exact Hn | now apply str_nonneg_fuel].
Qed.

Lemma str_nonneg_all_digits (n : Z) : all_digits (str_nonneg n) = true.
Proof. unfold str_nonneg. now rewrite digits_aux_all_digits. Qed.

Lemma str_nonneg_length_pos (n : Z) : (1 <= String.length (str_nonneg n))%nat.
Proof.
  unfold str_nonneg. cbn [digits_aux].
  destruct (n / 10 =? 0)%Z; [cbn [String.length]; lia |].
  etransitivity; [| apply digits_aux_length_ge]. cbn [String.length]. lia.
Qed.

Lemma str_nonneg_length_le (n : Z) (k : nat) :
  (1 <= k)%nat -> (0 <= n < 10 ^ Z.of_nat k)%Z ->
  (String.length (str_nonneg n) <= k)%nat.
Proof.
  intros Hk Hn. unfold str_nonneg.
  pose proof (digits_aux_length_le (S (Z.to_nat (Z.log2 n))) n "" k Hk Hn) as H.
  cbn [String.length] in H. lia.
Qed.

Lemma parse_acc_zeros (n : nat) (s : string) :
  parse_acc (zeros n ++ s) 0 = parse_acc s 0.
Proof. induction n as [| n IH]; cbn; [reflexivity | exact IH]. Qed.

Lemma all_digits_zeros (n : nat) (s : string) :
  all_digits (zeros n ++ s) = all_digits s.
Proof. induction n as [| n IH]; cbn; [reflexivity | exact IH]. Qed.

Lemma parse_zfill (w : nat) (n : Z) :
  (0 <= n)%Z -> parse (zfill w (str_nonneg n)) = n.
Proof.
  intros Hn. unfold parse, zfill. rewrite parse_acc_zeros.
  now apply parse_str_nonneg.
Qed.

Lemma zfill_all_digits (w : nat) (n : Z) :
  all_digits (zfill w (str_nonneg n)) = true.
Proof. unfold zfill. rewrite all_digits_zeros. apply str_nonneg_all_digits. Qed.

(** The format of a number below [10^16]: sixteen digits that read back as
    the number. *)
Lemma format_016d_small (z : Z) :
  (0 <= z < 10 ^ 16)%Z ->
  String.length (format_016d z) = 16%nat /\
  all_digits (format_016d z) = true /\
  parse (format_016d z) = z.
Proof.
  intros Hz. unfold format_016d.
  destruct (Z.ltb_spec z 0) as [Hneg | _]; [lia |].
  split; [| split].
  - rewrite zfill_length.
    pose proof (str_nonneg_length_le z 16 ltac:(lia) Hz). lia.
  - apply zfill_all_digits.
  - apply parse_zfill. lia.
Qed.

Lemma format_016d_length (z : Z) : (16 <= String.length (format_016d z))%nat.
Proof.
  unfold format_016d. destruct (z <? 0)%Z.
  - cbn [append String.length]. rewrite zfill_length. lia.
  - rewrite zfill_length. lia.
Qed.

Lemma format_016d_nonempty (z : Z) : format_016d z <> "".
Proof.
  intros H. pose proof (format_016d_length z) as Hl.
  rewrite H in Hl. cbn in Hl. lia.
Qed.

Lemma format_016d_parse (z : Z) : (0 <= z)%Z -> parse (format_016d z) = z.
Proof.
  intros Hz. unfold format_016d.
  destruct (Z.ltb_spec z 0) as [Hneg | _]; [lia |].
  now apply parse_zfill.
Qed.

(** Different numbers never share a format. *)
Lemma format_016d_inj (x y : Z) : format_016d x = format_016d y -> x = y.
Proof.
  unfold format_016d.
  destruct (Z.ltb_spec x 0) as [Hx | Hx], (Z.ltb_spec y 0) as [Hy | Hy];
    intros H.
  - cbn [append] in H. injection H as H.
    apply (f_equal parse) in H.
    rewrite !parse_zfill in H by lia. lia.
  - apply (f_equal all_digits) in H.
    rewrite zfill_all_digits in H. cbn in H. discriminate.
  - apply (f_equal all_digits) in H.
    rewrite zfill_all_digits in H. cbn in H. discriminate.
  - apply (f_equal parse) in H.
    rewrite !parse_zfill in H by lia. exact H.
Qed.

End PyStrFacts.

Lemma make_nik_inj (base i j : Z) : make_nik base i = make_nik base j -> i = j.
Proof.
  unfold make_nik. intros H. apply PyStrFacts.format_016d_inj in H. lia.
Qed.

Lemma make_nik_nonempty (base i : Z) : make_nik base i <> "".
Proof. apply PyStrFacts.format_016d_nonempty. Qed.

(** ** Invalid mode *)

Lemma row_at_invalid (a : Namespace) (target i : Z) :
  mode a = "invalid" -> row_at a target i = invalid_row a i.
Proof. intros Hm. unfold row_at. rewrite Hm. reflexivity. Qed.

Lemma invalid_row_fields (a : Namespace) (i : Z) :
  phone_of (invalid_row a i) = nth (Z.to_nat (i mod 6)) INVALID_PHONES "" /\
  name_of (invalid_row a i) = nth (Z.to_nat (i mod 4)) INVALID_NAMES "" /\
  (nik_of (invalid_row a i) = "" <-> phone_of (invalid_row a i) = "") /\
  (phone_of (invalid_row a i) <> "" ->
   nik_of (invalid_row a i) = make_nik 9000000000000000 i).
Proof.
  unfold invalid_row, phone_of, name_of, nik_of. cbn [nth].
  split; [reflexivity | split; [reflexivity |]].
  destruct (String.eqb_spec (cyclic INVALID_PHONES i) "") as [He | Hne].
  - split; [tauto | intros H; contradiction].
  - split; [| reflexivity].
    split; intros H; [| contradiction].
    exfalso. exact (make_nik_nonempty _ _ H).
Qed.



(** ** Uniform mode *)

Lemma row_at_uniform (a : Namespace) (target i : Z) :
  mode a = "uniform" -> row_at a target i = uniform_row a i.
Proof. intros Hm. unfold row_at. rewrite Hm. reflexivity. Qed.

(** C5.  In uniform mode the data row of index [i] has the phone
    [UNIFORM_PHONES[i % 5]] and the name [PATIENT_<i+1>]; the command line
    [--mode uniform --records 5] gives the five phones of the pool in order
    and the names [PATIENT_1] to [PATIENT_5]. *)
Theorem uniform_mode_rows (G : RandomGen) (s : rng_state G) (a : Namespace)
        (target : Z) :
  mode a = "uniform" ->
  valid_target (records a) (valid_ratio a) = Ok target ->
  (exists data,
     build_rows G a s = Ok (header :: data, s) /\
     forall i, (0 <= i < records a)%Z ->
       exists r,
         nth_error data (Z.to_nat i) = Some r /\
         phone_of r = nth (Z.to_nat (i mod 5)) UNIFORM_PHONES "" /\
         name_of r = "PATIENT_" ++ PyStr.str (i + 1)) /\
  (forall today,
     exists a5 data5,
       parse_args today (command_line "uniform" 5) = Some a5 /\
       build_rows G a5 s = Ok (header :: data5, s) /\
       map phone_of data5 =
         ["081234567890"; "6285678901234"; "082345678901"; "0834-5678-9012";
          "85678901234"] /\
       map name_of data5 =
         ["PATIENT_1"; "PATIENT_2"; "PATIENT_3"; "PATIENT_4"; "PATIENT_5"]).
Proof.
  intros Hm Ht. split.
  - exists (map (row_at a target) (range (records a))). split.
    + apply build_rows_deterministic; [| exact Ht].
      unfold deterministic_mode. rewrite Hm. reflexivity.
    + intros i Hi. exists (uniform_row a i). split; [| split].
      * rewrite range_nth_error by exact Hi. f_equal. now apply row_at_uniform.
      * reflexivity.
      * reflexivity.
  - intros today. eexists. eexists.
    split; [reflexivity |].
    split; [vm_compute; reflexivity |].
    split; reflexivity.
Qed.

Lemma uniform_mode_rows_witness :
  (exists data,
     build_rows lcg_gen (sample_args "uniform" 12 PyFloat.f_half) 42%Z
       = Ok (header :: data, 42%Z) /\
     forall i, (0 <= i < 12)%Z ->
       exists r,
         nth_error data (Z.to_nat i) = Some r /\
         phone_of r = nth (Z.to_nat (i mod 5)) UNIFORM_PHONES "" /\
         name_of r = "PATIENT_" ++ PyStr.str (i + 1)) /\
  (forall today,
     exists a5 data5,
       parse_args today (command_line "uniform" 5) = Some a5 /\
       build_rows lcg_gen a5 42%Z = Ok (header :: data5, 42%Z) /\
       map phone_of data5 =
         ["081234567890"; "6285678901234"; "082345678901"; "0834-5678-9012";
          "85678901234"] /\
       map name_of data5 =
         ["PATIENT_1"; "PATIENT_2"; "PATIENT_3"; "PATIENT_4"; "PATIENT_5"]).
Proof.
  apply (uniform_mode_rows lcg_gen 42%Z
           (sample_args "uniform" 12 PyFloat.f_half) 6%Z).
  - reflexivity.
  - vm_compute. reflexivity.
Defined.

(** ** The patient bundle *)

Lemma bundle_fold (n : nat) :
  fold_left (fun l i => (l ++ [patient_entry i])%list)
            (map Z.of_nat (seq 0 n)) [] =
  map patient_entry (map Z.of_nat (seq 0 n)).
Proof.
  induction n as [| n IH]; [reflexivity |].
  rewrite indices_succ, fold_left_app, IH, map_app. reflexivity.
Qed.

Lemma patients_bundle_entries (n : Z) :
  patients_bundle n =
    JDict [("patients_before_phone_update", JList (map patient_entry (range n)))].
Proof. unfold patients_bundle, range. now rewrite bundle_fold. Qed.



(** ** The CSV text *)

Lemma append_assoc (x y z : string) : (x ++ y) ++ z = x ++ (y ++ z).
Proof. induction x as [| c x IH]; cbn; [reflexivity | now rewrite IH]. Qed.

Lemma csv_text_from (rs : list row) (acc : string) :
  fold_left (fun acc r => acc ++ csv_line r) rs acc = acc ++ csv_text rs.
Proof.
  unfold csv_text. revert acc.
  induction rs as [| r rs IH]; intros acc; cbn [fold_left].
  - induction acc as [| c acc IHa]; cbn; [reflexivity | now rewrite <- IHa].
  - rewrite IH, (IH ("" ++ csv_line r)). cbn [append]. apply append_assoc.
Qed.

Lemma csv_text_cons (r : row) (rs : list row) :
  csv_text (r :: rs) = csv_line r ++ csv_text rs.
Proof. unfold csv_text at 1. cbn [fold_left]. apply csv_text_from. Qed.

(** ** Whole runs *)

Lemma main_csv (G : RandomGen) (a : Namespace) (s s' : rng_state G)
      (rws : list row) :
  build_rows G a s = Ok (rws, s') ->
  exists fx,
    main G a s = Ok fx /\
    hd_error (written fx) = Some (output a, Text (csv_text rws)).
Proof.
  intros Hb. unfold main. rewrite Hb. cbn [bind fst].
  destruct (String.eqb (patients_json a) ""); eexists; split; reflexivity.
Qed.

Lemma program_csv (G : RandomGen) (today : string) (c : CommandLine)
      (a : Namespace) (s' : rng_state G) (rws : list row) :
  parse_args today c = Some a ->
  build_rows G a (rng_seed G 42) = Ok (rws, s') ->
  exists fx,
    program G today c = Done fx /\
    hd_error (written fx) = Some (output a, Text (csv_text rws)) /\
    csv_of (program G today c) = Some (csv_text rws).
Proof.
  intros Hp Hb. destruct (main_csv G a _ _ rws Hb) as [fx [Hm Hw]].
  exists fx. unfold program. rewrite Hp, Hm. repeat split; [exact Hw |].
  unfold csv_of. destruct (written fx) as [| [p' t] rest]; [discriminate |].
  cbn in Hw. injection Hw as -> ->. reflexivity.
Qed.

Lemma program_raise (G : RandomGen) (today : string) (c : CommandLine)
      (a : Namespace) (e : py_exn) :
  parse_args today c = Some a ->
  build_rows G a (rng_seed G 42) = Raise e ->
  program G today c = Uncaught e.
Proof.
  intros Hp Hb. unfold program, main. rewrite Hp, Hb. reflexivity.
Qed.

(** The date column comes from the clock unless [--date] is given. *)
Lemma parse_args_clock (today1 today2 : string) (c : CommandLine) :
  opt_date c <> None \/ today1 = today2 ->
  parse_args today1 c = parse_args today2 c.
Proof.
  intros [Hd | ->]; [| reflexivity].
  unfold parse_args. destruct (opt_date c); [reflexivity | contradiction].
Qed.

(** C3, as amended.  With mode [valid], [records = 5] and the generator
    seeded with 42 at startup, two runs with the same command line give the
    same CSV text, byte for byte, provided the date column is the same in
    both: [--date] is on the command line, or the two runs read the same UTC
    date from the clock.  With the default ratio the CSV is written in
    both. *)
Theorem valid_mode_reproducible (G : RandomGen) (today1 today2 : string)
        (c : CommandLine) :
  opt_mode c = Some "valid" ->
  opt_records c = Some 5%Z ->
  opt_date c <> None \/ today1 = today2 ->
  program G today1 c = program G today2 c /\
  csv_of (program G today1 c) = csv_of (program G today2 c) /\
  (opt_valid_ratio c = None -> exists text, csv_of (program G today1 c) = Some text).
Proof.
  intros Hm Hr Hd.
  assert (program G today1 c = program G today2 c) as Heq.
  { unfold program. now rewrite (parse_args_clock today1 today2 c Hd). }
  split; [exact Heq | split; [now rewrite Heq |]].
  intros Hv.
  destruct (parse_args today1 c) as [a |] eqn:Hp.
  - assert (valid_target (records a) (valid_ratio a) = Ok 2%Z) as Ht.
    { unfold parse_args in Hp. rewrite Hm, Hr, Hv in Hp. cbn in Hp.
      injection Hp as <-. vm_compute. reflexivity. }
    pose proof (build_rows_ok G a (rng_seed G 42) 2%Z Ht) as Hb.
    destruct (program_csv G today1 c a _ _ Hp Hb) as [fx [_ [_ Hcsv]]].
    eexists. exact Hcsv.
  - unfold parse_args in Hp. rewrite Hm in Hp. cbn in Hp. discriminate.
Qed.

Lemma valid_mode_reproducible_witness :
  program lcg_gen "04-11-2026" (dated_command_line "valid" 5 "22-08-2025")
    = program lcg_gen "05-11-2026" (dated_command_line "valid" 5 "22-08-2025") /\
  csv_of (program lcg_gen "04-11-2026" (dated_command_line "valid" 5 "22-08-2025"))
    = csv_of (program lcg_gen "05-11-2026"
                (dated_command_line "valid" 5 "22-08-2025")) /\
  (opt_valid_ratio (dated_command_line "valid" 5 "22-08-2025") = None ->
   exists text,
     csv_of (program lcg_gen "04-11-2026"
               (dated_command_line "valid" 5 "22-08-2025")) = Some text).
Proof.
  apply (valid_mode_reproducible lcg_gen "04-11-2026" "05-11-2026"
           (dated_command_line "valid" 5 "22-08-2025")).
  - reflexivity.
  - reflexivity.
  - left. discriminate.
Defined.

(** In valid mode the text of the CSV starts with the header line and then
    the date of the first row, whatever the generator draws. *)
Lemma valid_mode_csv_starts_with_date (G : RandomGen) (today : string) :
  exists tail,
    csv_of (program G today (command_line "valid" 5)) =
      Some (header_line ++ today ++ "," ++ tail).
Proof.
  assert (parse_args today (command_line "valid" 5) =
          Some {| output := "outputs/samples/generated-whatsapp.csv";
                  records := 5;
                  mode := "valid";
                  valid_ratio := PyFloat.f_half;
                  patients_json := "";
                  date := today |}) as Hp by reflexivity.
  set (a := {| output := "outputs/samples/generated-whatsapp.csv";
               records := 5; mode := "valid"; valid_ratio := PyFloat.f_half;
               patients_json := ""; date := today |}) in *.
  assert (valid_target (records a) (valid_ratio a) = Ok 2%Z) as Ht
    by (vm_compute; reflexivity).
  pose proof (build_rows_ok G a (rng_seed G 42) 2%Z Ht) as Hb.
  destruct (loop_rows_shape G a 2%Z (rng_seed G 42) (Z.to_nat (records a)))
    as [data [Hrows Hlen]].
  destruct (loop_valid_mode G a 2%Z (rng_seed G 42) (Z.to_nat (records a))
              eq_refl 0%nat ltac:(cbn; lia)) as [name [phone [Hnth _]]].
  rewrite Hrows in Hnth, Hb. cbn [nth_error] in Hnth.
  destruct data as [| r0 rest]; [discriminate |].
  cbn [nth_error] in Hnth. injection Hnth as ->.
  destruct (program_csv G today (command_line "valid" 5) a _ _ Hp Hb)
    as [fx [_ [_ Hcsv]]].
  rewrite Hcsv, !csv_text_cons.
  exists (make_nik 3300000000000000 0 ++ "," ++ name ++ "," ++ phone ++ "
" ++ csv_text rest).
  f_equal. change (csv_line header) with header_line. f_equal.
  unfold csv_line. cbn [PyStr.join date a].
  rewrite !append_assoc. reflexivity.
Qed.

(** So the two runs of the counterexample differ under every generator. *)
Lemma valid_mode_csv_differs_across_days (G : RandomGen) :
  csv_of (program G "04-11-2026" (command_line "valid" 5)) <>
  csv_of (program G "05-11-2026" (command_line "valid" 5)).
Proof.
  destruct (valid_mode_csv_starts_with_date G "04-11-2026") as [t1 ->].
  destruct (valid_mode_csv_starts_with_date G "05-11-2026") as [t2 ->].
  intros Heq. injection Heq as Heq. discriminate Heq.
Qed.

(** C3, as stated, fails: the same command line without [--date], run on two
    different UTC days, gives two different CSV texts. *)
Lemma valid_mode_not_reproducible_across_days :
  csv_of (program lcg_gen "04-11-2026" (command_line "valid" 5)) <>
  csv_of (program lcg_gen "05-11-2026" (command_line "valid" 5)).
Proof. vm_compute. discriminate. Qed.

(** ** Doubles: rounding, products, floors *)

Module PyFloatFacts.

Import PyFloat.
Local Open Scope Z_scope.

Lemma fexp64_eq (e : Z) : fexp64 e = Z.max (e - 53) (-1074).
Proof. reflexivity. Qed.

Lemma fexp64_mono (d1 d2 : Z) : d1 <= d2 -> fexp64 d1 <= fexp64 d2.
Proof. rewrite !fexp64_eq. lia. Qed.

Lemma dig_bounds (m : positive) : 2 ^ (dig m - 1) <= Zpos m < 2 ^ dig m.
Proof.
  unfold dig. induction m as [m IH | m IH |]; cbn [digits2_pos].
  - rewrite Pos2Z.inj_succ. change (Zpos m~1) with (2 * Zpos m + 1).
    replace (Z.succ (Zpos (digits2_pos m)) - 1) with
      (Z.succ (Zpos (digits2_pos m) - 1)) by lia.
    rewrite !Z.pow_succ_r by lia. name_pows. lia.
  - rewrite Pos2Z.inj_succ. change (Zpos m~0) with (2 * Zpos m).
    replace (Z.succ (Zpos (digits2_pos m)) - 1) with
      (Z.succ (Zpos (digits2_pos m) - 1)) by lia.
    rewrite !Z.pow_succ_r by lia. name_pows. lia.
  - cbn. lia.
Qed.

Lemma dig_pos (m : positive) : 1 <= dig m.
Proof. unfold dig. lia. Qed.

(** The number of digits is the only [d] with [2^(d-1) <= m < 2^d]. *)
Lemma dig_unique (m : positive) (d : Z) :
  2 ^ (d - 1) <= Zpos m < 2 ^ d -> dig m = d.
Proof.
  intros [Hlo Hhi]. pose proof (dig_bounds m) as [Hlo' Hhi'].
  pose proof (dig_pos m) as Hd.
  assert (0 < d) as Hd0.
  { destruct (Z.ltb_spec 0 d) as [H | H]; [exact H |].
    destruct (Z.eq_dec d 0) as [-> | Hne].
    - cbn in Hhi. lia.
    - rewrite Z.pow_neg_r in Hhi by lia. lia. }
  destruct (Z.lt_trichotomy (dig m) d) as [Hlt | [Heq | Hgt]]; [| exact Heq |].
  - assert (2 ^ dig m <= 2 ^ (d - 1)) by (apply Z.pow_le_mono_r; lia). lia.
  - assert (2 ^ d <= 2 ^ (dig m - 1)) by (apply Z.pow_le_mono_r; lia). lia.
Qed.

Lemma dig_le_of_le (m1 m2 : positive) : Zpos m1 <= Zpos m2 -> dig m1 <= dig m2.
Proof.
  intros Hle. pose proof (dig_bounds m1) as [Hlo1 _].
  pose proof (dig_bounds m2) as [_ Hhi2].
  destruct (Z.le_gt_cases (dig m1) (dig m2)) as [H | H]; [exact H |].
  assert (2 ^ dig m2 <= 2 ^ (dig m1 - 1)) by (apply Z.pow_le_mono_r;
    pose proof (dig_pos m2); lia).
  lia.
Qed.

(** [iter_pos] is plain iteration. *)
Lemma iter_pos_nat (A : Type) (f : A -> A) (p : positive) (x : A) :
  iter_pos f p x = Nat.iter (Pos.to_nat p) f x.
Proof.
  revert x. induction p as [p IH | p IH |]; intros x; cbn [iter_pos].
  - rewrite !IH, Pos2Nat.inj_xI.
    replace (S (2 * Pos.to_nat p)) with (Pos.to_nat p + (Pos.to_nat p + 1))%nat by lia.
    rewrite !Nat.iter_add. cbn. reflexivity.
  - rewrite !IH, Pos2Nat.inj_xO.
    replace (2 * Pos.to_nat p)%nat with (Pos.to_nat p + Pos.to_nat p)%nat by lia.
    rewrite Nat.iter_add. reflexivity.
  - reflexivity.
Qed.

(** One shift halves the mantissa; a shift of an exact even mantissa stays
    exact. *)
Lemma shr_1_m (mrs : shr_record) :
  0 <= shr_m mrs -> shr_m (shr_1 mrs) = shr_m mrs / 2.
Proof.
  destruct mrs as [m r s]. cbn [shr_m]. intros Hm.
  destruct m as [| p | p]; [reflexivity | | lia].
  destruct p as [p | p |]; cbn [shr_1 shr_m].
  - change (Zpos p~1) with (2 * Zpos p + 1).
    apply Z.div_unique with (r := 1); lia.
  - change (Zpos p~0) with (2 * Zpos p).
    apply Z.div_unique with (r := 0); lia.
  - reflexivity.
Qed.

Lemma shr_1_exact (mrs : shr_record) :
  0 <= shr_m mrs -> shr_m mrs mod 2 = 0 ->
  shr_r mrs = false -> shr_s mrs = false ->
  shr_r (shr_1 mrs) = false /\ shr_s (shr_1 mrs) = false.
Proof.
  destruct mrs as [m r s]. cbn [shr_m shr_r shr_s]. intros Hm Hev -> ->.
  destruct m as [| p | p]; [split; reflexivity | | lia].
  destruct p as [p | p |]; cbn [shr_1 shr_r shr_s].
  - change (Zpos p~1) with (2 * Zpos p + 1) in Hev.
    replace (2 * Zpos p + 1) with (1 + Zpos p * 2) in Hev by lia.
    rewrite Z.mod_add in Hev by lia. discriminate.
  - split; reflexivity.
  - discriminate.
Qed.

Lemma shr_iter (m : Z) (k : nat) :
  0 <= m ->
  shr_m (Nat.iter k shr_1 (Build_shr_record m false false)) = m / 2 ^ Z.of_nat k /\
  (m mod 2 ^ Z.of_nat k = 0 ->
   shr_r (Nat.iter k shr_1 (Build_shr_record m false false)) = false /\
   shr_s (Nat.iter k shr_1 (Build_shr_record m false false)) = false).
Proof.
  intros Hm. induction k as [| k [IHm IHx]].
  - cbn. split; [now rewrite Z.div_1_r | intros _; split; reflexivity].
  - rewrite Nat.iter_succ.
    set (mrs := Nat.iter k shr_1 (Build_shr_record m false false)) in *.
    assert (0 < 2 ^ Z.of_nat k) as Hp by (apply Z.pow_pos_nonneg; lia).
    assert (0 <= shr_m mrs) as Hnn.
    { rewrite IHm. apply Z.div_pos; [exact Hm | exact Hp]. }
    replace (Z.of_nat (S k)) with (Z.succ (Z.of_nat k)) by lia.
    rewrite Z.pow_succ_r by lia.
    split.
    + rewrite shr_1_m by exact Hnn. rewrite IHm.
      rewrite Z.div_div by lia. f_equal; lia.
    + intros Hex.
      apply Z.mod_divide in Hex; [| lia]. destruct Hex as [q Hq].
      assert (m mod 2 ^ Z.of_nat k = 0) as Hex'.
      { apply Z.mod_divide; [lia |]. exists (q * 2). lia. }
      destruct (IHx Hex') as [Hr Hs].
      apply shr_1_exact; [exact Hnn | | exact Hr | exact Hs].
      rewrite IHm.
      replace m with (q * 2 * 2 ^ Z.of_nat k) by lia.
      rewrite Z.div_mul by lia. apply Z.mod_mul. lia.
Qed.

Lemma rne_bounds (m : Z) (l : location) :
  m <= round_nearest_even m l <= m + 1.
Proof.
  destruct l as [| [ | | ]]; cbn [round_nearest_even]; try lia.
  destruct (Z.even m); lia.
Qed.

Lemma dig_div_pow2 (M : positive) (k : Z) (m' : positive) :
  0 <= k -> Zpos M / 2 ^ k = Zpos m' -> dig m' = dig M - k.
Proof.
  intros Hk Hdiv. apply dig_unique.
  pose proof (dig_bounds M) as [Hlo Hhi].
  assert (0 < 2 ^ k) as Hp by (apply Z.pow_pos_nonneg; lia).
  assert (k < dig M) as Hkd.
  { destruct (Z.lt_ge_cases k (dig M)) as [H | H]; [exact H |].
    assert (2 ^ dig M <= 2 ^ k) by (apply Z.pow_le_mono_r; lia).
    rewrite Z.div_small in Hdiv by lia. discriminate. }
  rewrite <- Hdiv. split.
  - apply Z.div_le_lower_bound; [exact Hp |].
    rewrite <- Z.pow_add_r by lia.
    replace (k + (dig M - k - 1)) with (dig M - 1) by lia. exact Hlo.
  - apply Z.div_lt_upper_bound; [exact Hp |].
    rewrite <- Z.pow_add_r by lia.
    replace (k + (dig M - k)) with (dig M) by lia. exact Hhi.
Qed.

(** The first alignment of [binary_round_aux]: the mantissa divided by
    [2^k], and an exact location when nothing is lost. *)
Lemma shr_first (M : positive) (E : Z) (p : positive) :
  exists mrs,
    shr (Build_shr_record (Zpos M) false false) E (Zpos p) = (mrs, E + Zpos p) /\
    shr_m mrs = Zpos M / 2 ^ Zpos p /\
    (Zpos M mod 2 ^ Zpos p = 0 -> loc_of_shr_record mrs = loc_Exact).
Proof.
  cbn [shr]. rewrite iter_pos_nat.
  destruct (shr_iter (Zpos M) (Pos.to_nat p) ltac:(lia)) as [Hm Hx].
  rewrite positive_nat_Z in Hm, Hx.
  eexists. split; [reflexivity |]. split; [exact Hm |].
  intros Hex. destruct (Hx Hex) as [Hr Hs].
  destruct (Nat.iter (Pos.to_nat p) shr_1 (Build_shr_record (Zpos M) false false))
    as [m r s0].
  cbn in Hr, Hs. subst. reflexivity.
Qed.

Lemma binary_round_aux_unfold (sx : bool) (mx ex : Z) (lx : location) :
  binary_round_aux prec emax sx mx ex lx =
  let r1 := shr (shr_record_of_loc mx lx) ex (fexp64 (Zdigits2 mx + ex) - ex) in
  let m1 := round_nearest_even (shr_m (fst r1)) (loc_of_shr_record (fst r1)) in
  let r2 := shr (Build_shr_record m1 false false) (snd r1)
                (fexp64 (Zdigits2 m1 + snd r1) - snd r1) in
  finish sx (shr_m (fst r2)) (snd r2).
Proof.
  unfold binary_round_aux, shr_fexp, fexp64, finish.
  destruct (shr (shr_record_of_loc mx lx) ex (fexp prec emax (Zdigits2 mx + ex) - ex))
    as [mrs' e'].
  cbn [fst snd shr_record_of_loc].
  destruct (shr (Build_shr_record
                   (round_nearest_even (shr_m mrs') (loc_of_shr_record mrs'))
                   false false) e'
                (fexp prec emax
                   (Zdigits2 (round_nearest_even (shr_m mrs') (loc_of_shr_record mrs'))
                    + e') - e')) as [mrs'' e''].
  reflexivity.
Qed.

(** The second alignment: at most one more shift, of an even mantissa. *)
Lemma shr_second (r : positive) (e1 : Z) :
  e1 <= fexp64 (dig r + e1) <= e1 + 1 ->
  (fexp64 (dig r + e1) = e1 + 1 -> exists r', r = xO r') ->
  exists m e,
    shr (Build_shr_record (Zpos r) false false) e1 (fexp64 (dig r + e1) - e1)
      = (Build_shr_record (Zpos m) false false, e) /\
    e1 <= e /\ Zpos m * 2 ^ (e - e1) = Zpos r /\ fexp64 (dig m + e) = e.
Proof.
  intros Hk Hev.
  destruct (Z.eq_dec (fexp64 (dig r + e1)) e1) as [H0 | H0].
  - rewrite H0, Z.sub_diag. exists r, e1. cbn [shr].
    rewrite Z.sub_diag. cbn [Z.pow]. repeat split; lia.
  - assert (fexp64 (dig r + e1) = e1 + 1) as H1 by lia.
    destruct (Hev H1) as [r' ->].
    rewrite H1. replace (e1 + 1 - e1) with 1 by lia.
    exists r', (e1 + 1). cbn [shr iter_pos shr_1 orb].
    replace (e1 + 1 - e1) with 1 by lia.
    repeat split; try lia.
    replace (dig r' + (e1 + 1)) with (dig r'~0 + e1); [exact H1 |].
    unfold dig. cbn [digits2_pos]. lia.
Qed.

(** [binary_round_aux] on an exact, aligned input: the result is the input
    cut at the exponent [e1] of its format, then rounded up by at most one
    unit of [2^e1], and not at all if nothing was cut. *)
Lemma round_aux_spec (sx : bool) (M : positive) (E : Z) :
  E <= fexp64 (dig M + E) ->
  exists R,
    Zpos M / 2 ^ (fexp64 (dig M + E) - E) <= R <=
      Zpos M / 2 ^ (fexp64 (dig M + E) - E) + 1 /\
    (Zpos M mod 2 ^ (fexp64 (dig M + E) - E) = 0 ->
     R = Zpos M / 2 ^ (fexp64 (dig M + E) - E)) /\
    ((R = 0 /\
      binary_round_aux prec emax sx (Zpos M) E loc_Exact = S754_zero sx) \/
     (exists m e,
        fexp64 (dig M + E) <= e /\
        Zpos m * 2 ^ (e - fexp64 (dig M + E)) = R /\
        fexp64 (dig m + e) = e /\
        binary_round_aux prec emax sx (Zpos M) E loc_Exact =
          if e <=? emax - prec then S754_finite sx m e else S754_infinity sx)).
Proof.
  intros Hal. rewrite binary_round_aux_unfold.
  cbn [Zdigits2 shr_record_of_loc]. fold (dig M).
  set (e1 := fexp64 (dig M + E)) in *.
  destruct (e1 - E) as [| p | p] eqn:Hk; [| | lia].
  - (* nothing to cut *)
    cbn [shr fst snd shr_m loc_of_shr_record round_nearest_even Zdigits2].
    fold (dig M). fold e1. rewrite Hk. cbn [shr fst snd shr_m finish].
    exists (Zpos M). rewrite Z.div_1_r.
    split; [lia | split; [reflexivity | right]].
    exists M, E. replace (E - e1) with 0 by lia.
    repeat split; lia.
  - destruct (shr_first M E p) as [mrs [Hshr [Hm Hx]]].
    rewrite Hshr. cbn [fst snd].
    pose proof (rne_bounds (shr_m mrs) (loc_of_shr_record mrs)) as Hrne.
    set (R0 := round_nearest_even (shr_m mrs) (loc_of_shr_record mrs)) in *.
    assert (E + Zpos p = e1) as He1 by lia. rewrite He1.
    assert (0 < 2 ^ Zpos p) as Hpp by (apply Z.pow_pos_nonneg; lia).
    assert (0 <= Zpos M / 2 ^ Zpos p) as Hq by (apply Z.div_pos; lia).
    assert (-1074 <= e1) as Hemin by (unfold e1; rewrite fexp64_eq; lia).
    exists R0. split; [rewrite <- Hm; exact Hrne |].
    split.
    { intros Hex. unfold R0. rewrite (Hx Hex). cbn [round_nearest_even].
      exact Hm. }
    destruct R0 as [| r | r] eqn:HR0; [| | lia].
    + left. split; [reflexivity |].
      cbn [Zdigits2]. rewrite fexp64_eq.
      destruct (Z.max (0 + e1 - 53) (-1074) - e1) eqn:Hk2; try lia;
        reflexivity.
    + right. cbn [Zdigits2]. fold (dig r).
      assert (e1 <= fexp64 (dig r + e1) <= e1 + 1 /\
              (fexp64 (dig r + e1) = e1 + 1 -> exists r', r = xO r')) as [Hk2 Hev].
      { destruct (Zpos M / 2 ^ Zpos p) as [| m' | m'] eqn:Hdiv; [| | lia].
        - (* the whole mantissa was cut *)
          assert (r = 1%positive) as -> by lia.
          assert (dig M <= Zpos p) as Hd.
          { pose proof (dig_bounds M) as [Hlo _].
            destruct (Z.le_gt_cases (dig M) (Zpos p)) as [H | H]; [exact H |].
            assert (2 ^ Zpos p <= 2 ^ (dig M - 1)) by (apply Z.pow_le_mono_r; lia).
            apply Z.div_small_iff in Hdiv; lia. }
          unfold e1 in *. change (dig 1) with 1. rewrite ?fexp64_eq in *.
          split; [lia |]. intros H. lia.
        - pose proof (dig_div_pow2 M (Zpos p) m' ltac:(lia) Hdiv) as Hdm.
          pose proof (dig_bounds m') as [Hlo' Hhi'].
          pose proof (dig_bounds r) as [Hlor Hhir].
          pose proof (dig_pos m') as Hdp.
          assert (dig m' <= dig r) as Hge by (apply dig_le_of_le; lia).
          assert (dig r <= dig m' + 1) as Hle.
          { destruct (Z.le_gt_cases (dig r) (dig m' + 1)) as [H | H]; [exact H |].
            assert (2 ^ (dig m' + 1) <= 2 ^ (dig r - 1)) as Hpw
              by (apply Z.pow_le_mono_r; lia).
            rewrite Z.pow_add_r in Hpw by lia. change (2 ^ 1) with 2 in Hpw.
            exfalso. clear - Hpw Hlor Hhi' Hrne Hm. name_pows. lia. }
          split.
          + unfold e1 in *. rewrite ?fexp64_eq in *. lia.
          + intros H1.
            assert (dig r = dig m' + 1) as Hd1.
            { destruct (Z.eq_dec (dig r) (dig m')) as [Heq | Hne]; [| lia].
              exfalso. rewrite Heq in H1.
              unfold e1 in *. rewrite ?fexp64_eq in *. lia. }
            rewrite Hd1 in Hlor. replace (dig m' + 1 - 1) with (dig m') in Hlor by lia.
            assert (Zpos r = 2 ^ dig m') as Hr2 by lia.
            replace (dig m') with (Z.succ (dig m' - 1)) in Hr2 by lia.
            rewrite Z.pow_succ_r in Hr2 by lia.
            destruct r as [r' | r' |]; [lia | now exists r' | ].
            assert (0 < 2 ^ (dig m' - 1)) by (apply Z.pow_pos_nonneg; lia). lia. }
      destruct (shr_second r e1 Hk2 Hev) as [m [e [Hs2 [Hle [Hval Hcan]]]]].
      rewrite Hs2. cbn [fst snd shr_m finish].
      exists m, e. repeat split; assumption.
Qed.

(** ** Comparing values in a common unit [2^u] *)

Lemma pow2_pos (k : Z) : 0 <= k -> 0 < 2 ^ k.
Proof. intros Hk. apply Z.pow_pos_nonneg; lia. Qed.

Lemma pow2_split (a b : Z) : 0 <= a -> 0 <= b -> 2 ^ (a + b) = 2 ^ a * 2 ^ b.
Proof. intros Ha Hb. apply Z.pow_add_r; assumption. Qed.

(** Changing the unit of a comparison. *)
Lemma rescale_le (a b x y u v : Z) :
  v <= u -> u <= x -> u <= y ->
  a * 2 ^ (x - u) <= b * 2 ^ (y - u) <-> a * 2 ^ (x - v) <= b * 2 ^ (y - v).
Proof.
  intros Hv Hx Hy.
  replace (x - v) with ((x - u) + (u - v)) by lia.
  replace (y - v) with ((y - u) + (u - v)) by lia.
  rewrite !pow2_split by lia.
  pose proof (pow2_pos (u - v) ltac:(lia)) as Hp.
  rewrite !Z.mul_assoc. split; intros H.
  - apply Z.mul_le_mono_nonneg_r; lia.
  - apply Z.mul_le_mono_pos_r in H; lia.
Qed.

Lemma rescale_lt (a b x y u v : Z) :
  v <= u -> u <= x -> u <= y ->
  a * 2 ^ (x - u) < b * 2 ^ (y - u) <-> a * 2 ^ (x - v) < b * 2 ^ (y - v).
Proof.
  intros Hv Hx Hy.
  replace (x - v) with ((x - u) + (u - v)) by lia.
  replace (y - v) with ((y - u) + (u - v)) by lia.
  rewrite !pow2_split by lia.
  pose proof (pow2_pos (u - v) ltac:(lia)) as Hp.
  rewrite !Z.mul_assoc. split; intros H.
  - apply Z.mul_lt_mono_pos_r; lia.
  - apply Z.mul_lt_mono_pos_r in H; lia.
Qed.

(** A smaller value has no more digits above the unit. *)
Lemma dig_exp_le (m1 m2 : positive) (e1 e2 u : Z) :
  u <= e1 -> u <= e2 ->
  Zpos m1 * 2 ^ (e1 - u) <= Zpos m2 * 2 ^ (e2 - u) ->
  dig m1 + e1 <= dig m2 + e2.
Proof.
  intros H1 H2 Hle.
  pose proof (dig_bounds m1) as [Hlo1 _].
  pose proof (dig_bounds m2) as [_ Hhi2].
  pose proof (dig_pos m1) as Hd1. pose proof (dig_pos m2) as Hd2.
  pose proof (pow2_pos (e1 - u) ltac:(lia)) as Hp1.
  pose proof (pow2_pos (e2 - u) ltac:(lia)) as Hp2.
  assert (2 ^ (dig m1 - 1 + (e1 - u)) < 2 ^ (dig m2 + (e2 - u))) as Hlt.
  { rewrite !pow2_split by lia.
    apply Z.le_lt_trans with (Zpos m1 * 2 ^ (e1 - u)).
    - apply Z.mul_le_mono_nonneg_r; lia.
    - apply Z.le_lt_trans with (Zpos m2 * 2 ^ (e2 - u)); [exact Hle |].
      apply Z.mul_lt_mono_pos_r; lia. }
  apply Z.pow_lt_mono_r_iff in Hlt; lia.
Qed.

Lemma canonical_dig (m : positive) (e : Z) :
  fexp64 (dig m + e) = e -> dig m <= 53 /\ -1074 <= e.
Proof. rewrite fexp64_eq. lia. Qed.

Lemma bounded_iff (m : positive) (e : Z) :
  bounded prec emax m e = true <-> fexp64 (dig m + e) = e /\ e <= 971.
Proof.
  unfold bounded, canonical_mantissa. fold (dig m). fold (fexp64 (dig m + e)).
  rewrite andb_true_iff, Z.eqb_eq, Z.leb_le. reflexivity.
Qed.

(** Rounding never goes above a double that is above the exact value. *)
Lemma round_le (sx : bool) (M : positive) (E : Z) (mx : positive) (ex u : Z) :
  E <= fexp64 (dig M + E) ->
  bounded prec emax mx ex = true ->
  u <= E -> u <= ex ->
  Zpos M * 2 ^ (E - u) <= Zpos mx * 2 ^ (ex - u) ->
  binary_round_aux prec emax sx (Zpos M) E loc_Exact = S754_zero sx \/
  exists m e,
    binary_round_aux prec emax sx (Zpos M) E loc_Exact = S754_finite sx m e /\
    bounded prec emax m e = true /\ E <= e /\
    Zpos m * 2 ^ (e - u) <= Zpos mx * 2 ^ (ex - u).
Proof.
  intros Hal Hb Hu1 Hu2 Hle.
  apply bounded_iff in Hb as [Hcx Hex].
  destruct (round_aux_spec sx M E Hal) as [R [HR [Hexact Hres]]].
  pose proof (dig_exp_le M mx E ex u Hu1 Hu2 Hle) as Hdd.
  pose proof (fexp64_mono _ _ Hdd) as He1. rewrite Hcx in He1.
  set (e1 := fexp64 (dig M + E)) in *.
  (* the bound, counted in units of [2^e1] *)
  set (XU := Zpos mx * 2 ^ (ex - e1)).
  pose proof (pow2_pos (e1 - E) ltac:(lia)) as Hpk.
  pose proof (pow2_pos (ex - e1) ltac:(lia)) as Hpx.
  assert (Zpos M <= XU * 2 ^ (e1 - E)) as HM.
  { apply (rescale_le (Zpos M) (Zpos mx) E ex E u) in Hle; try lia.
    rewrite Z.sub_diag, Z.mul_1_r in Hle.
    unfold XU. rewrite <- Z.mul_assoc, <- pow2_split by lia.
    replace (ex - e1 + (e1 - E)) with (ex - E) by lia. exact Hle. }
  assert (R <= XU) as HRX.
  { destruct (Z.eq_dec (Zpos M mod 2 ^ (e1 - E)) 0) as [Hz | Hnz].
    - rewrite (Hexact Hz). apply Z.div_le_upper_bound; lia.
    - assert (Zpos M <> XU * 2 ^ (e1 - E)) as Hne.
      { intros Heq. apply Hnz. rewrite Heq. apply Z.mod_mul. lia. }
      assert (Zpos M / 2 ^ (e1 - E) < XU)
        by (apply Z.div_lt_upper_bound; lia).
      lia. }
  destruct Hres as [[_ Hz] | [m [e [Hee [Hval [Hcan Hres]]]]]]; [left; exact Hz |].
  right. exists m, e.
  assert (Zpos m * 2 ^ (e - e1) <= Zpos mx * 2 ^ (ex - e1)) as Hle1
    by (rewrite Hval; exact HRX).
  pose proof (dig_exp_le m mx e ex e1 Hee He1 Hle1) as Hdd'.
  pose proof (fexp64_mono _ _ Hdd') as Hee'. rewrite Hcan, Hcx in Hee'.
  assert (-1074 <= e1) as Hlow by (unfold e1; rewrite fexp64_eq; lia).
  split.
  { rewrite Hres. destruct (Z.leb_spec e (emax - prec)) as [_ | Hgt]; [reflexivity |].
    unfold emax, prec in Hgt. lia. }
  split; [apply bounded_iff; split; [exact Hcan | lia] |].
  split; [lia |].
  apply (rescale_le (Zpos m) (Zpos mx) e ex e1 u); lia.
Qed.

(** Rounding never goes below a double that is below the exact value. *)
Lemma round_ge (sx : bool) (M : positive) (E : Z) (mx : positive) (ex u : Z) :
  E <= fexp64 (dig M + E) ->
  fexp64 (dig mx + ex) = ex ->
  u <= E -> u <= ex ->
  Zpos mx * 2 ^ (ex - u) <= Zpos M * 2 ^ (E - u) ->
  exists m e,
    fexp64 (dig m + e) = e /\ E <= e /\
    Zpos mx * 2 ^ (ex - u) <= Zpos m * 2 ^ (e - u) /\
    binary_round_aux prec emax sx (Zpos M) E loc_Exact =
      if e <=? emax - prec then S754_finite sx m e else S754_infinity sx.
Proof.
  intros Hal Hcx Hu1 Hu2 Hle.
  destruct (round_aux_spec sx M E Hal) as [R [HR [_ Hres]]].
  pose proof (dig_exp_le mx M ex E u Hu2 Hu1 Hle) as Hdd.
  pose proof (fexp64_mono _ _ Hdd) as He1. rewrite Hcx in He1.
  pose proof (canonical_dig mx ex Hcx) as [Hdx Hexlow].
  set (e1 := fexp64 (dig M + E)) in *.
  pose proof (pow2_pos (e1 - E) ltac:(lia)) as Hpk.
  pose proof (pow2_pos (e1 - u) ltac:(lia)) as Hpu.
  assert (Zpos mx * 2 ^ (ex - u) <= (Zpos M / 2 ^ (e1 - E)) * 2 ^ (e1 - u)) as Hq.
  { destruct (Z.eq_dec e1 ex) as [Heq | Hne].
    - rewrite <- Heq in *.
      apply Z.mul_le_mono_nonneg_r; [lia |].
      apply Z.div_le_lower_bound; [exact Hpk |].
      apply (rescale_le (Zpos mx) (Zpos M) e1 E E u) in Hle; try lia.
      rewrite Z.sub_diag, Z.mul_1_r in Hle. lia.
    - assert (e1 = dig M + E - 53) as He1eq
        by (unfold e1 in *; rewrite fexp64_eq in *; lia).
      pose proof (dig_bounds M) as [HloM _].
      pose proof (dig_bounds mx) as [_ Hhix].
      assert (2 ^ 52 <= Zpos M / 2 ^ (e1 - E)) as Hq52.
      { apply Z.div_le_lower_bound; [exact Hpk |].
        rewrite <- pow2_split by lia.
        replace (e1 - E + 52) with (dig M - 1) by lia. exact HloM. }
      assert (Zpos mx < 2 ^ 53) as Hmx.
      { apply Z.lt_le_trans with (2 ^ dig mx); [exact Hhix |].
        apply Z.pow_le_mono_r; lia. }
      pose proof (pow2_pos (ex - u) ltac:(lia)) as Hpxu.
      apply Z.le_trans with (2 ^ 52 * 2 ^ (e1 - u)).
      + replace (e1 - u) with ((e1 - ex - 1) + 1 + (ex - u)) by lia.
        rewrite !pow2_split by lia. change (2 ^ 1) with 2.
        pose proof (pow2_pos (e1 - ex - 1) ltac:(lia)) as Hp1.
        rewrite !Z.mul_assoc. apply Z.mul_le_mono_nonneg_r; [lia |].
        change (2 ^ 53) with (2 ^ 52 * 2) in Hmx.
        apply Z.le_trans with (2 ^ 52 * 1 * 2); [lia |].
        apply Z.mul_le_mono_nonneg_r; [lia |].
        apply Z.mul_le_mono_nonneg_l; lia.
      + apply Z.mul_le_mono_nonneg_r; lia. }
  assert (0 < R) as HRpos.
  { destruct (Z.le_gt_cases R 0) as [Hneg | Hpos]; [| exact Hpos].
    exfalso.
    assert (Zpos M / 2 ^ (e1 - E) <= 0) as Hq0 by lia.
    pose proof (pow2_pos (ex - u) ltac:(lia)) as Hpxu.
    assert (0 < Zpos mx * 2 ^ (ex - u)) by (apply Z.mul_pos_pos; lia).
    assert (Zpos M / 2 ^ (e1 - E) * 2 ^ (e1 - u) <= 0)
      by (apply Z.mul_nonpos_nonneg; lia).
    lia. }
  destruct Hres as [[HR0 _] | [m [e [Hee [Hval [Hcan Hres]]]]]]; [lia |].
  exists m, e. split; [exact Hcan |]. split; [lia |]. split; [| exact Hres].
  apply Z.le_trans with (Zpos M / 2 ^ (e1 - E) * 2 ^ (e1 - u)); [exact Hq |].
  replace (e - u) with ((e - e1) + (e1 - u)) by lia.
  rewrite pow2_split by lia. rewrite Z.mul_assoc, Hval.
  apply Z.mul_le_mono_nonneg_r; lia.
Qed.

(** The exact value is below the double that follows the rounded one. *)
Lemma round_lt_succ (sx : bool) (M : positive) (E u : Z) :
  E <= fexp64 (dig M + E) ->
  u <= E ->
  binary_round_aux prec emax sx (Zpos M) E loc_Exact = S754_zero sx \/
  exists m e,
    fexp64 (dig m + e) = e /\ E <= e /\
    Zpos M * 2 ^ (E - u) < (Zpos m + 1) * 2 ^ (e - u) /\
    binary_round_aux prec emax sx (Zpos M) E loc_Exact =
      if e <=? emax - prec then S754_finite sx m e else S754_infinity sx.
Proof.
  intros Hal Hu.
  destruct (round_aux_spec sx M E Hal) as [R [HR [_ Hres]]].
  set (e1 := fexp64 (dig M + E)) in *.
  destruct Hres as [[_ Hz] | [m [e [Hee [Hval [Hcan Hres]]]]]]; [left; exact Hz |].
  right. exists m, e. split; [exact Hcan |]. split; [lia |]. split; [| exact Hres].
  pose proof (pow2_pos (e1 - E) ltac:(lia)) as Hpk.
  pose proof (pow2_pos (e - e1) ltac:(lia)) as Hpe.
  apply (rescale_lt (Zpos M) (Zpos m + 1) E e E u); try lia.
  rewrite Z.sub_diag, Z.mul_1_r.
  replace (e - E) with ((e - e1) + (e1 - E)) by lia.
  rewrite pow2_split by lia. rewrite Z.mul_assoc.
  pose proof (Z.mul_succ_div_gt (Zpos M) (2 ^ (e1 - E)) Hpk) as Hdiv.
  apply Z.lt_le_trans with (2 ^ (e1 - E) * Z.succ (Zpos M / 2 ^ (e1 - E)));
    [exact Hdiv |].
  rewrite (Z.mul_comm (2 ^ (e1 - E))).
  apply Z.mul_le_mono_nonneg_r; [lia |].
  rewrite Z.mul_add_distr_r, Hval. lia.
Qed.

(** ** Alignment before rounding *)

Lemma iter_xO (m d : positive) :
  Zpos (Pos.iter xO m d) = Zpos m * 2 ^ Zpos d /\
  dig (Pos.iter xO m d) = dig m + Zpos d.
Proof.
  induction d as [| d [IHv IHd]] using Pos.peano_ind.
  - cbn [Pos.iter]. split; [cbn; lia |].
    unfold dig. cbn [digits2_pos]. lia.
  - rewrite Pos.iter_succ. split.
    + change (Zpos (Pos.iter xO m d)~0) with (2 * Zpos (Pos.iter xO m d)).
      rewrite IHv, Pos2Z.inj_succ, Z.pow_succ_r by lia. lia.
    + unfold dig in *. cbn [digits2_pos]. rewrite Pos2Z.inj_succ.
      rewrite Pos2Z.inj_succ, IHd. lia.
Qed.

Lemma shl_align_spec (mx : positive) (ex : Z) :
  exists mz ez,
    shl_align mx ex (fexp64 (dig mx + ex)) = (mz, ez) /\
    ez <= ex /\ Z.min ex (-1074) <= ez /\
    Zpos mz = Zpos mx * 2 ^ (ex - ez) /\
    ez <= fexp64 (dig mz + ez) /\
    (fexp64 (dig mx + ex) <= ex -> fexp64 (dig mz + ez) = ez).
Proof.
  unfold shl_align.
  destruct (fexp64 (dig mx + ex) - ex) as [| d | d] eqn:Hd.
  - exists mx, ex. rewrite Z.sub_diag.
    repeat split; lia.
  - exists mx, ex. rewrite Z.sub_diag.
    repeat split; lia.
  - destruct (iter_xO mx d) as [Hv Hdig].
    exists (Pos.iter xO mx d), (fexp64 (dig mx + ex)).
    split; [reflexivity |].
    assert (ex - fexp64 (dig mx + ex) = Zpos d) as Hd' by lia.
    rewrite Hd', Hdig.
    replace (dig mx + Zpos d + fexp64 (dig mx + ex)) with (dig mx + ex) by lia.
    repeat split; try lia.
    rewrite fexp64_eq. lia.
Qed.

Lemma binary_round_aligned (sx : bool) (mx : positive) (ex : Z) :
  exists mz ez,
    ez <= ex /\ Z.min ex (-1074) <= ez /\
    Zpos mz = Zpos mx * 2 ^ (ex - ez) /\
    ez <= fexp64 (dig mz + ez) /\
    binary_round prec emax sx mx ex =
      binary_round_aux prec emax sx (Zpos mz) ez loc_Exact.
Proof.
  destruct (shl_align_spec mx ex) as [mz [ez [Hs [H1 [H2 [H3 [H4 _]]]]]]].
  exists mz, ez. repeat split; try assumption.
  unfold binary_round. fold (dig mx). fold (fexp64 (dig mx + ex)).
  rewrite Hs. reflexivity.
Qed.

Lemma dig_mul_ge (m1 m2 : positive) : dig m1 + dig m2 - 1 <= dig (m1 * m2).
Proof.
  pose proof (dig_bounds m1) as [Hlo1 _].
  pose proof (dig_bounds m2) as [Hlo2 _].
  pose proof (dig_bounds (m1 * m2)) as [_ Hhi].
  pose proof (dig_pos m1). pose proof (dig_pos m2). pose proof (dig_pos (m1 * m2)).
  rewrite Pos2Z.inj_mul in Hhi.
  assert (2 ^ (dig m1 - 1 + (dig m2 - 1)) < 2 ^ dig (m1 * m2)) as Hlt.
  { rewrite pow2_split by lia.
    apply Z.le_lt_trans with (Zpos m1 * Zpos m2); [| exact Hhi].
    apply Z.mul_le_mono_nonneg; try lia;
      apply Z.lt_le_incl, pow2_pos; lia. }
  apply Z.pow_lt_mono_r_iff in Hlt; lia.
Qed.

(** The exact product of two doubles is aligned for rounding. *)
Lemma mul_aligned (m1 m2 : positive) (e1 e2 : Z) :
  fexp64 (dig m1 + e1) = e1 -> fexp64 (dig m2 + e2) = e2 ->
  e1 + e2 <= fexp64 (dig (m1 * m2) + (e1 + e2)).
Proof.
  intros H1 H2. pose proof (dig_mul_ge m1 m2) as Hd.
  pose proof (dig_pos m1). pose proof (dig_pos m2).
  rewrite fexp64_eq in *. lia.
Qed.

(** ** [math.floor] against values in a unit *)

Lemma shiftl_le (m e u n : Z) :
  u <= e -> u <= 0 -> m * 2 ^ (e - u) <= n * 2 ^ (0 - u) -> Z.shiftl m e <= n.
Proof.
  intros Hue Hu0 Hle.
  pose proof (pow2_pos (0 - u) ltac:(lia)) as Hpu.
  destruct (Z.le_gt_cases 0 e) as [He | He].
  - rewrite Z.shiftl_mul_pow2 by lia.
    replace (e - u) with (e + (0 - u)) in Hle by lia.
    rewrite pow2_split, Z.mul_assoc in Hle by lia.
    apply Z.mul_le_mono_pos_r in Hle; lia.
  - rewrite Z.shiftl_div_pow2 by lia.
    pose proof (pow2_pos (- e) ltac:(lia)) as Hp.
    pose proof (pow2_pos (e - u) ltac:(lia)) as Hpe.
    apply Z.div_le_upper_bound; [exact Hp |].
    replace (0 - u) with (- e + (e - u)) in Hle by lia.
    rewrite pow2_split, Z.mul_assoc in Hle by lia.
    apply Z.mul_le_mono_pos_r in Hle; lia.
Qed.

Lemma shiftl_ge (m e u n : Z) :
  u <= e -> u <= 0 -> n * 2 ^ (0 - u) <= m * 2 ^ (e - u) -> n <= Z.shiftl m e.
Proof.
  intros Hue Hu0 Hle.
  pose proof (pow2_pos (0 - u) ltac:(lia)) as Hpu.
  destruct (Z.le_gt_cases 0 e) as [He | He].
  - rewrite Z.shiftl_mul_pow2 by lia.
    replace (e - u) with (e + (0 - u)) in Hle by lia.
    rewrite pow2_split, Z.mul_assoc in Hle by lia.
    apply Z.mul_le_mono_pos_r in Hle; lia.
  - rewrite Z.shiftl_div_pow2 by lia.
    pose proof (pow2_pos (- e) ltac:(lia)) as Hp.
    pose proof (pow2_pos (e - u) ltac:(lia)) as Hpe.
    apply Z.div_le_lower_bound; [exact Hp |].
    replace (0 - u) with (- e + (e - u)) in Hle by lia.
    rewrite pow2_split, Z.mul_assoc in Hle by lia.
    apply Z.mul_le_mono_pos_r in Hle; lia.
Qed.

Lemma shiftl_nonneg (m : positive) (e : Z) : 0 <= Z.shiftl (Zpos m) e.
Proof. apply Z.shiftl_nonneg. lia. Qed.

Lemma shiftl_nonpos (m : positive) (e : Z) : Z.shiftl (Zneg m) e <= 0.
Proof.
  destruct (Z.le_gt_cases 0 (Z.shiftl (Zneg m) e)) as [H | H]; [| lia].
  apply Z.shiftl_nonneg in H. lia.
Qed.

(** The two bounds again, by the shape of the result. *)
Lemma round_ge_cases (sx : bool) (M : positive) (E : Z) (mx : positive)
      (ex u : Z) :
  E <= fexp64 (dig M + E) ->
  fexp64 (dig mx + ex) = ex ->
  u <= E -> u <= ex ->
  Zpos mx * 2 ^ (ex - u) <= Zpos M * 2 ^ (E - u) ->
  binary_round_aux prec emax sx (Zpos M) E loc_Exact = S754_infinity sx \/
  exists m e,
    binary_round_aux prec emax sx (Zpos M) E loc_Exact = S754_finite sx m e /\
    bounded prec emax m e = true /\ E <= e /\
    Zpos mx * 2 ^ (ex - u) <= Zpos m * 2 ^ (e - u).
Proof.
  intros Hal Hcx Hu1 Hu2 Hle.
  destruct (round_ge sx M E mx ex u Hal Hcx Hu1 Hu2 Hle)
    as [m [e [Hcan [HEe [Hval Hres]]]]].
  rewrite Hres. destruct (Z.leb_spec e (emax - prec)) as [Hfit | Hover].
  - right. exists m, e. split; [reflexivity |].
    split; [apply bounded_iff; split; [exact Hcan | exact Hfit] |].
    split; assumption.
  - left. reflexivity.
Qed.

Lemma round_lt_succ_cases (sx : bool) (M : positive) (E u : Z) :
  E <= fexp64 (dig M + E) ->
  u <= E ->
  binary_round_aux prec emax sx (Zpos M) E loc_Exact = S754_zero sx \/
  binary_round_aux prec emax sx (Zpos M) E loc_Exact = S754_infinity sx \/
  exists m e,
    binary_round_aux prec emax sx (Zpos M) E loc_Exact = S754_finite sx m e /\
    Zpos M * 2 ^ (E - u) < (Zpos m + 1) * 2 ^ (e - u).
Proof.
  intros Hal Hu.
  destruct (round_lt_succ sx M E u Hal Hu)
    as [Hz | [m [e [Hcan [HEe [Hval Hres]]]]]]; [left; exact Hz |].
  right. rewrite Hres. destruct (Z.leb_spec e (emax - prec)) as [Hfit | Hover].
  - right. exists m, e. split; [reflexivity | exact Hval].
  - left. reflexivity.
Qed.

(** The result of rounding a positive mantissa carries the sign it was
    given, and is never NaN. *)
Lemma shr_1_nonneg (mrs : shr_record) : 0 <= shr_m mrs -> 0 <= shr_m (shr_1 mrs).
Proof.
  intros H. rewrite shr_1_m by exact H. apply Z.div_pos; lia.
Qed.

Lemma shr_nonneg (mrs : shr_record) (e n : Z) :
  0 <= shr_m mrs -> 0 <= shr_m (fst (shr mrs e n)).
Proof.
  intros H. destruct n as [| p | p]; cbn [shr fst]; try exact H.
  rewrite iter_pos_nat.
  induction (Pos.to_nat p) as [| k IH]; [exact H |].
  rewrite Nat.iter_succ. now apply shr_1_nonneg.
Qed.

Lemma round_sign (sx : bool) (M : positive) (E : Z) :
  binary_round_aux prec emax sx (Zpos M) E loc_Exact = S754_zero sx \/
  binary_round_aux prec emax sx (Zpos M) E loc_Exact = S754_infinity sx \/
  exists m e,
    binary_round_aux prec emax sx (Zpos M) E loc_Exact = S754_finite sx m e.
Proof.
  rewrite binary_round_aux_unfold. cbv zeta.
  set (r1 := shr (shr_record_of_loc (Zpos M) loc_Exact) E
                 (fexp64 (Zdigits2 (Zpos M) + E) - E)).
  assert (0 <= shr_m (fst r1)) as H1 by (apply shr_nonneg; cbn; lia).
  pose proof (rne_bounds (shr_m (fst r1)) (loc_of_shr_record (fst r1))) as Hr.
  set (m1 := round_nearest_even (shr_m (fst r1)) (loc_of_shr_record (fst r1))) in *.
  set (r2 := shr (Build_shr_record m1 false false) (snd r1)
                 (fexp64 (Zdigits2 m1 + snd r1) - snd r1)).
  assert (0 <= shr_m (fst r2)) as H2 by (apply shr_nonneg; cbn; lia).
  unfold finish. destruct (shr_m (fst r2)) as [| q | q]; [left; reflexivity | | lia].
  right. destruct (snd r2 <=? emax - prec); [right; eexists; eexists |  left];
    reflexivity.
Qed.

(** ** Integers and products, in a unit small enough for every double *)

Section Units.

Variable h : Z.
Hypothesis Hh : h <= -1074.

Lemma same_value_unit (n : Z) (mx : positive) (ex : Z) :
  -1074 <= ex -> same_value n mx ex ->
  Zpos mx * 2 ^ (ex - (h + h)) = n * 2 ^ (0 - (h + h)).
Proof.
  unfold same_value. intros Hex Hsv.
  destruct (Z.le_gt_cases 0 ex) as [Hpos | Hneg].
  - rewrite Z.max_l, Z.max_r in Hsv by lia.
    cbn [Z.pow] in Hsv. rewrite Z.mul_1_r in Hsv. subst n.
    replace (ex - (h + h)) with (ex + (0 - (h + h))) by lia.
    rewrite pow2_split by lia. ring.
  - rewrite Z.max_r, Z.max_l in Hsv by lia.
    cbn [Z.pow] in Hsv. rewrite Z.mul_1_r in Hsv. rewrite <- Hsv.
    replace (0 - (h + h)) with (- ex + (ex - (h + h))) by lia.
    rewrite pow2_split by lia. ring.
Qed.

(** [float(n)] of a representable [n] is [n]. *)
Lemma int_round_exact (sx : bool) (p mx : positive) (ex : Z) :
  bounded prec emax mx ex = true -> same_value (Zpos p) mx ex ->
  exists m e,
    binary_round prec emax sx p 0 = S754_finite sx m e /\
    bounded prec emax m e = true /\
    Zpos m * 2 ^ (e - (h + h)) = Zpos p * 2 ^ (0 - (h + h)).
Proof.
  intros Hb Hsv.
  pose proof (proj1 (bounded_iff mx ex) Hb) as [Hcx Hex].
  pose proof (canonical_dig mx ex Hcx) as [_ Hlow].
  pose proof (same_value_unit (Zpos p) mx ex Hlow Hsv) as HX.
  destruct (binary_round_aligned sx p 0) as [mz [ez [Hz0 [Hzl [Hmz [Hal Hbr]]]]]].
  assert (Zpos mz * 2 ^ (ez - (h + h)) = Zpos p * 2 ^ (0 - (h + h))) as HM.
  { rewrite Hmz.
    replace (0 - (h + h)) with ((0 - ez) + (ez - (h + h))) by lia.
    rewrite pow2_split by lia. ring. }
  rewrite Hbr.
  destruct (round_le sx mz ez mx ex (h + h) Hal Hb ltac:(lia) ltac:(lia)
              ltac:(lia)) as [Hzero | [m [e [Hfin [Hbm [Hee Hle]]]]]];
    destruct (round_ge_cases sx mz ez mx ex (h + h) Hal Hcx ltac:(lia)
                ltac:(lia) ltac:(lia)) as [Hinf | [m' [e' [Hfin' [_ [_ Hge]]]]]];
    try congruence.
  rewrite Hfin in Hfin'. injection Hfin' as <- <-.
  exists m, e. repeat split; try assumption. lia.
Qed.

(** [float(n)] of any [n >= 1] is a normal double, and [n] is below the
    double after it. *)
Lemma int_round_ge1 (sx : bool) (p : positive) :
  binary_round prec emax sx p 0 = S754_infinity sx \/
  exists m e,
    binary_round prec emax sx p 0 = S754_finite sx m e /\
    bounded prec emax m e = true /\ dig m = 53 /\
    Zpos p * 2 ^ (0 - (h + h)) < (Zpos m + 1) * 2 ^ (e - (h + h)).
Proof.
  destruct (binary_round_aligned sx p 0) as [mz [ez [Hz0 [Hzl [Hmz [Hal Hbr]]]]]].
  assert (Zpos mz * 2 ^ (ez - (h + h)) = Zpos p * 2 ^ (0 - (h + h))) as HM.
  { rewrite Hmz.
    replace (0 - (h + h)) with ((0 - ez) + (ez - (h + h))) by lia.
    rewrite pow2_split by lia. ring. }
  rewrite Hbr.
  pose proof (pow2_pos (0 - (h + h)) ltac:(lia)) as Hpu.
  assert (Zpos 4503599627370496 * 2 ^ (-52 - (h + h))
          <= Zpos mz * 2 ^ (ez - (h + h))) as Hone.
  { rewrite HM. change (Zpos 4503599627370496) with (2 ^ 52).
    rewrite <- pow2_split by lia.
    replace (52 + (-52 - (h + h))) with (0 - (h + h)) by lia.
    apply Z.le_trans with (1 * 2 ^ (0 - (h + h))); [lia |].
    apply Z.mul_le_mono_nonneg_r; lia. }
  destruct (round_ge_cases sx mz ez 4503599627370496 (-52) (h + h) Hal
              ltac:(reflexivity) ltac:(lia) ltac:(lia) Hone)
    as [Hinf | [m [e [Hfin [Hbm [Hee Hge]]]]]]; [left; exact Hinf |].
  right. exists m, e. split; [exact Hfin |]. split; [exact Hbm |].
  pose proof (proj1 (bounded_iff m e) Hbm) as [Hcan He].
  pose proof (canonical_dig m e Hcan) as [Hd53 Hlow].
  split.
  - destruct (Z.eq_dec (dig m) 53) as [Heq | Hne]; [exact Heq | exfalso].
    assert (e = -1074) as -> by (rewrite fexp64_eq in Hcan; lia).
    pose proof (dig_bounds m) as [_ Hhi].
    assert (2 ^ dig m <= 2 ^ 52) by (apply Z.pow_le_mono_r; lia).
    change (Zpos 4503599627370496) with (2 ^ 52) in Hge.
    rewrite <- pow2_split in Hge by lia.
    pose proof (pow2_pos (-1074 - (h + h)) ltac:(lia)) as Hp2.
    assert (Zpos m * 2 ^ (-1074 - (h + h)) < 2 ^ 52 * 2 ^ (-1074 - (h + h)))
      by (apply Z.mul_lt_mono_pos_r; lia).
    rewrite <- pow2_split in H0 by lia.
    assert (2 ^ (52 + (-52 - (h + h))) < 2 ^ (52 + (-1074 - (h + h)))) as Hlt by lia.
    apply Z.pow_lt_mono_r_iff in Hlt; lia.
  - destruct (round_lt_succ_cases sx mz ez (h + h) Hal ltac:(lia))
      as [Hzero | [Hinf | [m' [e' [Hfin' Hlt]]]]];
      [congruence | congruence |].
    rewrite Hfin in Hfin'. injection Hfin' as <- <-.
    rewrite <- HM. exact Hlt.
Qed.

(** A product by a ratio of at most one stays under the bound of the
    other factor. *)
Lemma mul_value_le (m1 my mx : positive) (e1 ey ex : Z) :
  h <= e1 -> h <= ey -> h + h <= ex ->
  Zpos m1 * 2 ^ (e1 - (h + h)) <= Zpos mx * 2 ^ (ex - (h + h)) ->
  Zpos my * 2 ^ (ey - h) <= 2 ^ (0 - h) ->
  Zpos (m1 * my) * 2 ^ (e1 + ey - (h + h)) <= Zpos mx * 2 ^ (ex - (h + h)).
Proof.
  intros H1 Hy Hx Hle Hr.
  replace (e1 + ey - (h + h)) with ((e1 - h) + (ey - h)) by lia.
  replace (e1 - (h + h)) with ((e1 - h) + (0 - h)) in Hle by lia.
  rewrite pow2_split in * by lia. rewrite Pos2Z.inj_mul.
  pose proof (pow2_pos (e1 - h) ltac:(lia)) as Hp1.
  pose proof (pow2_pos (ey - h) ltac:(lia)) as Hp2.
  apply Z.le_trans with (Zpos m1 * (2 ^ (e1 - h) * 2 ^ (0 - h))); [| exact Hle].
  replace (Zpos m1 * Zpos my * (2 ^ (e1 - h) * 2 ^ (ey - h)))
    with (Zpos m1 * 2 ^ (e1 - h) * (Zpos my * 2 ^ (ey - h))) by ring.
  rewrite (Z.mul_assoc (Zpos m1) (2 ^ (e1 - h)) (2 ^ (0 - h))).
  apply Z.mul_le_mono_nonneg_l; [| exact Hr].
  apply Z.mul_nonneg_nonneg; lia.
Qed.

(** A product of a normal double by a ratio above one reaches the next
    double. *)
Lemma mul_value_ge_succ (m1 my : positive) (e1 ey : Z) :
  h <= e1 -> h <= ey -> 2 ^ 52 <= Zpos m1 ->
  (2 ^ 52 + 1) * 2 ^ (-52 - h) <= Zpos my * 2 ^ (ey - h) ->
  (Zpos m1 + 1) * 2 ^ (e1 - (h + h)) <=
    Zpos (m1 * my) * 2 ^ (e1 + ey - (h + h)).
Proof.
  intros H1 Hy Hn Hr.
  replace (e1 + ey - (h + h)) with ((e1 - h) + (ey - h)) by lia.
  replace (e1 - (h + h)) with ((e1 - h) + (52 + (-52 - h))) by lia.
  rewrite !pow2_split by lia. rewrite Pos2Z.inj_mul.
  pose proof (pow2_pos (e1 - h) ltac:(lia)) as Hp1.
  pose proof (pow2_pos (-52 - h) ltac:(lia)) as Hp2.
  apply Z.le_trans with
    (Zpos m1 * 2 ^ (e1 - h) * ((2 ^ 52 + 1) * 2 ^ (-52 - h))).
  - replace ((Zpos m1 + 1) * (2 ^ (e1 - h) * (2 ^ 52 * 2 ^ (-52 - h))))
      with (2 ^ (e1 - h) * 2 ^ (-52 - h) * ((Zpos m1 + 1) * 2 ^ 52)) by ring.
    replace (Zpos m1 * 2 ^ (e1 - h) * ((2 ^ 52 + 1) * 2 ^ (-52 - h)))
      with (2 ^ (e1 - h) * 2 ^ (-52 - h) * (Zpos m1 * (2 ^ 52 + 1))) by ring.
    apply Z.mul_le_mono_nonneg_l; [apply Z.mul_nonneg_nonneg; lia |].
    lia.
  - replace (Zpos m1 * Zpos my * (2 ^ (e1 - h) * 2 ^ (ey - h)))
      with (Zpos m1 * 2 ^ (e1 - h) * (Zpos my * 2 ^ (ey - h))) by ring.
    apply Z.mul_le_mono_nonneg_l; [| exact Hr].
    apply Z.mul_nonneg_nonneg; lia.
Qed.

End Units.

(** ** Ratios against one *)

Section Ratios.

Variable h : Z.
Hypothesis Hh : h <= -1074.

Lemma ratio_le_one (my : positive) (ey : Z) :
  bounded prec emax my ey = true ->
  fleb (S754_finite false my ey) f_one = true ->
  Zpos my * 2 ^ (ey - h) <= 2 ^ (0 - h).
Proof.
  intros Hb Hle. apply bounded_iff in Hb as [Hcan _].
  pose proof (canonical_dig my ey Hcan) as [Hd Hlow].
  pose proof (dig_bounds my) as [_ Hhi].
  pose proof (pow2_pos (ey - h) ltac:(lia)) as Hp.
  unfold fleb, SFleb, SFcompare, f_one in Hle.
  destruct (Z.compare_spec ey (-52)) as [Heq | Hlt | Hgt]; [| | discriminate].
  - subst ey.
    rewrite (Pos.compare_cont_spec my 4503599627370496 Eq) in Hle.
    destruct (Pos.compare_spec my 4503599627370496) as [He | Hl | Hg];
      [| | discriminate].
    + subst my. change (Zpos 4503599627370496) with (2 ^ 52).
      rewrite <- pow2_split by lia.
      replace (52 + (-52 - h)) with (0 - h) by lia. lia.
    + apply Pos2Z.pos_lt_pos in Hl.
      assert (Zpos my <= 2 ^ 52) as Hm
        by (change (2 ^ 52) with 4503599627370496; lia).
      apply Z.le_trans with (2 ^ 52 * 2 ^ (-52 - h)).
      * apply Z.mul_le_mono_nonneg_r; lia.
      * rewrite <- pow2_split by lia.
        replace (52 + (-52 - h)) with (0 - h) by lia. lia.
  - assert (Zpos my <= 2 ^ 53) as Hm.
    { apply Z.lt_le_incl, Z.lt_le_trans with (2 ^ dig my); [exact Hhi |].
      apply Z.pow_le_mono_r; lia. }
    apply Z.le_trans with (2 ^ 53 * 2 ^ (ey - h)).
    + apply Z.mul_le_mono_nonneg_r; lia.
    + rewrite <- pow2_split by lia. apply Z.pow_le_mono_r; lia.
Qed.

Lemma ratio_gt_one (my : positive) (ey : Z) :
  bounded prec emax my ey = true ->
  fltb f_one (S754_finite false my ey) = true ->
  (2 ^ 52 + 1) * 2 ^ (-52 - h) <= Zpos my * 2 ^ (ey - h).
Proof.
  intros Hb Hlt. apply bounded_iff in Hb as [Hcan _].
  pose proof (canonical_dig my ey Hcan) as [Hd Hlow].
  pose proof (dig_bounds my) as [Hlo _].
  pose proof (pow2_pos (-52 - h) ltac:(lia)) as Hp.
  unfold fltb, SFltb, SFcompare, f_one in Hlt.
  destruct (Z.compare_spec (-52) ey) as [Heq | Hl | Hg]; [| | discriminate].
  - subst ey.
    rewrite (Pos.compare_cont_spec 4503599627370496 my Eq) in Hlt.
    destruct (Pos.compare_spec 4503599627370496 my) as [He | Hl | Hg];
      try discriminate.
    apply Pos2Z.pos_lt_pos in Hl.
    apply Z.mul_le_mono_nonneg_r; [lia |].
    change (2 ^ 52) with 4503599627370496. lia.
  - assert (dig my = 53) as Hd53 by (rewrite fexp64_eq in Hcan; lia).
    rewrite Hd53 in Hlo. change (53 - 1) with 52 in Hlo.
    replace (ey - h) with ((ey + 51) + 1 + (-52 - h)) by lia.
    rewrite !pow2_split by lia. change (2 ^ 1) with 2.
    pose proof (pow2_pos (ey + 51) ltac:(lia)) as Hp1.
    rewrite !Z.mul_assoc. apply Z.mul_le_mono_nonneg_r; [lia |].
    apply Z.le_trans with (2 ^ 52 * 1 * 2); [cbn; lia |].
    apply Z.mul_le_mono_nonneg_r; [lia |].
    apply Z.mul_le_mono_nonneg; lia.
Qed.

End Ratios.

(** Every integer of magnitude at most [2^53] is a double. *)
Lemma representable_small (n : Z) : Z.abs n <= 2 ^ 53 -> representable n.
Proof.
  intros Hn. unfold representable.
  destruct (Z.eq_dec n 0) as [-> | Hne]; [left; reflexivity | right].
  destruct (Z.eq_dec (Z.abs n) (2 ^ 53)) as [Hmax | Hlt].
  - exists 4503599627370496%positive, 1. split; [reflexivity |].
    unfold same_value. rewrite Hmax. reflexivity.
  - destruct (Z.abs n) as [| p | p] eqn:Hp; [lia | | lia].
    assert (dig p <= 53) as Hd.
    { pose proof (dig_bounds p) as [Hlo _].
      destruct (Z.le_gt_cases (dig p) 53) as [H | H]; [exact H |].
      assert (2 ^ 53 <= 2 ^ (dig p - 1)) by (apply Z.pow_le_mono_r; lia). lia. }
    pose proof (dig_pos p) as Hd1.
    destruct (shl_align_spec p 0) as [mz [ez [_ [Hz0 [Hzl [Hmz [_ Hcan]]]]]]].
    assert (fexp64 (dig mz + ez) = ez) as Hc.
    { apply Hcan. rewrite fexp64_eq. lia. }
    exists mz, ez. split.
    + apply bounded_iff. split; [exact Hc | lia].
    + unfold same_value. rewrite (Z.max_r 0 (- ez)), (Z.max_l 0 ez) by lia.
      cbn [Z.pow]. rewrite Z.mul_1_r, Hmz.
      replace (0 - ez) with (- ez) by lia. reflexivity.
Qed.

(** ** The target of line 74 *)

Lemma float_of_int_pos (p : positive) :
  float_of_int (Zpos p) =
    match binary_round prec emax false p 0 with
    | S754_infinity _ => Raise OverflowError
    | f => Ok f
    end.
Proof. reflexivity. Qed.

Lemma float_of_int_neg (p : positive) :
  float_of_int (Zneg p) =
    match binary_round prec emax true p 0 with
    | S754_infinity _ => Raise OverflowError
    | f => Ok f
    end.
Proof. reflexivity. Qed.

Lemma fmul_finite (s1 s2 : bool) (m1 m2 : positive) (e1 e2 : Z) :
  fmul (S754_finite s1 m1 e1) (S754_finite s2 m2 e2) =
  binary_round_aux prec emax (xorb s1 s2) (Zpos (m1 * m2)) (e1 + e2) loc_Exact.
Proof. reflexivity. Qed.

(** A double in [[0, 1]] is a zero or a positive finite double of value at
    most one. *)
Lemma unit_interval_cases (r : float) :
  in_unit_interval r = true ->
  (exists s, r = S754_zero s) \/
  exists my ey,
    r = S754_finite false my ey /\ bounded prec emax my ey = true /\
    fleb r f_one = true.
Proof.
  unfold in_unit_interval. intros H.
  apply andb_true_iff in H as [H H1]. apply andb_true_iff in H as [Hf H0].
  destruct r as [s | s | | s my ey].
  - left. now exists s.
  - destruct s; discriminate.
  - discriminate.
  - right. destruct s; [discriminate |].
    exists my, ey. repeat split; assumption.
Qed.

(** Multiplying a double by a ratio of magnitude at most one never
    increases its magnitude, and never overflows. *)
Lemma fmul_ratio_le (sx sy : bool) (m1 my : positive) (e1 ey : Z) :
  bounded prec emax m1 e1 = true ->
  bounded prec emax my ey = true ->
  fleb (S754_finite false my ey) f_one = true ->
  fmul (S754_finite sx m1 e1) (S754_finite sy my ey) = S754_zero (xorb sx sy) \/
  exists m e,
    fmul (S754_finite sx m1 e1) (S754_finite sy my ey)
      = S754_finite (xorb sx sy) m e /\
    bounded prec emax m e = true /\
    Zpos m * 2 ^ (e - -2148) <= Zpos m1 * 2 ^ (e1 - -2148).
Proof.
  intros Hb1 Hby Hle1. rewrite fmul_finite.
  pose proof (proj1 (bounded_iff m1 e1) Hb1) as [Hc1 _].
  pose proof (proj1 (bounded_iff my ey) Hby) as [Hcy _].
  pose proof (canonical_dig m1 e1 Hc1) as [_ Hl1].
  pose proof (canonical_dig my ey Hcy) as [_ Hly].
  pose proof (mul_aligned m1 my e1 ey Hc1 Hcy) as Hal.
  pose proof (ratio_le_one (-1074) ltac:(lia) my ey Hby Hle1) as Hr.
  assert (Zpos (m1 * my) * 2 ^ (e1 + ey - -2148) <= Zpos m1 * 2 ^ (e1 - -2148))
    as Hprod.
  { apply (mul_value_le (-1074) ltac:(lia) m1 my m1 e1 ey e1); lia. }
  destruct (round_le (xorb sx sy) (m1 * my) (e1 + ey) m1 e1 (-2148) Hal Hb1
              ltac:(lia) ltac:(lia) Hprod)
    as [Hz | [m [e [Hfin [Hbm [Hee Hval]]]]]]; [left; exact Hz |].
  right. exists m, e. repeat split; assumption.
Qed.

(** [float(n)] of a representable [n] is the double of value [n]. *)
Lemma float_of_int_representable (n : Z) :
  representable n -> n <> 0 ->
  exists m e,
    float_of_int n = Ok (S754_finite (n <? 0) m e) /\
    bounded prec emax m e = true /\
    Zpos m * 2 ^ (e - -2148) = Z.abs n * 2 ^ (0 - -2148).
Proof.
  intros [H0 | [mx [ex [Hb Hsv]]]] Hne; [contradiction |].
  destruct n as [| p | p]; [contradiction | |].
  - destruct (int_round_exact (-1074) ltac:(lia) false p mx ex Hb Hsv)
      as [m [e [Hx [Hbm Hv]]]].
    exists m, e. rewrite float_of_int_pos, Hx. repeat split; assumption.
  - destruct (int_round_exact (-1074) ltac:(lia) true p mx ex Hb Hsv)
      as [m [e [Hx [Hbm Hv]]]].
    exists m, e. rewrite float_of_int_neg, Hx. repeat split; assumption.
Qed.

Lemma valid_target_zero_records (r : float) :
  valid_target 0 r = math_floor (fmul (S754_zero false) r).
Proof. reflexivity. Qed.

(** Line 74 on a representable count and a ratio in [[0, 1]]: a target
    between zero and the count. *)
Lemma valid_target_unit_interval (n : Z) (r : float) :
  0 <= n -> representable n -> in_unit_interval r = true ->
  exists vt, valid_target n r = Ok vt /\ 0 <= vt <= n.
Proof.
  intros Hn Hrep Hr.
  destruct (Z.eq_dec n 0) as [-> | Hne].
  - exists 0. rewrite valid_target_zero_records.
    destruct (unit_interval_cases r Hr) as [[s ->] | [my [ey [-> _]]]];
      (split; [reflexivity | lia]).
  - destruct (float_of_int_representable n Hrep Hne) as [m1 [e1 [Hx [Hb1 Hv1]]]].
    replace (n <? 0) with false in Hx by (symmetry; apply Z.ltb_ge; lia).
    rewrite Z.abs_eq in Hv1 by lia.
    unfold valid_target. rewrite Hx. cbn [bind].
    destruct (unit_interval_cases r Hr) as [[s ->] | [my [ey [-> [Hby Hle1]]]]].
    + exists 0. split; [reflexivity | lia].
    + destruct (fmul_ratio_le false false m1 my e1 ey Hb1 Hby Hle1)
        as [Hz | [m [e [Hfin [Hbm Hval]]]]].
      * rewrite Hz. exists 0. split; [reflexivity | lia].
      * rewrite Hfin. cbn [math_floor xorb cond_Zopp].
        eexists. split; [reflexivity |].
        pose proof (proj1 (bounded_iff m e) Hbm) as [Hcm _].
        pose proof (canonical_dig m e Hcm) as [_ Hlm].
        split; [apply shiftl_nonneg |].
        apply (shiftl_le (Zpos m) e (-2148) n); lia.
Qed.

(** Line 74 is defined on every representable count and every finite ratio
    of magnitude at most one. *)
Lemma valid_target_defined (n : Z) (r : float) :
  representable n -> is_float r = true -> fleb (SFabs r) f_one = true ->
  exists vt, valid_target n r = Ok vt.
Proof.
  intros Hrep Hf Hr.
  destruct (Z.eq_dec n 0) as [-> | Hne].
  - rewrite valid_target_zero_records.
    destruct r as [s | s | | s my ey]; try discriminate;
      eexists; reflexivity.
  - destruct (float_of_int_representable n Hrep Hne) as [m1 [e1 [Hx [Hb1 Hv1]]]].
    unfold valid_target. rewrite Hx. cbn [bind].
    destruct r as [s | s | | s my ey]; try discriminate.
    + eexists; reflexivity.
    + destruct (fmul_ratio_le (n <? 0) s m1 my e1 ey Hb1 Hf Hr)
        as [Hz | [m [e [Hfin _]]]].
      * rewrite Hz. eexists; reflexivity.
      * rewrite Hfin. eexists; reflexivity.
Qed.

(** The double after a normal double. *)
Lemma succ_double (m1 : positive) (e1 : Z) :
  fexp64 (dig m1 + e1) = e1 -> dig m1 = 53 ->
  exists ms es,
    fexp64 (dig ms + es) = es /\ e1 <= es /\
    Zpos ms * 2 ^ (es - -2148) = (Zpos m1 + 1) * 2 ^ (e1 - -2148).
Proof.
  intros Hc Hd.
  pose proof (dig_bounds m1) as [Hlo Hhi]. rewrite Hd in Hlo, Hhi.
  change (53 - 1) with 52 in Hlo.
  pose proof (canonical_dig m1 e1 Hc) as [_ Hl1].
  destruct (Z.eq_dec (Zpos m1 + 1) (2 ^ 53)) as [Htop | Hin].
  - exists 4503599627370496%positive, (e1 + 1).
    change (dig 4503599627370496) with 53.
    split; [rewrite fexp64_eq in *; lia |]. split; [lia |].
    rewrite Htop. change (Zpos 4503599627370496) with (2 ^ 52).
    replace (e1 + 1 - -2148) with (1 + (e1 - -2148)) by lia.
    rewrite pow2_split by lia. change (2 ^ 53) with (2 ^ 52 * 2 ^ 1). ring.
  - exists (Pos.succ m1), e1.
    assert (dig (Pos.succ m1) = 53) as Hds.
    { apply dig_unique. rewrite Pos2Z.inj_succ. change (53 - 1) with 52. lia. }
    rewrite Hds, <- Hd. split; [exact Hc |]. split; [lia |].
    rewrite Pos2Z.inj_succ. reflexivity.
Qed.

(** Line 74 with a ratio above one: a target of at least the count. *)
Lemma valid_target_ratio_above_one (n : Z) (r : float) (vt : Z) :
  0 <= n -> is_float r = true -> fltb f_one r = true ->
  valid_target n r = Ok vt -> n <= vt.
Proof.
  intros Hn Hf Hr Hvt.
  destruct n as [| p | p]; [| | lia].
  - rewrite valid_target_zero_records in Hvt.
    destruct r as [s | [|] | | [|] my ey]; try discriminate.
    cbn in Hvt. injection Hvt as <-. lia.
  - unfold valid_target in Hvt. rewrite float_of_int_pos in Hvt.
    destruct (int_round_ge1 (-1074) ltac:(lia) false p)
      as [Hinf | [m1 [e1 [Hx [Hb1 [Hd1 Hlt]]]]]].
    { rewrite Hinf in Hvt. discriminate. }
    change (-1074 + -1074) with (-2148) in Hlt.
    rewrite Hx in Hvt. cbn [bind] in Hvt.
    destruct r as [s | [|] | | [|] my ey]; try discriminate.
    rewrite fmul_finite in Hvt. cbn [xorb] in Hvt.
    pose proof (proj1 (bounded_iff m1 e1) Hb1) as [Hc1 _].
    pose proof (proj1 (bounded_iff my ey) Hf) as [Hcy _].
    pose proof (canonical_dig m1 e1 Hc1) as [_ Hl1].
    pose proof (canonical_dig my ey Hcy) as [_ Hly].
    pose proof (mul_aligned m1 my e1 ey Hc1 Hcy) as Hal.
    pose proof (ratio_gt_one (-1074) ltac:(lia) my ey Hf Hr) as Hratio.
    pose proof (dig_bounds m1) as [Hlo1 _]. rewrite Hd1 in Hlo1.
    change (53 - 1) with 52 in Hlo1.
    pose proof (mul_value_ge_succ (-1074) ltac:(lia) m1 my e1 ey
                  ltac:(lia) ltac:(lia) Hlo1 Hratio) as Hprod.
    change (-1074 + -1074) with (-2148) in Hprod.
    destruct (succ_double m1 e1 Hc1 Hd1) as [ms [es [Hcs [Hes Hvs]]]].
    rewrite <- Hvs in Hprod, Hlt.
    destruct (round_ge_cases false (m1 * my) (e1 + ey) ms es (-2148) Hal Hcs
                ltac:(lia) ltac:(lia) Hprod)
      as [Hinf | [m [e [Hfin [Hbm [Hee Hge]]]]]].
    { rewrite Hinf in Hvt. discriminate. }
    rewrite Hfin in Hvt. cbn [math_floor cond_Zopp] in Hvt.
    injection Hvt as <-.
    apply (shiftl_ge (Zpos m) e (-2148) (Zpos p)); lia.
Qed.

(** Line 74 with a negative ratio: a target of at most zero. *)
Lemma valid_target_negative_ratio (n : Z) (r : float) (vt : Z) :
  0 <= n -> fltb r f_zero = true -> valid_target n r = Ok vt -> vt <= 0.
Proof.
  intros Hn Hr Hvt.
  destruct n as [| p | p]; [| | lia].
  - rewrite valid_target_zero_records in Hvt.
    destruct r as [s | [|] | | [|] my ey]; try discriminate.
    cbn in Hvt. injection Hvt as <-. lia.
  - unfold valid_target in Hvt. rewrite float_of_int_pos in Hvt.
    destruct (binary_round_aligned false p 0) as [mz [ez [_ [_ [_ [_ Hbr]]]]]].
    rewrite Hbr in Hvt.
    destruct (round_sign false mz ez) as [Hx | [Hx | [m1 [e1 Hx]]]];
      rewrite Hx in Hvt; cbn [bind] in Hvt; [| discriminate |].
    + destruct r as [s | [|] | | [|] my ey]; try discriminate.
      cbn in Hvt. injection Hvt as <-. lia.
    + destruct r as [s | [|] | | [|] my ey]; try discriminate.
      rewrite fmul_finite in Hvt. cbn [xorb] in Hvt.
      destruct (round_sign true (m1 * my) (e1 + ey)) as [Hy | [Hy | [m [e Hy]]]];
        rewrite Hy in Hvt; cbn [math_floor cond_Zopp Z.opp] in Hvt;
        [| discriminate |]; injection Hvt as <-; [lia |].
      apply shiftl_nonpos.
Qed.

End PyFloatFacts.

(** ** Pools *)

Lemma cyclic_valid_in_pool (i : Z) :
  in_pool VALID_PHONES (cyclic VALID_PHONES i) = true.
Proof.
  unfold cyclic. change (Z.of_nat (List.length VALID_PHONES)) with 5%Z.
  pose proof (Z.mod_pos_bound i 5 ltac:(lia)) as Hb.
  assert (Z.to_nat (i mod 5) < 5)%nat as Hk by lia.
  destruct (Z.to_nat (i mod 5)) as [| [| [| [| [| k]]]]]; try reflexivity. lia.
Qed.

Lemma cyclic_invalid_not_in_pool (i : Z) :
  in_pool VALID_PHONES (cyclic INVALID_PHONES i) = false.
Proof.
  unfold cyclic. change (Z.of_nat (List.length INVALID_PHONES)) with 6%Z.
  pose proof (Z.mod_pos_bound i 6 ltac:(lia)) as Hb.
  assert (Z.to_nat (i mod 6) < 6)%nat as Hk by lia.
  destruct (Z.to_nat (i mod 6)) as [| [| [| [| [| [| k]]]]]]; try reflexivity. lia.
Qed.

(** ** Mixed mode *)

Lemma row_at_mixed (a : Namespace) (target i : Z) :
  mode a = "mixed" ->
  row_at a target i =
    if (i <? target)%Z then valid_shaped_row a i else invalid_row a i.
Proof. intros Hm. unfold row_at. rewrite Hm. reflexivity. Qed.

Lemma row_at_mixed_phone (a : Namespace) (target i : Z) :
  mode a = "mixed" ->
  in_pool VALID_PHONES (phone_of (row_at a target i)) = (i <? target)%Z.
Proof.
  intros Hm. rewrite row_at_mixed by exact Hm.
  destruct (i <? target)%Z.
  - apply cyclic_valid_in_pool.
  - apply cyclic_invalid_not_in_pool.
Qed.

(** The rows with a phone of the valid pool are the rows below the target. *)
Lemma mixed_count (a : Namespace) (target : Z) (n : nat) :
  mode a = "mixed" ->
  count_valid_phones (map (row_at a target) (map Z.of_nat (seq 0 n))) =
  Z.min (Z.of_nat n) (Z.max 0 target).
Proof.
  intros Hm. unfold count_valid_phones.
  induction n as [| n IH]; [cbn; lia |].
  rewrite indices_succ, map_app, filter_app, length_app, Nat2Z.inj_add, IH.
  cbn [map filter]. rewrite row_at_mixed_phone by exact Hm.
  destruct (Z.ltb_spec (Z.of_nat n) target); cbn [List.length]; lia.
Qed.

Lemma mixed_count_range (a : Namespace) (target : Z) :
  mode a = "mixed" -> (0 <= records a)%Z ->
  count_valid_phones (map (row_at a target) (range (records a))) =
  Z.min (records a) (Z.max 0 target).
Proof.
  intros Hm Hn. unfold range. rewrite mixed_count by exact Hm.
  rewrite Z2Nat.id by exact Hn. reflexivity.
Qed.

Lemma build_rows_mixed (G : RandomGen) (a : Namespace) (s : rng_state G)
      (target : Z) :
  mode a = "mixed" ->
  valid_target (records a) (valid_ratio a) = Ok target ->
  build_rows G a s = Ok (header :: map (row_at a target) (range (records a)), s).
Proof.
  intros Hm Ht. apply build_rows_deterministic; [| exact Ht].
  unfold deterministic_mode. rewrite Hm. reflexivity.
Qed.

(** C2, as amended.  In mixed mode, for a record count [n >= 0] that a double
    represents exactly (every [n <= 2^53] is one) and a ratio in [[0, 1]],
    line 74 gives a target [floor(n * ratio)] between [0] and [n]; exactly that
    many data rows carry a phone of the valid pool, they are the first rows,
    valid-shaped, and every row after them is invalid-shaped. *)
Theorem mixed_mode_split (G : RandomGen) (a : Namespace) (s : rng_state G) :
  mode a = "mixed" ->
  (0 <= records a)%Z ->
  PyFloat.representable (records a) ->
  PyFloat.in_unit_interval (valid_ratio a) = true ->
  exists target data,
    valid_target (records a) (valid_ratio a) = Ok target /\
    build_rows G a s = Ok (header :: data, s) /\
    (0 <= target <= records a)%Z /\
    count_valid_phones data = target /\
    forall i, (0 <= i < records a)%Z ->
      exists r,
        nth_error data (Z.to_nat i) = Some r /\
        ((i < target)%Z ->
         r = valid_shaped_row a i /\ in_pool VALID_PHONES (phone_of r) = true) /\
        ((target <= i)%Z ->
         r = invalid_row a i /\ in_pool VALID_PHONES (phone_of r) = false).
Proof.
  intros Hm Hn Hrep Hr.
  destruct (PyFloatFacts.valid_target_unit_interval _ _ Hn Hrep Hr)
    as [target [Ht Hb]].
  exists target, (map (row_at a target) (range (records a))).
  split; [exact Ht |]. split; [now apply build_rows_mixed |].
  split; [exact Hb |]. split.
  - rewrite mixed_count_range by assumption. lia.
  - intros i Hi. exists (row_at a target i).
    split; [now apply range_nth_error |].
    pose proof (row_at_mixed_phone a target i Hm) as Hp.
    rewrite row_at_mixed in * by exact Hm.
    split; intros Hlt.
    + destruct (Z.ltb_spec i target); [| lia]. split; [reflexivity | exact Hp].
    + destruct (Z.ltb_spec i target); [lia |]. split; [reflexivity | exact Hp].
Qed.

Lemma mixed_mode_split_witness :
  exists target data,
    valid_target 7 PyFloat.f_half = Ok target /\
    build_rows lcg_gen (sample_args "mixed" 7 PyFloat.f_half) 42%Z
      = Ok (header :: data, 42%Z) /\
    (0 <= target <= 7)%Z /\
    count_valid_phones data = target /\
    forall i, (0 <= i < 7)%Z ->
      exists r,
        nth_error data (Z.to_nat i) = Some r /\
        ((i < target)%Z ->
         r = valid_shaped_row (sample_args "mixed" 7 PyFloat.f_half) i /\
         in_pool VALID_PHONES (phone_of r) = true) /\
        ((target <= i)%Z ->
         r = invalid_row (sample_args "mixed" 7 PyFloat.f_half) i /\
         in_pool VALID_PHONES (phone_of r) = false).
Proof.
  apply (mixed_mode_split lcg_gen (sample_args "mixed" 7 PyFloat.f_half) 42%Z).
  - reflexivity.
  - cbn. lia.
  - apply PyFloatFacts.representable_small. cbn. lia.
  - reflexivity.
Defined.

(** C2, as stated, fails: [2^53 + 3] is rounded up to [2^53 + 4] on its way
    to a double, so with the ratio [1.0] the target of line 74 exceeds the
    record count, while the rows with a valid phone are only as many as the
    records. *)
Lemma mixed_mode_split_beyond_doubles :
  exists data,
    valid_target (2 ^ 53 + 3) PyFloat.f_one = Ok (2 ^ 53 + 4)%Z /\
    build_rows lcg_gen (sample_args "mixed" (2 ^ 53 + 3) PyFloat.f_one) 42%Z
      = Ok (header :: data, 42%Z) /\
    count_valid_phones data = (2 ^ 53 + 3)%Z /\
    count_valid_phones data <> (2 ^ 53 + 4)%Z.
Proof.
  assert (valid_target (2 ^ 53 + 3) PyFloat.f_one = Ok (2 ^ 53 + 4)%Z) as Ht
    by (vm_compute; reflexivity).
  exists (map (row_at (sample_args "mixed" (2 ^ 53 + 3) PyFloat.f_one)
                      (2 ^ 53 + 4)%Z)
              (range (2 ^ 53 + 3))).
  split; [exact Ht |].
  assert (count_valid_phones
            (map (row_at (sample_args "mixed" (2 ^ 53 + 3) PyFloat.f_one)
                         (2 ^ 53 + 4)%Z)
                 (range (2 ^ 53 + 3)))
          = Z.min (2 ^ 53 + 3) (Z.max 0 (2 ^ 53 + 4))) as Hc.
  { apply (mixed_count_range (sample_args "mixed" (2 ^ 53 + 3) PyFloat.f_one)
             (2 ^ 53 + 4)%Z eq_refl).
    cbn [records sample_args]. lia. }
  split; [| split].
  - apply (build_rows_mixed lcg_gen
             (sample_args "mixed" (2 ^ 53 + 3) PyFloat.f_one) 42%Z
             (2 ^ 53 + 4)%Z eq_refl Ht).
  - rewrite Hc; lia.
  - rewrite Hc; lia.
Qed.

(** ** NIK values *)

Lemma nik_of_row_at (a : Namespace) (target i : Z) :
  deterministic_mode (mode a) = true ->
  nik_of (row_at a target i) <> "" ->
  nik_of (row_at a target i) = make_nik (nik_base (mode a) target i) i.
Proof.
  unfold deterministic_mode, row_at, nik_base. intros Hm Hne.
  assert (forall j, nik_of (invalid_row a j) <> "" ->
                    nik_of (invalid_row a j) = make_nik 9000000000000000 j) as Hinv.
  { intros j Hj. apply invalid_row_fields. intros Hp.
    apply Hj. now apply invalid_row_fields. }
  destruct (String.eqb (mode a) "invalid"); [now apply Hinv |].
  destruct (String.eqb (mode a) "mixed").
  - destruct (i <? target)%Z; [reflexivity | now apply Hinv].
  - destruct (String.eqb (mode a) "uniform"); [reflexivity | discriminate].
Qed.

Lemma nik_base_valid_mode (m : string) (target i : Z) :
  deterministic_mode m = false -> nik_base m target i = 3300000000000000%Z.
Proof.
  unfold deterministic_mode, nik_base. intros Hm.
  apply orb_false_iff in Hm as [Hm Hu].
  apply orb_false_iff in Hm as [Hi Hx].
  now rewrite Hi, Hx, Hu.
Qed.

(** In every mode a non-empty NIK is the formatted sum of the base of its row
    and its index. *)
Lemma build_rows_nik (G : RandomGen) (a : Namespace) (s : rng_state G)
      (target : Z) :
  valid_target (records a) (valid_ratio a) = Ok target ->
  exists data s',
    build_rows G a s = Ok (header :: data, s') /\
    forall i, (0 <= i < records a)%Z ->
      exists r,
        nth_error data (Z.to_nat i) = Some r /\
        (nik_of r <> "" -> nik_of r = make_nik (nik_base (mode a) target i) i).
Proof.
  intros Ht.
  destruct (deterministic_mode (mode a)) eqn:Hm.
  - exists (map (row_at a target) (range (records a))), s.
    split; [now apply build_rows_deterministic |].
    intros i Hi. exists (row_at a target i).
    split; [now apply range_nth_error |].
    now apply nik_of_row_at.
  - rewrite (build_rows_ok G a s target Ht).
    destruct (loop_rows_shape G a target s (Z.to_nat (records a)))
      as [data [Hrows Hlen]].
    exists data, (rng (loop_upto G a target s (Z.to_nat (records a)))).
    split; [now rewrite Hrows |].
    intros i Hi.
    destruct (loop_valid_mode G a target s (Z.to_nat (records a)) Hm
                (Z.to_nat i) ltac:(lia)) as [name [phone [Hnth _]]].
    rewrite Hrows in Hnth. cbn [nth_error] in Hnth.
    rewrite Z2Nat.id in Hnth by lia.
    eexists. split; [exact Hnth |].
    intros _. rewrite nik_base_valid_mode by exact Hm. reflexivity.
Qed.

(** C6, as amended.  In every mode, a non-empty NIK of the data row of index
    [i] is [base + i] in the 16-wide zero-padded format, [base] being the
    constant of the row's shape; whenever [base + i < 10^16] it is exactly 16
    decimal digits that read back as [base + i].  Under one base, two
    different indices never give the same NIK. *)
Theorem nik_sixteen_digits (G : RandomGen) (a : Namespace) (s : rng_state G)
        (target : Z) :
  valid_target (records a) (valid_ratio a) = Ok target ->
  (exists data s',
     build_rows G a s = Ok (header :: data, s') /\
     forall i, (0 <= i < records a)%Z ->
       exists r,
         nth_error data (Z.to_nat i) = Some r /\
         (nik_of r <> "" ->
          nik_of r = make_nik (nik_base (mode a) target i) i /\
          ((nik_base (mode a) target i + i < 10 ^ 16)%Z ->
           String.length (nik_of r) = 16%nat /\
           PyStr.all_digits (nik_of r) = true /\
           PyStr.parse (nik_of r) = (nik_base (mode a) target i + i)%Z))) /\
  (forall base i j, make_nik base i = make_nik base j -> i = j).
Proof.
  intros Ht. split; [| exact make_nik_inj].
  destruct (build_rows_nik G a s target Ht) as [data [s' [Hb Hrows]]].
  exists data, s'. split; [exact Hb |].
  intros i Hi. destruct (Hrows i Hi) as [r [Hnth Hnik]].
  exists r. split; [exact Hnth |].
  intros Hne. specialize (Hnik Hne). split; [exact Hnik |].
  intros Hsmall. rewrite Hnik. unfold make_nik.
  apply PyStrFacts.format_016d_small.
  split; [| exact Hsmall].
  unfold nik_base.
  destruct (String.eqb (mode a) "invalid"); [lia |].
  destruct (String.eqb (mode a) "mixed"); [destruct (i <? target)%Z; lia |].
  destruct (String.eqb (mode a) "uniform"); lia.
Qed.

Lemma nik_sixteen_digits_witness :
  (exists data s',
     build_rows lcg_gen (sample_args "valid" 5 PyFloat.f_half) 42%Z
       = Ok (header :: data, s') /\
     forall i, (0 <= i < 5)%Z ->
       exists r,
         nth_error data (Z.to_nat i) = Some r /\
         (nik_of r <> "" ->
          nik_of r = make_nik (nik_base "valid" 2 i) i /\
          ((nik_base "valid" 2 i + i < 10 ^ 16)%Z ->
           String.length (nik_of r) = 16%nat /\
           PyStr.all_digits (nik_of r) = true /\
           PyStr.parse (nik_of r) = (nik_base "valid" 2 i + i)%Z))) /\
  (forall base i j, make_nik base i = make_nik base j -> i = j).
Proof.
  apply (nik_sixteen_digits lcg_gen (sample_args "valid" 5 PyFloat.f_half)
           42%Z 2%Z).
  vm_compute. reflexivity.
Defined.

(** C6, as stated, fails: in invalid mode the row of index [10^15 + 1] has a
    NIK of 17 digits, since the format pads and never cuts. *)
Lemma nik_seventeen_digits :
  exists data r,
    build_rows lcg_gen (sample_args "invalid" (10 ^ 15 + 2) PyFloat.f_half) 42%Z
      = Ok (header :: data, 42%Z) /\
    nth_error data (Z.to_nat (10 ^ 15 + 1)) = Some r /\
    nik_of r = "10000000000000001" /\
    String.length (nik_of r) = 17%nat.
Proof.
  assert (valid_target (10 ^ 15 + 2) PyFloat.f_half = Ok 500000000000001%Z) as Ht
    by (vm_compute; reflexivity).
  exists (map (row_at (sample_args "invalid" (10 ^ 15 + 2) PyFloat.f_half)
                      500000000000001%Z)
              (range (10 ^ 15 + 2))).
  exists (invalid_row (sample_args "invalid" (10 ^ 15 + 2) PyFloat.f_half)
                      (10 ^ 15 + 1)).
  split; [| split; [| split]].
  - apply (build_rows_deterministic lcg_gen
             (sample_args "invalid" (10 ^ 15 + 2) PyFloat.f_half) 42%Z
             500000000000001%Z eq_refl Ht).
  - rewrite range_nth_error by lia. reflexivity.
  - vm_compute. reflexivity.
  - vm_compute. reflexivity.
Qed.

(** C9.  In mixed mode no two data rows share a non-empty NIK: the
    valid-shaped rows add their index to [3_200_000_000_000_000], the
    invalid-shaped rows, which all come later, add theirs to
    [9_000_000_000_000_000]. *)
Theorem mixed_mode_niks_distinct (G : RandomGen) (a : Namespace)
        (s : rng_state G) (target : Z) :
  mode a = "mixed" ->
  valid_target (records a) (valid_ratio a) = Ok target ->
  exists data,
    build_rows G a s = Ok (header :: data, s) /\
    forall i j ri rj,
      nth_error data i = Some ri -> nth_error data j = Some rj ->
      i <> j -> nik_of ri <> "" -> nik_of ri <> nik_of rj.
Proof.
  intros Hm Ht.
  exists (map (row_at a target) (range (records a))).
  split; [now apply build_rows_mixed |].
  assert (forall k r,
            nth_error (map (row_at a target) (range (records a))) k = Some r ->
            r = row_at a target (Z.of_nat k)) as Hrow.
  { intros k r Hk.
    assert (k < Z.to_nat (records a))%nat as Hlt.
    { assert (nth_error (map (row_at a target) (range (records a))) k <> None)
        as Hsome by congruence.
      apply nth_error_Some in Hsome.
      now rewrite length_map, range_length in Hsome. }
    unfold range in Hk. rewrite indices_nth_error in Hk by exact Hlt.
    now injection Hk as <-. }
  intros i j ri rj Hi Hj Hij Hne Heq.
  apply Hrow in Hi, Hj. subst ri rj.
  rewrite !row_at_mixed in * by exact Hm.
  assert (forall k, nik_of (invalid_row a k) <> "" ->
                    nik_of (invalid_row a k) = make_nik 9000000000000000 k) as Hinv.
  { intros k Hk. apply invalid_row_fields. intros Hp.
    apply Hk. now apply invalid_row_fields. }
  destruct (Z.ltb_spec (Z.of_nat i) target) as [Hit | Hit];
    destruct (Z.ltb_spec (Z.of_nat j) target) as [Hjt | Hjt].
  - apply make_nik_inj in Heq. lia.
  - assert (nik_of (invalid_row a (Z.of_nat j)) <> "") as Hnej
      by (rewrite <- Heq; exact Hne).
    rewrite (Hinv _ Hnej) in Heq.
    change (nik_of (valid_shaped_row a (Z.of_nat i)))
      with (make_nik 3200000000000000 (Z.of_nat i)) in Heq.
    unfold make_nik in Heq. apply PyStrFacts.format_016d_inj in Heq. lia.
  - rewrite (Hinv _ Hne) in Heq.
    change (nik_of (valid_shaped_row a (Z.of_nat j)))
      with (make_nik 3200000000000000 (Z.of_nat j)) in Heq.
    unfold make_nik in Heq. apply PyStrFacts.format_016d_inj in Heq. lia.
  - assert (nik_of (invalid_row a (Z.of_nat j)) <> "") as Hnej
      by (rewrite <- Heq; exact Hne).
    rewrite (Hinv _ Hne), (Hinv _ Hnej) in Heq.
    apply make_nik_inj in Heq. lia.
Qed.

Lemma mixed_mode_niks_distinct_witness :
  exists data,
    build_rows lcg_gen (sample_args "mixed" 12 PyFloat.f_half) 42%Z
      = Ok (header :: data, 42%Z) /\
    forall i j ri rj,
      nth_error data i = Some ri -> nth_error data j = Some rj ->
      i <> j -> nik_of ri <> "" -> nik_of ri <> nik_of rj.
Proof.
  apply (mixed_mode_niks_distinct lcg_gen
           (sample_args "mixed" 12 PyFloat.f_half) 42%Z 6%Z).
  - reflexivity.
  - vm_compute. reflexivity.
Defined.

(** ** No records *)

Lemma parse_args_accepts (today : string) (c : CommandLine) :
  In (default (opt_mode c) "valid") mode_choices ->
  parse_args today c =
    Some {| output := default (opt_output c) "outputs/samples/generated-whatsapp.csv";
            records := default (opt_records c) 1000;
            mode := default (opt_mode c) "valid";
            valid_ratio := default (opt_valid_ratio c) PyFloat.f_half;
            patients_json := default (opt_patients_json c) "";
            date := default (opt_date c) today |}.
Proof.
  intros Hin. unfold parse_args.
  assert (existsb (String.eqb (default (opt_mode c) "valid")) mode_choices = true)
    as ->; [| reflexivity].
  apply existsb_exists. exists (default (opt_mode c) "valid").
  split; [exact Hin | apply String.eqb_refl].
Qed.

Lemma build_rows_no_records (G : RandomGen) (a : Namespace) (s : rng_state G)
      (target : Z) :
  (records a <= 0)%Z ->
  valid_target (records a) (valid_ratio a) = Ok target ->
  build_rows G a s = Ok ([header], s).
Proof.
  intros Hn Ht. rewrite (build_rows_ok G a s target Ht).
  replace (Z.to_nat (records a)) with 0%nat by lia. reflexivity.
Qed.

(** C8, as amended.  A record count [n <= 0], negative ones included, is not
    rejected in any mode; whenever the target of line 74 can be computed from
    it, [build_rows] returns the header row alone and the program writes a CSV
    that holds the header line only.  The target can be computed for every
    count down to [-2^53] and every finite ratio of magnitude at most one. *)
Theorem no_records_header_only (G : RandomGen) (today : string)
        (c : CommandLine) :
  In (default (opt_mode c) "valid") mode_choices ->
  (default (opt_records c) 1000 <= 0)%Z ->
  exists a,
    parse_args today c = Some a /\
    records a = default (opt_records c) 1000%Z /\
    mode a = default (opt_mode c) "valid" /\
    ((exists target, valid_target (records a) (valid_ratio a) = Ok target) ->
     (forall s, build_rows G a s = Ok ([header], s)) /\
     exists fx,
       program G today c = Done fx /\
       hd_error (written fx) = Some (output a, Text header_line)) /\
    ((- 2 ^ 53 <= records a)%Z ->
     PyFloat.is_float (valid_ratio a) = true ->
     PyFloat.fleb (SFabs (valid_ratio a)) PyFloat.f_one = true ->
     exists target, valid_target (records a) (valid_ratio a) = Ok target).
Proof.
  intros Hin Hn. eexists.
  split; [apply parse_args_accepts; exact Hin |].
  cbn [records mode valid_ratio output].
  split; [reflexivity |]. split; [reflexivity |]. split.
  - intros [target Ht].
    assert (forall s,
              build_rows G
                {| output := default (opt_output c) "outputs/samples/generated-whatsapp.csv";
                   records := default (opt_records c) 1000;
                   mode := default (opt_mode c) "valid";
                   valid_ratio := default (opt_valid_ratio c) PyFloat.f_half;
                   patients_json := default (opt_patients_json c) "";
                   date := default (opt_date c) today |} s
              = Ok ([header], s)) as Hb.
    { intros s. apply (build_rows_no_records G _ s target); [exact Hn | exact Ht]. }
    split; [exact Hb |].
    destruct (program_csv G today c _ _ _ (parse_args_accepts today c Hin)
                (Hb (rng_seed G 42))) as [fx [Hdone [Hw _]]].
    exists fx. split; [exact Hdone | exact Hw].
  - intros Hlow Hf Hr.
    apply PyFloatFacts.valid_target_defined; [| exact Hf | exact Hr].
    apply PyFloatFacts.representable_small.
    assert (2 ^ 53 = 9007199254740992)%Z as Hp by reflexivity.
    rewrite Hp in *. lia.
Qed.

Lemma no_records_header_only_witness :
  exists a,
    parse_args "22-08-2025" (command_line "invalid" (-5)) = Some a /\
    records a = (-5)%Z /\
    mode a = "invalid" /\
    ((exists target, valid_target (records a) (valid_ratio a) = Ok target) ->
     (forall s, build_rows lcg_gen a s = Ok ([header], s)) /\
     exists fx,
       program lcg_gen "22-08-2025" (command_line "invalid" (-5)) = Done fx /\
       hd_error (written fx) = Some (output a, Text header_line)) /\
    ((- 2 ^ 53 <= records a)%Z ->
     PyFloat.is_float (valid_ratio a) = true ->
     PyFloat.fleb (SFabs (valid_ratio a)) PyFloat.f_one = true ->
     exists target, valid_target (records a) (valid_ratio a) = Ok target).
Proof.
  apply (no_records_header_only lcg_gen "22-08-2025" (command_line "invalid" (-5))).
  - cbn. tauto.
  - cbn. lia.
Defined.

(** C8, as stated, fails: a record count of [-2^1024] is too large in
    magnitude for a double, so line 74 raises [OverflowError] before any row
    is built and nothing is written. *)
Lemma huge_negative_records_overflow :
  build_rows lcg_gen (sample_args "valid" (- 2 ^ 1024) PyFloat.f_half) 42%Z
    = Raise OverflowError /\
  program lcg_gen "22-08-2025" (command_line "valid" (- 2 ^ 1024))
    = Uncaught OverflowError.
Proof. split; vm_compute; reflexivity. Qed.

(** ** Ratios outside the unit interval *)

Lemma range_bounds (n i : Z) : In i (range n) -> (0 <= i < n)%Z.
Proof.
  unfold range. intros Hin. apply in_map_iff in Hin as [k [<- Hk]].
  apply in_seq in Hk. lia.
Qed.

(** C10, as amended.  In mixed mode, for a record count [n >= 0] and any
    ratio from which line 74 computes a target [t = floor(n * ratio)], in or
    out of [[0, 1]], [build_rows] succeeds; the rows with a phone of the valid
    pool are [min(n, max(0, t))] many, row [i] being valid-shaped exactly when
    [i < t]; a ratio above one makes every row valid-shaped and a negative
    ratio makes every row invalid-shaped.  The parser takes any double for
    [--valid-ratio] without a range check. *)
Theorem mixed_mode_any_ratio (G : RandomGen) (a : Namespace) (s : rng_state G)
        (target : Z) :
  mode a = "mixed" ->
  (0 <= records a)%Z ->
  valid_target (records a) (valid_ratio a) = Ok target ->
  exists data,
    build_rows G a s = Ok (header :: data, s) /\
    count_valid_phones data = Z.min (records a) (Z.max 0 target) /\
    (forall i, (0 <= i < records a)%Z ->
       nth_error data (Z.to_nat i) =
         Some (if (i <? target)%Z then valid_shaped_row a i else invalid_row a i)) /\
    (PyFloat.is_float (valid_ratio a) = true ->
     PyFloat.fltb PyFloat.f_one (valid_ratio a) = true ->
     data = map (valid_shaped_row a) (range (records a))) /\
    (PyFloat.fltb (valid_ratio a) PyFloat.f_zero = true ->
     data = map (invalid_row a) (range (records a))) /\
    (forall today m n ratio,
       In m mode_choices ->
       exists a',
         parse_args today (ratio_command_line m n ratio) = Some a' /\
         valid_ratio a' = ratio).
Proof.
  intros Hm Hn Ht.
  exists (map (row_at a target) (range (records a))).
  split; [now apply build_rows_mixed |].
  split; [now apply mixed_count_range |].
  split; [| split; [| split]].
  - intros i Hi. rewrite range_nth_error by exact Hi.
    now rewrite row_at_mixed by exact Hm.
  - intros Hf Hr.
    pose proof (PyFloatFacts.valid_target_ratio_above_one _ _ _ Hn Hf Hr Ht) as Hge.
    apply map_ext_in. intros i Hi. apply range_bounds in Hi.
    rewrite row_at_mixed by exact Hm.
    destruct (Z.ltb_spec i target); [reflexivity | lia].
  - intros Hr.
    pose proof (PyFloatFacts.valid_target_negative_ratio _ _ _ Hn Hr Ht) as Hle.
    apply map_ext_in. intros i Hi. apply range_bounds in Hi.
    rewrite row_at_mixed by exact Hm.
    destruct (Z.ltb_spec i target); [lia | reflexivity].
  - intros today m n ratio Hin. eexists.
    split; [apply parse_args_accepts; exact Hin | reflexivity].
Qed.

Lemma mixed_mode_any_ratio_witness :
  exists data,
    build_rows lcg_gen
      (sample_args "mixed" 4 (S754_finite false 6755399441055744 (-52))) 42%Z
      = Ok (header :: data, 42%Z) /\
    count_valid_phones data = Z.min 4 (Z.max 0 6) /\
    (forall i, (0 <= i < 4)%Z ->
       nth_error data (Z.to_nat i) =
         Some (if (i <? 6)%Z
               then valid_shaped_row
                      (sample_args "mixed" 4
                         (S754_finite false 6755399441055744 (-52))) i
               else invalid_row
                      (sample_args "mixed" 4
                         (S754_finite false 6755399441055744 (-52))) i)) /\
    (PyFloat.is_float (S754_finite false 6755399441055744 (-52)) = true ->
     PyFloat.fltb PyFloat.f_one (S754_finite false 6755399441055744 (-52)) = true ->
     data = map (valid_shaped_row
                   (sample_args "mixed" 4
                      (S754_finite false 6755399441055744 (-52))))
                (range 4)) /\
    (PyFloat.fltb (S754_finite false 6755399441055744 (-52)) PyFloat.f_zero = true ->
     data = map (invalid_row
                   (sample_args "mixed" 4
                      (S754_finite false 6755399441055744 (-52))))
                (range 4)) /\
    (forall today m n ratio,
       In m mode_choices ->
       exists a',
         parse_args today (ratio_command_line m n ratio) = Some a' /\
         valid_ratio a' = ratio).
Proof.
  apply (mixed_mode_any_ratio lcg_gen
           (sample_args "mixed" 4 (S754_finite false 6755399441055744 (-52)))
           42%Z 6%Z).
  - reflexivity.
  - cbn. lia.
  - vm_compute. reflexivity.
Defined.

(** C10, as stated, fails: the parser takes [nan] and [inf] for
    [--valid-ratio], and line 74 then raises, [ValueError] on the first and
    [OverflowError] on the second. *)
Lemma mixed_mode_nan_ratio_raises :
  program lcg_gen "22-08-2025" (ratio_command_line "mixed" 5 PyFloat.f_nan)
    = Uncaught ValueError /\
  build_rows lcg_gen (sample_args "mixed" 5 PyFloat.f_nan) 42%Z
    = Raise ValueError /\
  build_rows lcg_gen (sample_args "mixed" 5 PyFloat.f_inf) 42%Z
    = Raise OverflowError.
Proof. repeat split; vm_compute; reflexivity. Qed.

(** ** The whole domain of the configuration *)

(** With a record count that a double holds and a ratio in [[0, 1]], line 74
    never raises, so [build_rows] always returns its rows. *)
Lemma build_rows_total (G : RandomGen) (a : Namespace) (s : rng_state G) :
  (0 <= records a)%Z ->
  PyFloat.representable (records a) ->
  PyFloat.in_unit_interval (valid_ratio a) = true ->
  exists data s',
    build_rows G a s = Ok (header :: data, s') /\
    Z.of_nat (List.length data) = records a.
Proof.
  intros Hn Hrep Hr.
  destruct (PyFloatFacts.valid_target_unit_interval _ _ Hn Hrep Hr)
    as [target [Ht _]].
  rewrite (build_rows_ok G a s target Ht).
  destruct (loop_rows_shape G a target s (Z.to_nat (records a)))
    as [data [Hrows Hlen]].
  exists data, (rng (loop_upto G a target s (Z.to_nat (records a)))).
  rewrite Hrows. split; [reflexivity | lia].
Qed.

(** * Further properties of the script *)

(** ** Valid mode *)



(** ** The generator *)

(** X2.  The modes [invalid], [mixed] and [uniform] never draw from the
    random generator: they hand its state back untouched, and the rows they
    build are the same under any generator and any state. *)
Theorem deterministic_modes_ignore_generator (G1 G2 : RandomGen)
        (a : Namespace) (s1 s1' : rng_state G1) (s2 : rng_state G2)
        (rws : list row) :
  deterministic_mode (mode a) = true ->
  build_rows G1 a s1 = Ok (rws, s1') ->
  s1' = s1 /\ build_rows G2 a s2 = Ok (rws, s2).
Proof.
  intros Hm Hb.
  destruct (valid_target (records a) (valid_ratio a)) as [target | e] eqn:Ht.
  - rewrite (build_rows_deterministic G1 a s1 target Hm Ht) in Hb.
    injection Hb as <- <-. split; [reflexivity |].
    now apply build_rows_deterministic.
  - rewrite (build_rows_raise G1 a s1 e Ht) in Hb. discriminate.
Qed.

Lemma deterministic_modes_ignore_generator_witness :
  42%Z = 42%Z /\
  build_rows lcg_gen (sample_args "uniform" 3 PyFloat.f_half) 7%Z
    = Ok (header :: map (row_at (sample_args "uniform" 3 PyFloat.f_half) 1)
                        (range 3), 7%Z).
Proof.
  apply (deterministic_modes_ignore_generator lcg_gen lcg_gen
           (sample_args "uniform" 3 PyFloat.f_half) 42%Z 42%Z 7%Z).
  - reflexivity.
  - vm_compute. reflexivity.
Defined.

(** ** Columns *)

Lemma body_rows_width (G : RandomGen) (a : Namespace) (target : Z)
      (st : loop_state G) (i : Z) :
  Forall (fun r => List.length r = 4%nat) (rows st) ->
  Forall (fun r => List.length r = 4%nat)
         (rows (build_rows_body G a target st i)).
Proof.
  intros Hall. unfold build_rows_body.
  destruct (String.eqb (mode a) "invalid");
    [apply Forall_app; split; [exact Hall | repeat constructor] |].
  destruct (String.eqb (mode a) "mixed").
  { destruct (valid_count st <? target)%Z;
      apply Forall_app; split; try exact Hall; repeat constructor. }
  destruct (String.eqb (mode a) "uniform");
    [apply Forall_app; split; [exact Hall | repeat constructor] |].
  destruct (choice G (rng st) VALID_PHONES) as [phone s1].
  destruct (choice G s1 VALID_NAMES) as [name s2].
  apply Forall_app; split; [exact Hall | repeat constructor].
Qed.

(** X3.  Every row that [build_rows] returns, the header included, has
    exactly four fields, in every mode. *)
Theorem rows_have_four_fields (G : RandomGen) (a : Namespace)
        (s s' : rng_state G) (rws : list row) :
  build_rows G a s = Ok (rws, s') ->
  Forall (fun r => List.length r = 4%nat) rws.
Proof.
  intros Hb. unfold build_rows in Hb.
  destruct (valid_target (records a) (valid_ratio a)) as [target | e];
    [| discriminate].
  cbn [bind] in Hb. injection Hb as <- _.
  rewrite build_rows_loop_upto.
  induction (Z.to_nat (records a)) as [| n IH].
  - repeat constructor.
  - rewrite loop_upto_succ. now apply body_rows_width.
Qed.

Lemma rows_have_four_fields_witness :
  Forall (fun r => List.length r = 4%nat)
         [header;
          ["22-08-2025"; "9000000000000000"; "INVALID FORMAT ONE"; "+630123456"]].
Proof.
  apply (rows_have_four_fields lcg_gen
           (sample_args "invalid" 1 PyFloat.f_half) 42%Z 42%Z).
  vm_compute. reflexivity.
Defined.

(** ** The empty phone *)

Lemma cyclic_invalid_empty (i : Z) :
  cyclic INVALID_PHONES i = "" <-> (i mod 6 = 4)%Z.
Proof.
  unfold cyclic. change (Z.of_nat (List.length INVALID_PHONES)) with 6%Z.
  pose proof (Z.mod_pos_bound i 6 ltac:(lia)) as Hb.
  assert (i mod 6 = Z.of_nat (Z.to_nat (i mod 6)))%Z as Hk by lia.
  rewrite Hk at 2.
  destruct (Z.to_nat (i mod 6)) as [| [| [| [| [| [| k]]]]]];
    cbn [nth INVALID_PHONES]; split; intros H; try discriminate; try lia.
  reflexivity.
Qed.

(** X4.  In invalid mode the rows without a phone, and so without a NIK, are
    exactly the rows whose index is 4 modulo 6: one row in every six. *)
Theorem invalid_mode_empty_rows (G : RandomGen) (a : Namespace)
        (s : rng_state G) (target : Z) :
  mode a = "invalid" ->
  valid_target (records a) (valid_ratio a) = Ok target ->
  exists data,
    build_rows G a s = Ok (header :: data, s) /\
    forall i, (0 <= i < records a)%Z ->
      exists r,
        nth_error data (Z.to_nat i) = Some r /\
        (phone_of r = "" <-> (i mod 6 = 4)%Z) /\
        (nik_of r = "" <-> (i mod 6 = 4)%Z).
Proof.
  intros Hm Ht.
  exists (map (row_at a target) (range (records a))). split.
  - apply build_rows_deterministic; [| exact Ht].
    unfold deterministic_mode. rewrite Hm. reflexivity.
  - intros i Hi. exists (invalid_row a i). split.
    + rewrite range_nth_error by exact Hi. f_equal. now apply row_at_invalid.
    + destruct (invalid_row_fields a i) as [_ [_ [Hiff _]]].
      assert (phone_of (invalid_row a i) = "" <-> (i mod 6 = 4)%Z) as Hp
        by apply cyclic_invalid_empty.
      split; [exact Hp |]. rewrite Hiff. exact Hp.
Qed.

Lemma invalid_mode_empty_rows_witness :
  exists data,
    build_rows lcg_gen (sample_args "invalid" 12 PyFloat.f_half) 42%Z
      = Ok (header :: data, 42%Z) /\
    forall i, (0 <= i < 12)%Z ->
      exists r,
        nth_error data (Z.to_nat i) = Some r /\
        (phone_of r = "" <-> (i mod 6 = 4)%Z) /\
        (nik_of r = "" <-> (i mod 6 = 4)%Z).
Proof.
  apply (invalid_mode_empty_rows lcg_gen
           (sample_args "invalid" 12 PyFloat.f_half) 42%Z 6%Z).
  - reflexivity.
  - vm_compute. reflexivity.
Defined.
(** ** The files of a run *)

(** X5.  When [--patients-json] names the path of [--output], a successful
    run writes that path twice, the CSV first and the patient bundle second,
    so the file is left holding the bundle and the CSV is lost. *)
Theorem same_path_bundle_replaces_csv (G : RandomGen) (a : Namespace)
        (s s' : rng_state G) (rws : list row) :
  build_rows G a s = Ok (rws, s') ->
  patients_json a <> "" ->
  patients_json a = output a ->
  exists fx,
    main G a s = Ok fx /\
    written fx = [(output a, Text (csv_text rws));
                  (output a, Json (patients_bundle (records a)))] /\
    read_file (output a) fx = Some (Json (patients_bundle (records a))).
Proof.
  intros Hb Hne Hsame. unfold main. rewrite Hb. cbn [bind fst].
  apply String.eqb_neq in Hne. rewrite Hne.
  eexists. split; [reflexivity |]. rewrite Hsame. split; [reflexivity |].
  unfold read_file. cbn. now rewrite String.eqb_refl.
Qed.

Lemma same_path_bundle_replaces_csv_witness :
  exists fx,
    main lcg_gen (sample_args_json "uniform" 2 "out.csv" "out.csv") 42%Z = Ok fx /\
    written fx =
      [("out.csv",
        Text (csv_text
                (header :: map (row_at (sample_args_json "uniform" 2 "out.csv" "out.csv") 1)
                               (range 2))));
       ("out.csv", Json (patients_bundle 2))] /\
    read_file "out.csv" fx = Some (Json (patients_bundle 2)).
Proof.
  apply (same_path_bundle_replaces_csv lcg_gen
           (sample_args_json "uniform" 2 "out.csv" "out.csv") 42%Z 42%Z).
  - vm_compute. reflexivity.
  - discriminate.
  - reflexivity.
Defined.

(** X6.  How a run ends, for a command line whose values parse: in a usage
    error exactly when [--mode] is outside its four choices; with a mode among
    them, an exception that line 74 raises escapes uncaught, whatever the
    mode; and a run that finishes had its mode among the choices and its
    target computed by line 74. *)
Theorem program_outcome (G : RandomGen) (today : string) (c : CommandLine) :
  (program G today c = UsageError <->
   ~ In (default (opt_mode c) "valid") mode_choices) /\
  (forall e,
     In (default (opt_mode c) "valid") mode_choices ->
     valid_target (default (opt_records c) 1000%Z)
                  (default (opt_valid_ratio c) PyFloat.f_half) = Raise e ->
     program G today c = Uncaught e) /\
  (forall fx,
     program G today c = Done fx ->
     In (default (opt_mode c) "valid") mode_choices /\
     exists t,
       valid_target (default (opt_records c) 1000%Z)
                    (default (opt_valid_ratio c) PyFloat.f_half) = Ok t).
Proof.
  set (m := default (opt_mode c) "valid").
  set (n := default (opt_records c) 1000%Z).
  set (q := default (opt_valid_ratio c) PyFloat.f_half).
  destruct (existsb (String.eqb m) mode_choices) eqn:Hin.
  - assert (In m mode_choices) as HIn.
    { apply existsb_exists in Hin as [x [Hx He]].
      apply String.eqb_eq in He. now subst x. }
    pose proof (parse_args_accepts today c HIn) as Hp.
    fold m n q in Hp.
    set (a := {| output := default (opt_output c)
                             "outputs/samples/generated-whatsapp.csv";
                 records := n; mode := m; valid_ratio := q;
                 patients_json := default (opt_patients_json c) "";
                 date := default (opt_date c) today |}) in *.
    destruct (valid_target n q) as [t | e0] eqn:Ht.
    + destruct (proj2 (build_rows_defined G a (rng_seed G 42))
                  (ex_intro _ t Ht)) as [[rws s'] Hb].
      destruct (program_csv G today c a s' rws Hp Hb) as [fx' [Hd _]].
      rewrite Hd. split; [| split].
      * split; [discriminate | intros Hn; contradiction].
      * intros e _ He. discriminate.
      * intros fx _. split; [exact HIn | now exists t].
    + rewrite (program_raise G today c a e0 Hp
                 (build_rows_raise G a (rng_seed G 42) e0 Ht)).
      split; [| split].
      * split; [discriminate | intros Hn; contradiction].
      * intros e _ He. now injection He as <-.
      * intros fx Hd. discriminate.
  - assert (~ In m mode_choices) as HnIn.
    { intros HIn. apply (eq_true_false_abs _ (proj2 (existsb_exists _ _)
        (ex_intro _ m (conj HIn (String.eqb_refl m)))) Hin). }
    unfold program, parse_args. fold m. rewrite Hin.
    split; [| split].
    + split; [intros _; exact HnIn | reflexivity].
    + intros e HIn _. contradiction.
    + intros fx Hd. discriminate.
Qed.

Lemma program_outcome_witness :
  program lcg_gen "04-11-2026" (ratio_command_line "uniform" 10 PyFloat.f_nan)
    = Uncaught ValueError /\
  (In "mixed" mode_choices /\
   exists t, valid_target 7 PyFloat.f_half = Ok t).
Proof.
  split.
  - apply (proj1 (proj2 (program_outcome lcg_gen "04-11-2026"
                           (ratio_command_line "uniform" 10 PyFloat.f_nan)))).
    + cbn. tauto.
    + vm_compute. reflexivity.
  - eapply (proj2 (proj2 (program_outcome lcg_gen "04-11-2026"
                            (command_line "mixed" 7)))).
    vm_compute. reflexivity.
Defined.

(** ** Reading the CSV text back *)

Lemma has_char_append (c : ascii) (x y : string) :
  has_char c (x ++ y) = has_char c x || has_char c y.
Proof.
  induction x as [| d x IH]; cbn [append has_char]; [reflexivity |].
  now rewrite IH, orb_assoc.
Qed.

Lemma split_nonempty (sep : ascii) (s : string) : split sep s <> [].
Proof.
  destruct s as [| c s]; cbn [split]; [discriminate |].
  destruct (Ascii.eqb c sep); [discriminate |].
  destruct (split sep s); discriminate.
Qed.

Lemma split_clean (sep : ascii) (x : string) :
  has_char sep x = false -> split sep x = [x].
Proof.
  induction x as [| c x IH]; cbn [has_char split]; [reflexivity |].
  intros H. apply orb_false_iff in H as [Hc Hx].
  rewrite Hc, (IH Hx). reflexivity.
Qed.

Lemma split_clean_append (sep : ascii) (x rest : string) :
  has_char sep x = false ->
  split sep (x ++ String sep rest) = x :: split sep rest.
Proof.
  induction x as [| c x IH]; cbn [has_char append split].
  - intros _. now rewrite Ascii.eqb_refl.
  - intros H. apply orb_false_iff in H as [Hc Hx].
    rewrite Hc, (IH Hx). reflexivity.
Qed.

(** No piece of a split holds the separator, and a character that the text
    lacks is in none of its pieces. *)
Lemma split_pieces (sep c : ascii) (s : string) :
  (c = sep \/ has_char c s = false) ->
  Forall (fun x => has_char c x = false) (split sep s).
Proof.
  induction s as [| d s IH]; cbn [split has_char]; intros H.
  - repeat constructor.
  - destruct (Ascii.eqb d sep) eqn:Hd.
    + constructor; [reflexivity |]. apply IH.
      destruct H as [H | H]; [now left | right].
      now apply orb_false_iff in H.
    + assert (Ascii.eqb d c = false) as Hdc.
      { destruct H as [-> | H]; [exact Hd | now apply orb_false_iff in H]. }
      assert (Forall (fun x => has_char c x = false) (split sep s)) as Hs.
      { apply IH. destruct H as [H | H]; [now left | right].
        now apply orb_false_iff in H. }
      destruct (split sep s) as [| x xs].
      * constructor; [cbn; now rewrite Hdc | constructor].
      * inversion Hs; subst. constructor; [| assumption].
        cbn [has_char]. rewrite Hdc. assumption.
Qed.

Lemma clean_iff (s : string) :
  clean s = true <-> has_char comma s = false /\ has_char newline s = false.
Proof.
  unfold clean. rewrite andb_true_iff, !negb_true_iff. reflexivity.
Qed.

Lemma join_cons (sep x y : string) (r : row) :
  PyStr.join sep (x :: y :: r) = x ++ sep ++ PyStr.join sep (y :: r).
Proof. reflexivity. Qed.

Lemma join_newline_free (r : row) :
  Forall (fun x => has_char newline x = false) r ->
  has_char newline (PyStr.join "," r) = false.
Proof.
  induction r as [| x r IH]; intros H; [reflexivity |].
  inversion H as [| ? ? Hx Hr]; subst.
  destruct r as [| y r]; [exact Hx |].
  rewrite join_cons, !has_char_append, Hx, (IH Hr). reflexivity.
Qed.

Lemma split_join (r : row) :
  r <> [] ->
  Forall (fun x => has_char comma x = false) r ->
  split comma (PyStr.join "," r) = r.
Proof.
  induction r as [| x r IH]; intros Hne H; [contradiction |].
  inversion H as [| ? ? Hx Hr]; subst.
  destruct r as [| y r]; [now apply split_clean |].
  rewrite join_cons.
  change ("," ++ PyStr.join "," (y :: r))
    with (String comma (PyStr.join "," (y :: r))).
  rewrite (split_clean_append comma x _ Hx).
  rewrite IH; [reflexivity | discriminate | exact Hr].
Qed.

Lemma clean_row_fields (r : row) :
  forallb clean r = true ->
  Forall (fun x => has_char comma x = false) r /\
  Forall (fun x => has_char newline x = false) r.
Proof.
  induction r as [| x r IH]; cbn [forallb]; intros H.
  - split; constructor.
  - apply andb_true_iff in H as [Hx Hr]. apply clean_iff in Hx as [Hc Hn].
    destruct (IH Hr). split; constructor; assumption.
Qed.

Lemma split_csv_text (rs : list row) :
  Forall clean_row rs ->
  split newline (csv_text rs) = (map (PyStr.join ",") rs ++ [""])%list.
Proof.
  induction rs as [| r rs IH]; intros H.
  - reflexivity.
  - inversion H as [| ? ? [Hne Hr] Hrs]; subst.
    rewrite csv_text_cons. unfold csv_line.
    rewrite append_assoc.
    change ("
" ++ csv_text rs) with (String newline (csv_text rs)).
    rewrite split_clean_append
      by (apply join_newline_free; now apply clean_row_fields).
    rewrite (IH Hrs). reflexivity.
Qed.

Lemma removelast_snoc (A : Type) (l : list A) (x : A) :
  removelast (l ++ [x]) = l.
Proof. rewrite removelast_app by discriminate. cbn. apply app_nil_r. Qed.

Lemma parse_csv_text (rs : list row) :
  Forall clean_row rs -> parse_csv (csv_text rs) = rs.
Proof.
  intros H. unfold parse_csv, lines.
  rewrite (split_csv_text rs H), removelast_snoc, map_map.
  induction H as [| r rs [Hne Hr] Hrs IH]; cbn [map]; [reflexivity |].
  rewrite IH, split_join; [reflexivity | exact Hne | now apply clean_row_fields].
Qed.

Lemma In_removelast (A : Type) (x : A) (l : list A) :
  In x (removelast l) -> In x l.
Proof.
  induction l as [| y [| z l] IH]; cbn [removelast]; intros H.
  - contradiction.
  - contradiction.
  - destruct H as [-> | H]; [now left | right; now apply IH].
Qed.

Lemma parse_csv_rows_clean (text : string) : Forall clean_row (parse_csv text).
Proof.
  unfold parse_csv. apply Forall_forall. intros r Hr.
  apply in_map_iff in Hr as [l [<- Hl]].
  assert (has_char newline l = false) as Hnl.
  { apply In_removelast in Hl.
    pose proof (split_pieces newline newline text (or_introl eq_refl)) as HF.
    rewrite Forall_forall in HF. now apply HF. }
  split; [apply split_nonempty |].
  apply forallb_forall. intros x Hx. apply clean_iff. split.
  - pose proof (split_pieces comma comma l (or_introl eq_refl)) as HF.
    rewrite Forall_forall in HF. now apply HF.
  - pose proof (split_pieces comma newline l (or_intror Hnl)) as HF.
    rewrite Forall_forall in HF. now apply HF.
Qed.

(** X7.  The text that [write_csv] writes can be cut back into the rows it
    was written from, a line per line break and a field per comma, exactly
    when no row is empty and no field holds a comma or a line break: the
    writer quotes and escapes nothing. *)
Theorem csv_text_round_trip (rs : list row) :
  parse_csv (csv_text rs) = rs <->
  Forall (fun r => r <> [] /\ forallb clean r = true) rs.
Proof.
  split.
  - intros H. rewrite <- H. apply parse_csv_rows_clean.
  - apply parse_csv_text.
Qed.

(** ** The generated rows read back *)

Lemma clean_append (x y : string) : clean (x ++ y) = clean x && clean y.
Proof.
  unfold clean. rewrite !has_char_append.
  destruct (has_char comma x), (has_char newline x),
    (has_char comma y), (has_char newline y); reflexivity.
Qed.

Lemma is_digit_not (c d : ascii) :
  PyStr.is_digit d = false -> PyStr.is_digit c = true -> Ascii.eqb c d = false.
Proof.
  intros Hd Hc. destruct (Ascii.eqb c d) eqn:He; [| reflexivity].
  apply Ascii.eqb_eq in He. subst. congruence.
Qed.

Lemma all_digits_clean (s : string) : PyStr.all_digits s = true -> clean s = true.
Proof.
  induction s as [| c s IH]; cbn [PyStr.all_digits]; intros H; [reflexivity |].
  apply andb_true_iff in H as [Hc Hs].
  change (String c s) with (String c "" ++ s). rewrite clean_append, (IH Hs).
  unfold clean. cbn [has_char].
  rewrite (is_digit_not c comma eq_refl Hc), (is_digit_not c newline eq_refl Hc).
  reflexivity.
Qed.

Lemma str_clean (z : Z) : clean (PyStr.str z) = true.
Proof.
  unfold PyStr.str. destruct (z <? 0)%Z.
  - rewrite clean_append. cbn [andb].
    change (clean "-") with true. cbn [andb].
    apply all_digits_clean, PyStrFacts.str_nonneg_all_digits.
  - apply all_digits_clean, PyStrFacts.str_nonneg_all_digits.
Qed.

Lemma make_nik_clean (base i : Z) : clean (make_nik base i) = true.
Proof.
  unfold make_nik, PyStr.format_016d. destruct (base + i <? 0)%Z.
  - rewrite clean_append. change (clean "-") with true. cbn [andb].
    apply all_digits_clean, PyStrFacts.zfill_all_digits.
  - apply all_digits_clean, PyStrFacts.zfill_all_digits.
Qed.

Lemma nth_clean (pool : list string) (k : nat) :
  forallb clean pool = true -> clean (nth k pool "") = true.
Proof.
  intros H. destruct (nth_in_or_default k pool "") as [Hin | ->]; [| reflexivity].
  rewrite forallb_forall in H. now apply H.
Qed.

Lemma choice_clean (G : RandomGen) (s : rng_state G) (pool : list string) :
  forallb clean pool = true -> clean (fst (choice G s pool)) = true.
Proof.
  intros H. unfold choice. destruct (rng_randbelow G s (List.length pool)).
  now apply nth_clean.
Qed.

Lemma invalid_row_clean (a : Namespace) (i : Z) :
  exists nik name phone,
    invalid_row a i = [date a; nik; name; phone] /\
    clean nik = true /\ clean name = true /\ clean phone = true.
Proof.
  unfold invalid_row. do 3 eexists. split; [reflexivity |]. repeat split.
  - destruct (String.eqb (cyclic INVALID_PHONES i) ""); [reflexivity |].
    apply make_nik_clean.
  - now apply nth_clean.
  - now apply nth_clean.
Qed.

Lemma valid_shaped_row_clean (a : Namespace) (i : Z) :
  exists nik name phone,
    valid_shaped_row a i = [date a; nik; name; phone] /\
    clean nik = true /\ clean name = true /\ clean phone = true.
Proof.
  unfold valid_shaped_row. do 3 eexists. split; [reflexivity |]. repeat split.
  - apply make_nik_clean.
  - now apply nth_clean.
  - now apply nth_clean.
Qed.

Lemma uniform_row_clean (a : Namespace) (i : Z) :
  exists nik name phone,
    uniform_row a i = [date a; nik; name; phone] /\
    clean nik = true /\ clean name = true /\ clean phone = true.
Proof.
  unfold uniform_row. do 3 eexists. split; [reflexivity |]. repeat split.
  - apply make_nik_clean.
  - rewrite clean_append, str_clean. reflexivity.
  - now apply nth_clean.
Qed.

(** Every turn of the loop appends the date and three fields free of commas
    and line breaks. *)
Lemma body_row_clean (G : RandomGen) (a : Namespace) (target : Z)
      (st : loop_state G) (i : Z) :
  exists nik name phone,
    rows (build_rows_body G a target st i) =
      (rows st ++ [[date a; nik; name; phone]])%list /\
    clean nik = true /\ clean name = true /\ clean phone = true.
Proof.
  unfold build_rows_body.
  destruct (String.eqb (mode a) "invalid").
  { destruct (invalid_row_clean a i) as [x [y [z [-> H]]]].
    exists x, y, z. split; [reflexivity | exact H]. }
  destruct (String.eqb (mode a) "mixed").
  { destruct (valid_count st <? target)%Z.
    - destruct (valid_shaped_row_clean a i) as [x [y [z [-> H]]]].
      exists x, y, z. split; [reflexivity | exact H].
    - destruct (invalid_row_clean a i) as [x [y [z [-> H]]]].
      exists x, y, z. split; [reflexivity | exact H]. }
  destruct (String.eqb (mode a) "uniform").
  { destruct (uniform_row_clean a i) as [x [y [z [-> H]]]].
    exists x, y, z. split; [reflexivity | exact H]. }
  pose proof (choice_clean G (rng st) VALID_PHONES eq_refl) as Hp.
  destruct (choice G (rng st) VALID_PHONES) as [phone s1].
  pose proof (choice_clean G s1 VALID_NAMES eq_refl) as Hn.
  destruct (choice G s1 VALID_NAMES) as [name s2].
  do 3 eexists. split; [reflexivity |]. repeat split.
  - apply make_nik_clean.
  - exact Hn.
  - exact Hp.
Qed.

Lemma loop_rows_clean (G : RandomGen) (a : Namespace) (target : Z)
      (s : rng_state G) (n : nat) :
  exists data,
    rows (loop_upto G a target s n) = header :: data /\
    List.length data = n /\
    Forall (fun r => exists nik name phone,
                r = [date a; nik; name; phone] /\
                clean nik = true /\ clean name = true /\ clean phone = true)
           data.
Proof.
  induction n as [| n [data [Hrows [Hlen Hall]]]].
  - exists []. repeat split. constructor.
  - rewrite loop_upto_succ.
    destruct (body_row_clean G a target (loop_upto G a target s n) (Z.of_nat n))
      as [x [y [z [Hr Hc]]]].
    exists (data ++ [[date a; x; y; z]])%list. rewrite Hr, Hrows.
    split; [reflexivity |]. split; [rewrite length_app; cbn; lia |].
    apply Forall_app. split; [exact Hall |].
    constructor; [| constructor]. now exists x, y, z.
Qed.

(** X8.  The CSV text of the rows that [build_rows] returns, in any mode and
    under any generator, reads back as those very rows exactly when there is
    no data row or the [--date] value holds neither a comma nor a line break:
    the date is the only field that can break the file. *)
Theorem generated_csv_reads_back (G : RandomGen) (a : Namespace)
        (s s' : rng_state G) (rws : list row) :
  build_rows G a s = Ok (rws, s') ->
  (parse_csv (csv_text rws) = rws <->
   (records a <= 0)%Z \/ clean (date a) = true).
Proof.
  intros Hb.
  destruct (valid_target (records a) (valid_ratio a)) as [target | e] eqn:Ht;
    [| rewrite (build_rows_raise G a s e Ht) in Hb; discriminate].
  rewrite (build_rows_ok G a s target Ht) in Hb. injection Hb as <- _.
  destruct (loop_rows_clean G a target s (Z.to_nat (records a)))
    as [data [-> [Hlen Hall]]].
  split.
  - intros Hp. destruct (Z_le_gt_dec (records a) 0) as [Hle | Hgt]; [now left |].
    right.
    assert (Forall (fun r => r <> [] /\ forallb clean r = true)
                   (header :: data)) as HF.
    { rewrite <- Hp. apply parse_csv_rows_clean. }
    destruct data as [| r data]; [cbn in Hlen; lia |].
    inversion HF as [| ? ? _ HF']; subst. inversion HF' as [| ? ? [_ Hr] _]; subst.
    inversion Hall as [| ? ? [x [y [z [-> _]]]] _]; subst.
    cbn [forallb] in Hr. now apply andb_true_iff in Hr as [Hr _].
  - intros Hd. apply parse_csv_text. constructor.
    + split; [discriminate | reflexivity].
    + destruct Hd as [Hle | Hd].
      * destruct data; [constructor | cbn in Hlen; lia].
      * eapply Forall_impl; [| exact Hall].
        intros r [x [y [z [-> [Hx [Hy Hz]]]]]]. split; [discriminate |].
        cbn [forallb]. now rewrite Hd, Hx, Hy, Hz.
Qed.

Lemma generated_csv_reads_back_witness :
  parse_csv (csv_text [header;
                       ["22-08-2025"; "3100000000000000"; "PATIENT_1";
                        "081234567890"]])
    = [header;
       ["22-08-2025"; "3100000000000000"; "PATIENT_1"; "081234567890"]] <->
  (1 <= 0)%Z \/ clean "22-08-2025" = true.
Proof.
  apply (generated_csv_reads_back lcg_gen
           (sample_args "uniform" 1 PyFloat.f_half) 42%Z 42%Z).
  vm_compute. reflexivity.
Defined.

(** ** NIKs across rows and files *)

Lemma nik_base_cases (m : string) (target i : Z) :
  nik_base m target i = 9000000000000000%Z \/
  nik_base m target i = 3200000000000000%Z \/
  nik_base m target i = 3100000000000000%Z \/
  nik_base m target i = 3300000000000000%Z.
Proof.
  unfold nik_base.
  destruct (String.eqb m "invalid"); [now left |].
  destruct (String.eqb m "mixed");
    [destruct (i <? target)%Z; [right; now left | now left] |].
  destruct (String.eqb m "uniform"); [right; right; now left |].
  right; right; now right.
Qed.

Lemma nik_base_mono (m : string) (target i j : Z) :
  (i <= j)%Z -> (nik_base m target i <= nik_base m target j)%Z.
Proof.
  intros Hij. unfold nik_base.
  destruct (String.eqb m "invalid"); [lia |].
  destruct (String.eqb m "mixed"); [| destruct (String.eqb m "uniform"); lia].
  destruct (Z.ltb_spec i target), (Z.ltb_spec j target); lia.
Qed.

(** X9.  In every mode the NIKs of the CSV, read as numbers, grow strictly
    with the row index over the rows that have one: no NIK is written twice
    and the file is sorted by NIK, however many rows there are. *)
Theorem niks_strictly_increase (G : RandomGen) (a : Namespace)
        (s : rng_state G) (target : Z) :
  valid_target (records a) (valid_ratio a) = Ok target ->
  exists data s',
    build_rows G a s = Ok (header :: data, s') /\
    forall i j ri rj,
      (0 <= i < j)%Z -> (j < records a)%Z ->
      nth_error data (Z.to_nat i) = Some ri ->
      nth_error data (Z.to_nat j) = Some rj ->
      nik_of ri <> "" -> nik_of rj <> "" ->
      (PyStr.parse (nik_of ri) < PyStr.parse (nik_of rj))%Z.
Proof.
  intros Ht.
  destruct (build_rows_nik G a s target Ht) as [data [s' [Hb Hnik]]].
  exists data, s'. split; [exact Hb |].
  intros i j ri rj Hij Hj Hi_nth Hj_nth Hni Hnj.
  destruct (Hnik i ltac:(lia)) as [ri' [Hri Hi_eq]].
  destruct (Hnik j ltac:(lia)) as [rj' [Hrj Hj_eq]].
  rewrite Hi_nth in Hri. injection Hri as <-.
  rewrite Hj_nth in Hrj. injection Hrj as <-.
  rewrite (Hi_eq Hni), (Hj_eq Hnj). unfold make_nik.
  pose proof (nik_base_cases (mode a) target i) as Hci.
  pose proof (nik_base_mono (mode a) target i j ltac:(lia)) as Hmono.
  rewrite !PyStrFacts.format_016d_parse by lia. lia.
Qed.

Lemma niks_strictly_increase_witness :
  exists data s',
    build_rows lcg_gen (sample_args "mixed" 12 PyFloat.f_half) 42%Z
      = Ok (header :: data, s') /\
    forall i j ri rj,
      (0 <= i < j)%Z -> (j < 12)%Z ->
      nth_error data (Z.to_nat i) = Some ri ->
      nth_error data (Z.to_nat j) = Some rj ->
      nik_of ri <> "" -> nik_of rj <> "" ->
      (PyStr.parse (nik_of ri) < PyStr.parse (nik_of rj))%Z.
Proof.
  apply (niks_strictly_increase lcg_gen
           (sample_args "mixed" 12 PyFloat.f_half) 42%Z 6%Z).
  vm_compute. reflexivity.
Defined.

(** X10.  [make_nik] pads and never cuts: its text is as long as the longer
    of 16 and the decimal text of [base + idx], sign included, and for a sum
    that is not negative it reads back as that sum. *)
Theorem make_nik_pads_never_cuts (base idx : Z) :
  String.length (make_nik base idx) =
    Nat.max 16 (String.length (PyStr.str (base + idx))) /\
  ((0 <= base + idx)%Z -> PyStr.parse (make_nik base idx) = (base + idx)%Z).
Proof.
  split.
  - unfold make_nik, PyStr.format_016d, PyStr.str.
    destruct (base + idx <? 0)%Z.
    + rewrite !PyStrFacts.length_append, PyStrFacts.zfill_length.
      cbn [String.length]. lia.
    + apply PyStrFacts.zfill_length.
  - apply PyStrFacts.format_016d_parse.
Qed.

Lemma make_nik_pads_never_cuts_witness :
  String.length (make_nik 9000000000000000 1000000000000001) =
    Nat.max 16 (String.length (PyStr.str (9000000000000000 + 1000000000000001))) /\
  ((0 <= 9000000000000000 + 1000000000000001)%Z ->
   PyStr.parse (make_nik 9000000000000000 1000000000000001)
     = (9000000000000000 + 1000000000000001)%Z).
Proof. apply (make_nik_pads_never_cuts 9000000000000000 1000000000000001). Defined.

Lemma range_NoDup (n : Z) : NoDup (range n).
Proof.
  unfold range. apply NoDup_map_NoDup_ForallPairs; [| apply seq_NoDup].
  intros x y _ _. apply Nat2Z.inj.
Qed.

Lemma range_In (n i : Z) : In i (range n) -> (0 <= i < n)%Z.
Proof.
  unfold range. intros H. apply in_map_iff in H as [k [<- Hk]].
  apply in_seq in Hk. lia.
Qed.

Lemma str_inj_nonneg (x y : Z) :
  (0 <= x)%Z -> (0 <= y)%Z -> PyStr.str x = PyStr.str y -> x = y.
Proof.
  intros Hx Hy. unfold PyStr.str.
  destruct (Z.ltb_spec x 0); [lia |]. destruct (Z.ltb_spec y 0); [lia |].
  intros Heq. rewrite <- (PyStrFacts.parse_str_nonneg x Hx),
              <- (PyStrFacts.parse_str_nonneg y Hy).
  now rewrite Heq.
Qed.

Lemma bundle_patients_entries (n : Z) :
  bundle_patients (patients_bundle n) = map patient_entry (range n).
Proof. now rewrite patients_bundle_entries. Qed.

(** X11.  No two patients of the bundle share an id, a NIK or a family
    name, however many there are. *)
Theorem bundle_patients_distinct (n : Z) :
  NoDup (map patient_id (bundle_patients (patients_bundle n))) /\
  NoDup (map patient_nik (bundle_patients (patients_bundle n))) /\
  NoDup (map patient_family (bundle_patients (patients_bundle n))).
Proof.
  rewrite bundle_patients_entries, !map_map.
  repeat split; apply NoDup_map_NoDup_ForallPairs; try apply range_NoDup;
    intros x y Hx Hy Heq; apply range_In in Hx, Hy.
  - change (Some ("patient-" ++ PyStr.str (x + 1)) =
            Some ("patient-" ++ PyStr.str (y + 1))) in Heq.
    injection Heq as Heq. apply str_inj_nonneg in Heq; lia.
  - change (Some (make_nik 3000000000000000 x) =
            Some (make_nik 3000000000000000 y)) in Heq.
    injection Heq as Heq. now apply make_nik_inj in Heq.
  - change (Some ("PATIENT_" ++ PyStr.str (x + 1)) =
            Some ("PATIENT_" ++ PyStr.str (y + 1))) in Heq.
    injection Heq as Heq. apply str_inj_nonneg in Heq; lia.
Qed.

(** X12.  Up to [10^14] records, no NIK of the CSV is the NIK of a patient
    of the bundle written for the same run, in any mode: the bundle counts
    from [3_000_000_000_000_000] and every CSV base lies at least [10^14]
    above it. *)
Theorem csv_and_bundle_share_no_nik (G : RandomGen) (a : Namespace)
        (s : rng_state G) (target : Z) :
  (records a <= 10 ^ 14)%Z ->
  valid_target (records a) (valid_ratio a) = Ok target ->
  exists data s',
    build_rows G a s = Ok (header :: data, s') /\
    forall i j, (0 <= i < records a)%Z -> (0 <= j < records a)%Z ->
      exists r e,
        nth_error data (Z.to_nat i) = Some r /\
        nth_error (bundle_patients (patients_bundle (records a))) (Z.to_nat j)
          = Some e /\
        patient_nik e <> Some (nik_of r).
Proof.
  intros Hn Ht.
  destruct (build_rows_nik G a s target Ht) as [data [s' [Hb Hnik]]].
  exists data, s'. split; [exact Hb |].
  intros i j Hi Hj.
  destruct (Hnik i Hi) as [r [Hr Hr_eq]].
  exists r, (patient_entry j). split; [exact Hr |]. split.
  - rewrite bundle_patients_entries. now apply range_nth_error.
  - change (patient_nik (patient_entry j))
      with (Some (make_nik 3000000000000000 j)).
    intros Heq. injection Heq as Heq.
    assert (nik_of r <> "") as Hne.
    { rewrite <- Heq. apply make_nik_nonempty. }
    rewrite (Hr_eq Hne) in Heq. unfold make_nik in Heq.
    apply PyStrFacts.format_016d_inj in Heq.
    change (10 ^ 14)%Z with 100000000000000%Z in Hn.
    destruct (nik_base_cases (mode a) target i) as [H | [H | [H | H]]];
      rewrite H in Heq; lia.
Qed.

Lemma csv_and_bundle_share_no_nik_witness :
  exists data s',
    build_rows lcg_gen (sample_args "uniform" 3 PyFloat.f_half) 42%Z
      = Ok (header :: data, s') /\
    forall i j, (0 <= i < 3)%Z -> (0 <= j < 3)%Z ->
      exists r e,
        nth_error data (Z.to_nat i) = Some r /\
        nth_error (bundle_patients (patients_bundle 3)) (Z.to_nat j) = Some e /\
        patient_nik e <> Some (nik_of r).
Proof.
  apply (csv_and_bundle_share_no_nik lcg_gen
           (sample_args "uniform" 3 PyFloat.f_half) 42%Z 1%Z).
  - cbn. lia.
  - vm_compute. reflexivity.
Defined.

(** ** Draws *)

Lemma loop_valid_rng (G : RandomGen) (a : Namespace) (target : Z)
      (s : rng_state G) (n : nat) :
  deterministic_mode (mode a) = false ->
  rng (loop_upto G a target s n) = Nat.iter n (draw_row G) s.
Proof.
  intros Hm. unfold deterministic_mode in Hm.
  apply orb_false_iff in Hm as [Hm Hu].
  apply orb_false_iff in Hm as [Hi Hx].
  induction n as [| n IH]; [reflexivity |].
  rewrite loop_upto_succ.
  change (Nat.iter (S n) (draw_row G) s)
    with (draw_row G (Nat.iter n (draw_row G) s)).
  rewrite <- IH.
  unfold build_rows_body, draw_row. rewrite Hi, Hx, Hu.
  destruct (choice G (rng (loop_upto G a target s n)) VALID_PHONES) as [phone s1].
  cbn [snd].
  destruct (choice G s1 VALID_NAMES) as [name s2]. reflexivity.
Qed.

(** X13.  Valid mode draws from the generator exactly twice for every row,
    the phone before the name, and nothing else: the state it leaves is the
    seeded state after [records] such pairs of draws. *)
Theorem valid_mode_draws (G : RandomGen) (a : Namespace)
        (s s' : rng_state G) (rws : list row) :
  deterministic_mode (mode a) = false ->
  build_rows G a s = Ok (rws, s') ->
  s' = Nat.iter (Z.to_nat (records a)) (draw_row G) s.
Proof.
  intros Hm Hb.
  destruct (valid_target (records a) (valid_ratio a)) as [target | e] eqn:Ht;
    [| rewrite (build_rows_raise G a s e Ht) in Hb; discriminate].
  rewrite (build_rows_ok G a s target Ht) in Hb. injection Hb as _ <-.
  now apply loop_valid_rng.
Qed.

Lemma valid_mode_draws_witness :
  71666532%Z = Nat.iter (Z.to_nat 3) (draw_row lcg_gen) 42%Z.
Proof.
  apply (valid_mode_draws lcg_gen (sample_args "valid" 3 PyFloat.f_half)
           42%Z 71666532%Z
           [header;
            ["22-08-2025"; "3300000000000000"; "DEWI LESTARI SARI"; "082345678901"];
            ["22-08-2025"; "3300000000000001"; "RINA PERMATA ANGGRAINI";
             "083456789012"];
            ["22-08-2025"; "3300000000000002"; "DEWI LESTARI SARI"; "081234567890"]]).
  - reflexivity.
  - vm_compute. reflexivity.
Defined.

(** ** Line 74 at the ends of the double range *)

Section Line74.

Import PyFloat.
Local Open Scope Z_scope.

Variable h : Z.
Hypothesis Hh : h <= -1074.

Lemma int_round_huge (sx : bool) (p : positive) :
  2 ^ 1024 <= Zpos p -> binary_round prec emax sx p 0 = S754_infinity sx.
Proof.
  intros Hp.
  destruct (PyFloatFacts.binary_round_aligned sx p 0)
    as [mz [ez [Hz0 [Hzl [Hmz [Hal Hbr]]]]]].
  assert (Zpos mz * 2 ^ (ez - (h + h)) = Zpos p * 2 ^ (0 - (h + h))) as HM.
  { rewrite Hmz.
    replace (0 - (h + h)) with ((0 - ez) + (ez - (h + h))) by lia.
    rewrite PyFloatFacts.pow2_split by lia. ring. }
  rewrite Hbr.
  pose proof (PyFloatFacts.pow2_pos (0 - (h + h)) ltac:(lia)) as Hpu.
  assert (2 ^ 52 * 2 ^ (972 - (h + h)) = 2 ^ 1024 * 2 ^ (0 - (h + h))) as Hsplit.
  { rewrite <- !PyFloatFacts.pow2_split by lia. f_equal. lia. }
  assert (Zpos 4503599627370496 * 2 ^ (972 - (h + h))
          <= Zpos mz * 2 ^ (ez - (h + h))) as Hone.
  { rewrite HM. change (Zpos 4503599627370496) with (2 ^ 52). rewrite Hsplit.
    apply Z.mul_le_mono_nonneg_r; [lia | exact Hp]. }
  destruct (PyFloatFacts.round_ge_cases sx mz ez 4503599627370496 972 (h + h) Hal
              ltac:(reflexivity) ltac:(lia) ltac:(lia) Hone)
    as [Hinf | [m [e [Hfin [Hbm [Hee Hge]]]]]]; [exact Hinf | exfalso].
  pose proof (proj1 (PyFloatFacts.bounded_iff m e) Hbm) as [Hcan He].
  pose proof (PyFloatFacts.canonical_dig m e Hcan) as [Hd53 Hlow].
  pose proof (PyFloatFacts.dig_bounds m) as [_ Hhi].
  assert (2 ^ dig m <= 2 ^ 53) as Hd by (apply Z.pow_le_mono_r; lia).
  change (Zpos 4503599627370496) with (2 ^ 52) in Hge.
  rewrite <- PyFloatFacts.pow2_split in Hge by lia.
  pose proof (PyFloatFacts.pow2_pos (e - (h + h)) ltac:(lia)) as Hp2.
  assert (Zpos m * 2 ^ (e - (h + h)) < 2 ^ 53 * 2 ^ (e - (h + h))) as Hm
    by (apply Z.mul_lt_mono_pos_r; lia).
  rewrite <- PyFloatFacts.pow2_split in Hm by lia.
  assert (2 ^ (52 + (972 - (h + h))) < 2 ^ (53 + (e - (h + h)))) as Hlt by lia.
  apply Z.pow_lt_mono_r_iff in Hlt; lia.
Qed.

Lemma int_round_in_range (sx : bool) (p : positive) :
  Zpos p <= 2 ^ 1024 - 2 ^ 971 ->
  exists m e,
    binary_round prec emax sx p 0 = S754_finite sx m e /\
    bounded prec emax m e = true.
Proof.
  intros Hp.
  destruct (PyFloatFacts.binary_round_aligned sx p 0)
    as [mz [ez [Hz0 [Hzl [Hmz [Hal Hbr]]]]]].
  assert (Zpos mz * 2 ^ (ez - (h + h)) = Zpos p * 2 ^ (0 - (h + h))) as HM.
  { rewrite Hmz.
    replace (0 - (h + h)) with ((0 - ez) + (ez - (h + h))) by lia.
    rewrite PyFloatFacts.pow2_split by lia. ring. }
  pose proof (PyFloatFacts.pow2_pos (0 - (h + h)) ltac:(lia)) as Hpu.
  assert (2 ^ 1024 - 2 ^ 971 = 9007199254740991 * 2 ^ 971) as Hmax
    by reflexivity.
  assert (Zpos mz * 2 ^ (ez - (h + h))
          <= Zpos 9007199254740991 * 2 ^ (971 - (h + h))) as Hle.
  { rewrite HM.
    replace (971 - (h + h)) with (971 + (0 - (h + h))) by lia.
    rewrite PyFloatFacts.pow2_split, Z.mul_assoc, <- Hmax by lia.
    apply Z.mul_le_mono_nonneg_r; [lia | exact Hp]. }
  destruct (PyFloatFacts.int_round_ge1 h Hh sx p)
    as [Hinf | [m [e [Hfin [Hbm _]]]]].
  - rewrite Hbr in Hinf.
    destruct (PyFloatFacts.round_le sx mz ez 9007199254740991 971 (h + h) Hal
                ltac:(reflexivity) ltac:(lia) ltac:(lia) Hle)
      as [Hzero | [m [e [Hfin _]]]]; congruence.
  - exists m, e. split; [exact Hfin | exact Hbm].
Qed.

End Line74.

Lemma float_of_int_huge (n : Z) :
  (2 ^ 1024 <= Z.abs n)%Z -> PyFloat.float_of_int n = Raise OverflowError.
Proof.
  intros Hn. destruct n as [| p | p].
  - exfalso. pose proof (PyFloatFacts.pow2_pos 1024 ltac:(lia)). cbn in Hn. lia.
  - rewrite PyFloatFacts.float_of_int_pos.
    now rewrite (int_round_huge (-1074) ltac:(lia) false p Hn).
  - rewrite PyFloatFacts.float_of_int_neg.
    now rewrite (int_round_huge (-1074) ltac:(lia) true p Hn).
Qed.

Lemma float_of_int_in_range (n : Z) :
  n <> 0%Z -> (Z.abs n <= 2 ^ 1024 - 2 ^ 971)%Z ->
  exists m e,
    PyFloat.float_of_int n = Ok (S754_finite (n <? 0)%Z m e) /\
    bounded PyFloat.prec PyFloat.emax m e = true.
Proof.
  intros Hne Hn. destruct n as [| p | p]; [contradiction | |].
  - destruct (int_round_in_range (-1074) ltac:(lia) false p Hn) as [m [e [Hx Hb]]].
    exists m, e. rewrite PyFloatFacts.float_of_int_pos, Hx. now split.
  - destruct (int_round_in_range (-1074) ltac:(lia) true p Hn) as [m [e [Hx Hb]]].
    exists m, e. rewrite PyFloatFacts.float_of_int_neg, Hx. now split.
Qed.

(** What [float(n)] can be: an overflow, the zero of [n = 0], or a finite
    double of the sign of [n]. *)
Lemma float_of_int_cases (n : Z) :
  PyFloat.float_of_int n = Raise OverflowError \/
  (n = 0%Z /\ PyFloat.float_of_int n = Ok (S754_zero false)) \/
  (n <> 0%Z /\ exists m e,
     PyFloat.float_of_int n = Ok (S754_finite (n <? 0)%Z m e)).
Proof.
  destruct n as [| p | p].
  - right; left. now split.
  - rewrite PyFloatFacts.float_of_int_pos.
    destruct (PyFloatFacts.int_round_ge1 (-1074) ltac:(lia) false p)
      as [-> | [m [e [-> _]]]]; [now left | right; right].
    split; [discriminate | now exists m, e].
  - rewrite PyFloatFacts.float_of_int_neg.
    destruct (PyFloatFacts.int_round_ge1 (-1074) ltac:(lia) true p)
      as [-> | [m [e [-> _]]]]; [now left | right; right].
    split; [discriminate | now exists m, e].
Qed.

(** X14.  A record count of magnitude [2^1024] or more makes [build_rows]
    raise [OverflowError] at line 74 in every mode and for every ratio, also
    in the modes that never read the target. *)
Theorem huge_records_overflow (G : RandomGen) (a : Namespace) (s : rng_state G) :
  (2 ^ 1024 <= Z.abs (records a))%Z ->
  build_rows G a s = Raise OverflowError.
Proof.
  intros Hn. apply build_rows_raise. unfold valid_target.
  now rewrite (float_of_int_huge (records a) Hn).
Qed.

Lemma huge_records_overflow_witness :
  build_rows lcg_gen (sample_args "uniform" (2 ^ 1024) PyFloat.f_half) 42%Z
    = Raise OverflowError.
Proof.
  apply (huge_records_overflow lcg_gen
           (sample_args "uniform" (2 ^ 1024) PyFloat.f_half) 42%Z).
  vm_compute. discriminate.
Defined.

(** X15.  For every record count up to the largest double,
    [2^1024 - 2^971], in magnitude, and every finite ratio of magnitude at
    most one, line 74 raises nothing and [build_rows] returns its rows, in
    every mode. *)
Theorem records_in_double_range (G : RandomGen) (a : Namespace)
        (s : rng_state G) :
  (Z.abs (records a) <= 2 ^ 1024 - 2 ^ 971)%Z ->
  PyFloat.is_float (valid_ratio a) = true ->
  PyFloat.fleb (SFabs (valid_ratio a)) PyFloat.f_one = true ->
  exists rws s', build_rows G a s = Ok (rws, s').
Proof.
  intros Hn Hf Hr.
  assert (exists vt, valid_target (records a) (valid_ratio a) = Ok vt) as Hvt.
  { destruct (Z.eq_dec (records a) 0) as [-> | Hne].
    - rewrite PyFloatFacts.valid_target_zero_records.
      destruct (valid_ratio a) as [sg | sg | | sg my ey]; try discriminate;
        eexists; reflexivity.
    - destruct (float_of_int_in_range (records a) Hne Hn) as [m1 [e1 [Hx Hb1]]].
      unfold valid_target. rewrite Hx. cbn [bind].
      destruct (valid_ratio a) as [sg | sg | | sg my ey]; try discriminate.
      + eexists; reflexivity.
      + destruct (PyFloatFacts.fmul_ratio_le (records a <? 0)%Z sg m1 my e1 ey
                    Hb1 Hf Hr) as [Hz | [m [e [Hfin _]]]].
        * rewrite Hz. eexists; reflexivity.
        * rewrite Hfin. eexists; reflexivity. }
  destruct (proj2 (build_rows_defined G a s) Hvt) as [[rws s'] Hb].
  now exists rws, s'.
Qed.

Lemma records_in_double_range_witness :
  exists rws s',
    build_rows lcg_gen (sample_args "invalid" (-3) PyFloat.f_one) 42%Z
      = Ok (rws, s').
Proof.
  apply (records_in_double_range lcg_gen
           (sample_args "invalid" (-3) PyFloat.f_one) 42%Z).
  - vm_compute. discriminate.
  - reflexivity.
  - reflexivity.
Defined.

(** X16.  A ratio that is NaN or infinite makes [build_rows] raise in every
    mode, whatever the record count: [ValueError] when the product of line 74
    is NaN, that is for a NaN ratio or for zero records, and [OverflowError]
    otherwise. *)
Theorem non_finite_ratio_raises (G : RandomGen) (a : Namespace)
        (s : rng_state G) :
  (valid_ratio a = S754_nan \/ exists sg, valid_ratio a = S754_infinity sg) ->
  exists e,
    build_rows G a s = Raise e /\
    (e = ValueError <->
     PyFloat.float_of_int (records a) <> Raise OverflowError /\
     (valid_ratio a = S754_nan \/ records a = 0%Z)).
Proof.
  intros Hr.
  destruct (float_of_int_cases (records a))
    as [Hov | [[H0 Hx] | [Hne [m [e Hx]]]]].
  - exists OverflowError. split.
    + apply build_rows_raise. unfold valid_target. now rewrite Hov.
    + split; [discriminate | intros [Hc _]; contradiction].
  - exists ValueError. split.
    + apply build_rows_raise. unfold valid_target. rewrite Hx. cbn [bind].
      destruct Hr as [-> | [sg ->]]; reflexivity.
    + split; [intros _ | reflexivity]. split; [rewrite Hx; discriminate |].
      now right.
  - destruct Hr as [Hnan | [sg Hinf]].
    + exists ValueError. split.
      * apply build_rows_raise. unfold valid_target. rewrite Hx, Hnan.
        reflexivity.
      * split; [intros _ | reflexivity]. split; [rewrite Hx; discriminate |].
        now left.
    + exists OverflowError. split.
      * apply build_rows_raise. unfold valid_target. rewrite Hx, Hinf.
        reflexivity.
      * split; [discriminate |]. intros [_ [Hc | Hc]]; [| contradiction].
        rewrite Hinf in Hc. discriminate.
Qed.

Lemma non_finite_ratio_raises_witness :
  exists e,
    build_rows lcg_gen (sample_args "valid" 10 PyFloat.f_inf) 42%Z = Raise e /\
    (e = ValueError <->
     PyFloat.float_of_int 10 <> Raise OverflowError /\
     (PyFloat.f_inf = S754_nan \/ 10%Z = 0%Z)).
Proof.
  apply (non_finite_ratio_raises lcg_gen
           (sample_args "valid" 10 PyFloat.f_inf) 42%Z).
  right. exists false. reflexivity.
Defined.

(** ** The default ratio *)

Section Half.

Import PyFloat.
Local Open Scope Z_scope.

Variable h : Z.
Hypothesis Hh : h <= -1074.

(** The floor of a double is below its value. *)
Lemma shiftl_below (m e u : Z) :
  u <= e -> u <= 0 -> 0 <= m ->
  Z.shiftl m e * 2 ^ (0 - u) <= m * 2 ^ (e - u).
Proof.
  intros Hue Hu0 Hm.
  destruct (Z.le_gt_cases 0 e) as [He | He].
  - rewrite Z.shiftl_mul_pow2 by lia.
    replace (e - u) with (e + (0 - u)) by lia.
    rewrite PyFloatFacts.pow2_split by lia. lia.
  - rewrite Z.shiftl_div_pow2 by lia.
    pose proof (PyFloatFacts.pow2_pos (- e) ltac:(lia)) as Hp.
    pose proof (PyFloatFacts.pow2_pos (e - u) ltac:(lia)) as Hpe.
    replace (0 - u) with (- e + (e - u)) by lia.
    rewrite PyFloatFacts.pow2_split, Z.mul_assoc by lia.
    apply Z.mul_le_mono_nonneg_r; [lia |].
    rewrite Z.mul_comm. apply Z.mul_div_le. exact Hp.
Qed.

Lemma shiftl_lt (m e u n : Z) :
  u <= e -> u <= 0 -> 0 <= m ->
  m * 2 ^ (e - u) < (n + 1) * 2 ^ (0 - u) -> Z.shiftl m e <= n.
Proof.
  intros Hue Hu0 Hm Hlt.
  pose proof (shiftl_below m e u Hue Hu0 Hm) as Hb.
  pose proof (PyFloatFacts.pow2_pos (0 - u) ltac:(lia)) as Hpu.
  assert (Z.shiftl m e * 2 ^ (0 - u) < (n + 1) * 2 ^ (0 - u)) as Hs by lia.
  apply Z.mul_lt_mono_pos_r in Hs; lia.
Qed.

(** Half of a normal double above the smallest exponent is exact. *)
Lemma fmul_half_exact (sx : bool) (m1 : positive) (e1 : Z) :
  bounded prec emax m1 e1 = true -> dig m1 = 53 -> -1073 <= e1 ->
  exists m e,
    fmul (S754_finite sx m1 e1) f_half = S754_finite sx m e /\
    -1074 <= e /\
    2 * (Zpos m * 2 ^ (e - (h + h))) = Zpos m1 * 2 ^ (e1 - (h + h)).
Proof.
  intros Hb Hd He1.
  pose proof (proj1 (PyFloatFacts.bounded_iff m1 e1) Hb) as [Hc1 Hmax].
  assert (fexp64 (dig m1 + (e1 - 1)) = e1 - 1) as Hcx
    by (rewrite PyFloatFacts.fexp64_eq; lia).
  assert (bounded prec emax m1 (e1 - 1) = true) as Hbx
    by (apply PyFloatFacts.bounded_iff; split; [exact Hcx | lia]).
  unfold f_half. rewrite PyFloatFacts.fmul_finite.
  replace (xorb sx false) with sx by (destruct sx; reflexivity).
  pose proof (PyFloatFacts.mul_aligned m1 4503599627370496 e1 (-53) Hc1
                ltac:(reflexivity)) as Hal.
  assert (Zpos (m1 * 4503599627370496) * 2 ^ (e1 + -53 - (h + h))
          = Zpos m1 * 2 ^ (e1 - 1 - (h + h))) as HM.
  { rewrite Pos2Z.inj_mul. change (Zpos 4503599627370496) with (2 ^ 52).
    rewrite <- Z.mul_assoc, <- PyFloatFacts.pow2_split by lia.
    f_equal. f_equal. lia. }
  destruct (PyFloatFacts.round_le sx (m1 * 4503599627370496) (e1 + -53) m1
              (e1 - 1) (h + h) Hal Hbx ltac:(lia) ltac:(lia) ltac:(lia))
    as [Hzero | [m [e [Hfin [Hbm [Hee Hle]]]]]];
    destruct (PyFloatFacts.round_ge_cases sx (m1 * 4503599627370496) (e1 + -53)
                m1 (e1 - 1) (h + h) Hal Hcx ltac:(lia) ltac:(lia) ltac:(lia))
      as [Hinf | [m' [e' [Hfin' [_ [_ Hge]]]]]];
    try congruence.
  rewrite Hfin in Hfin'. injection Hfin' as <- <-.
  exists m, e. split; [exact Hfin |].
  pose proof (proj1 (PyFloatFacts.bounded_iff m e) Hbm) as [Hcm _].
  pose proof (PyFloatFacts.canonical_dig m e Hcm) as [_ Hlm].
  split; [exact Hlm |].
  assert (Zpos m * 2 ^ (e - (h + h)) = Zpos m1 * 2 ^ (e1 - 1 - (h + h))) as Hv
    by lia.
  rewrite Hv.
  replace (e1 - (h + h)) with (1 + (e1 - 1 - (h + h))) by lia.
  rewrite PyFloatFacts.pow2_split by lia. change (2 ^ 1) with 2. ring.
Qed.

(** [float(n)] of [1 <= n <= 2^53]: a normal double of the value [n]. *)
Lemma float_of_small_int (p : positive) :
  Zpos p <= 2 ^ 53 ->
  exists m e,
    float_of_int (Zpos p) = Ok (S754_finite false m e) /\
    bounded prec emax m e = true /\ dig m = 53 /\ -52 <= e /\
    Zpos m * 2 ^ (e - (h + h)) = Zpos p * 2 ^ (0 - (h + h)).
Proof.
  intros Hp.
  destruct (PyFloatFacts.representable_small (Zpos p) ltac:(cbn [Z.abs]; exact Hp))
    as [H0 | [mx [ex [Hb Hsv]]]]; [discriminate |].
  cbn [Z.abs] in Hsv.
  destruct (PyFloatFacts.int_round_exact h Hh false p mx ex Hb Hsv)
    as [m [e [Hx [Hbm Hv]]]].
  destruct (PyFloatFacts.int_round_ge1 h Hh false p)
    as [Hinf | [m' [e' [Hx' [_ [Hd _]]]]]]; [congruence |].
  rewrite Hx in Hx'. injection Hx' as <- <-.
  exists m, e. rewrite PyFloatFacts.float_of_int_pos, Hx.
  split; [reflexivity |]. split; [exact Hbm |]. split; [exact Hd |].
  split; [| exact Hv].
  pose proof (proj1 (PyFloatFacts.bounded_iff m e) Hbm) as [Hcm _].
  pose proof (PyFloatFacts.canonical_dig m e Hcm) as [_ Hlm].
  pose proof (PyFloatFacts.dig_bounds m) as [_ Hhi]. rewrite Hd in Hhi.
  pose proof (PyFloatFacts.pow2_pos (e - (h + h)) ltac:(lia)) as Hpe.
  pose proof (PyFloatFacts.pow2_pos (0 - (h + h)) ltac:(lia)) as Hpu.
  assert (Zpos m * 2 ^ (e - (h + h)) < 2 ^ 53 * 2 ^ (e - (h + h))) as Hlt
    by (apply Z.mul_lt_mono_pos_r; lia).
  rewrite <- PyFloatFacts.pow2_split in Hlt by lia.
  assert (2 ^ (0 - (h + h)) < 2 ^ (53 + (e - (h + h)))) as Hpow by nia.
  apply Z.pow_lt_mono_r_iff in Hpow; lia.
Qed.

Lemma valid_target_half (n : Z) :
  0 <= n <= 2 ^ 53 -> valid_target n f_half = Ok (n / 2).
Proof.
  intros Hn. destruct n as [| p | p]; [reflexivity | | lia].
  destruct (float_of_small_int p ltac:(lia)) as [m1 [e1 [Hx [Hb [Hd [He Hv]]]]]].
  destruct (fmul_half_exact false m1 e1 Hb Hd ltac:(lia)) as [m [e [Hf [Hl Hh2]]]].
  unfold valid_target. rewrite Hx. cbn [bind]. rewrite Hf.
  cbn [math_floor cond_Zopp]. f_equal.
  rewrite Hv in Hh2.
  pose proof (PyFloatFacts.pow2_pos (0 - (h + h)) ltac:(lia)) as Hpu.
  pose proof (Z.div_mod (Zpos p) 2 ltac:(lia)) as Hdm.
  pose proof (Z.mod_pos_bound (Zpos p) 2 ltac:(lia)) as Hmb.
  apply Z.le_antisymm.
  - apply (shiftl_lt (Zpos m) e (h + h) (Zpos p / 2)); [lia | lia | lia |]. nia.
  - apply (PyFloatFacts.shiftl_ge (Zpos m) e (h + h) (Zpos p / 2)); [lia | lia |].
    nia.
Qed.

End Half.

(** X17.  With the default ratio [0.5], line 74 computes exactly
    [records // 2] for every count from 0 to [2^53], so a mixed run starts
    with that many rows of valid phones and ends with invalid ones. *)
Theorem mixed_mode_default_ratio (G : RandomGen) (a : Namespace)
        (s : rng_state G) :
  mode a = "mixed" ->
  valid_ratio a = PyFloat.f_half ->
  (0 <= records a <= 2 ^ 53)%Z ->
  valid_target (records a) (valid_ratio a) = Ok (records a / 2)%Z /\
  build_rows G a s =
    Ok (header :: map (row_at a (records a / 2)) (range (records a)), s) /\
  count_valid_phones (map (row_at a (records a / 2)) (range (records a)))
    = (records a / 2)%Z.
Proof.
  intros Hm Hr Hn.
  assert (valid_target (records a) (valid_ratio a) = Ok (records a / 2)%Z) as Ht.
  { rewrite Hr. apply (valid_target_half (-1074) ltac:(lia)). exact Hn. }
  split; [exact Ht |]. split; [now apply build_rows_mixed |].
  rewrite mixed_count_range by (exact Hm || lia).
  pose proof (Z.div_mod (records a) 2 ltac:(lia)) as Hdm.
  pose proof (Z.mod_pos_bound (records a) 2 ltac:(lia)) as Hmb.
  lia.
Qed.

Lemma mixed_mode_default_ratio_witness :
  valid_target 7 PyFloat.f_half = Ok (7 / 2)%Z /\
  build_rows lcg_gen (sample_args "mixed" 7 PyFloat.f_half) 42%Z =
    Ok (header :: map (row_at (sample_args "mixed" 7 PyFloat.f_half) (7 / 2))
                      (range 7), 42%Z) /\
  count_valid_phones
    (map (row_at (sample_args "mixed" 7 PyFloat.f_half) (7 / 2)) (range 7))
    = (7 / 2)%Z.
Proof.
  apply (mixed_mode_default_ratio lcg_gen
           (sample_args "mixed" 7 PyFloat.f_half) 42%Z).
  - reflexivity.
  - reflexivity.
  - cbn. lia.
Defined.

(** ** Mixed mode without a valid row *)

(** X18.  When line 74 computes a target that is not positive, as it does
    for a ratio of zero or below, mixed mode returns exactly the rows of
    invalid mode for the same arguments. *)
Theorem mixed_without_target_is_invalid (G : RandomGen) (a : Namespace)
        (s : rng_state G) (target : Z) :
  mode a = "mixed" ->
  valid_target (records a) (valid_ratio a) = Ok target ->
  (target <= 0)%Z ->
  build_rows G a s = build_rows G (with_mode "invalid" a) s.
Proof.
  intros Hm Ht Hle.
  rewrite (build_rows_mixed G a s target Hm Ht).
  rewrite (build_rows_deterministic G (with_mode "invalid" a) s target
             eq_refl Ht).
  f_equal. f_equal. f_equal. apply map_ext_in. intros i Hi.
  assert (0 <= i)%Z as Hi0.
  { unfold range in Hi. apply in_map_iff in Hi as [k [<- _]]. lia. }
  rewrite (row_at_mixed a target i Hm).
  destruct (Z.ltb_spec i target); [lia |]. reflexivity.
Qed.

Lemma mixed_without_target_is_invalid_witness :
  build_rows lcg_gen (sample_args "mixed" 8 PyFloat.f_zero) 42%Z =
  build_rows lcg_gen
    (with_mode "invalid" (sample_args "mixed" 8 PyFloat.f_zero)) 42%Z.
Proof.
  apply (mixed_without_target_is_invalid lcg_gen
           (sample_args "mixed" 8 PyFloat.f_zero) 42%Z 0%Z).
  - reflexivity.
  - vm_compute. reflexivity.
  - lia.
Defined.

(** ** Uniform rows beside the bundle *)

(** X19.  In uniform mode the CSV row of index [i] carries the family name
    of the bundle patient of the same index, [PATIENT_<i+1>], and a NIK that
    is exactly [10^14] above that patient's. *)
Theorem uniform_rows_beside_bundle (G : RandomGen) (a : Namespace)
        (s : rng_state G) (target : Z) :
  mode a = "uniform" ->
  valid_target (records a) (valid_ratio a) = Ok target ->
  exists data,
    build_rows G a s = Ok (header :: data, s) /\
    forall i, (0 <= i < records a)%Z ->
      exists r e nik,
        nth_error data (Z.to_nat i) = Some r /\
        nth_error (bundle_patients (patients_bundle (records a))) (Z.to_nat i)
          = Some e /\
        patient_family e = Some (name_of r) /\
        patient_nik e = Some nik /\
        PyStr.parse (nik_of r) = (PyStr.parse nik + 10 ^ 14)%Z.
Proof.
  intros Hm Ht.
  exists (map (row_at a target) (range (records a))). split.
  - apply build_rows_deterministic; [| exact Ht].
    unfold deterministic_mode. rewrite Hm. reflexivity.
  - intros i Hi.
    exists (uniform_row a i), (patient_entry i), (make_nik 3000000000000000 i).
    split; [rewrite range_nth_error by exact Hi; f_equal;
            now apply row_at_uniform |].
    split; [rewrite bundle_patients_entries; now apply range_nth_error |].
    split; [reflexivity |]. split; [reflexivity |].
    change (nik_of (uniform_row a i)) with (make_nik 3100000000000000 i).
    unfold make_nik. rewrite !PyStrFacts.format_016d_parse by lia.
    change (10 ^ 14)%Z with 100000000000000%Z. lia.
Qed.

Lemma uniform_rows_beside_bundle_witness :
  exists data,
    build_rows lcg_gen (sample_args "uniform" 4 PyFloat.f_half) 42%Z
      = Ok (header :: data, 42%Z) /\
    forall i, (0 <= i < 4)%Z ->
      exists r e nik,
        nth_error data (Z.to_nat i) = Some r /\
        nth_error (bundle_patients (patients_bundle 4)) (Z.to_nat i) = Some e /\
        patient_family e = Some (name_of r) /\
        patient_nik e = Some nik /\
        PyStr.parse (nik_of r) = (PyStr.parse nik + 10 ^ 14)%Z.
Proof.
  apply (uniform_rows_beside_bundle lcg_gen
           (sample_args "uniform" 4 PyFloat.f_half) 42%Z 2%Z).
  - reflexivity.
  - vm_compute. reflexivity.
Defined.

(** ** The first line *)

(** X20.  Whatever the command line, the clock and the generator, the CSV
    of a run that finishes starts with the header line
    [last_updated_date,nik_identifier,name,phone_number]. *)
Theorem csv_starts_with_header (G : RandomGen) (today : string)
        (c : CommandLine) (fx : effects) :
  program G today c = Done fx ->
  exists rest, csv_of (program G today c) = Some (header_line ++ rest).
Proof.
  intros Hd.
  destruct (parse_args today c) as [a |] eqn:Hp;
    [| unfold program in Hd; rewrite Hp in Hd; discriminate].
  destruct (valid_target (records a) (valid_ratio a)) as [target | e] eqn:Ht.
  - pose proof (build_rows_ok G a (rng_seed G 42) target Ht) as Hb.
    destruct (loop_rows_shape G a target (rng_seed G 42) (Z.to_nat (records a)))
      as [data [Hrows _]].
    rewrite Hrows in Hb.
    destruct (program_csv G today c a _ _ Hp Hb) as [fx' [_ [_ Hcsv]]].
    exists (csv_text data). rewrite Hcsv, csv_text_cons. reflexivity.
  - rewrite (program_raise G today c a e Hp
               (build_rows_raise G a (rng_seed G 42) e Ht)) in Hd.
    discriminate.
Qed.

Lemma csv_starts_with_header_witness :
  exists rest,
    csv_of (program lcg_gen "04-11-2026" (command_line "invalid" 2))
      = Some (header_line ++ rest).
Proof.
  eapply (csv_starts_with_header lcg_gen "04-11-2026" (command_line "invalid" 2)).
  vm_compute. reflexivity.
Defined.
